(** * NexArt UI renderer: preview runtime, scaler, budget arbiter and loop

    A shallow embedding of the preview core of [@nexart/ui-renderer]:
    - [CanvasScaler]   : preview/canvas-scaler.ts
    - [PreviewRuntime] : preview/preview-runtime.ts
    - [CodeRenderer]   : preview/code-renderer.ts   (renderCodeModeSystem)
    - [PreviewEngine]  : preview/preview-engine.ts  (class PreviewEngine)

    Numbers.  The numbers the scaler works on are IEEE 754 doubles
    ([Float64.Number]): a finite value is the rational it denotes, and
    every product and quotient is rounded to the nearest double
    ([Float64.fl]); NaN and the infinities are values of their own.
    [Math.round x] is [floor (x + 1/2)].  Frame counters are integers
    ([Z]) and [%] is the truncating remainder [Z.rem].  Clock readings
    ([performance.now]) are rationals and an input of every operation
    that reads the clock. *)

From Stdlib Require Import QArith Qround Qminmax Qabs Qpower ZArith Lia Lqa List Bool String.
From Stdlib Require Floats.
From stdpp Require Import gmap strings.
Import ListNotations.

Local Open Scope Q_scope.

(** ** preview/preview-types.ts: process-wide constants *)

Module PreviewTypes.

(** [CANVAS_LIMITS.MAX_DIMENSION] *)
Definition MAX_DIMENSION : Q := 900.

(** [PREVIEW_BUDGET] *)
Definition MAX_FRAMES : Z := 1800.
Definition MAX_TOTAL_TIME_MS : Q := 300000.
Definition DEGRADE_STRIDE : Z := 2.

Inductive PreviewMode := ModeStatic | ModeLoop.
Inductive BudgetExceedReason := frame_limit | time_limit.
Inductive BudgetBehavior := degrade | stop.

End PreviewTypes.

(** ** JavaScript numbers: IEEE 754 binary64

    A finite double is the rational it denotes.  [fl] rounds a
    rational to the nearest double, a tie going to the even
    significand: 53 significant bits, exponents down to the subnormal
    range, and an infinity from 2^1024 on.  The sign of a zero is not
    kept. *)

Module Float64.

Inductive Number :=
| Fin (q : Q)
| NaN
| Inf (negative : bool).

Definition pow2 (e : Z) : Q := 2 ^ e.

(** The binary exponent of a positive rational: 2^e <= q < 2^(e+1).
    The difference of the integer logarithms of numerator and
    denominator is this exponent or one more. *)
Definition ilog2 (q : Q) : Z :=
  let e := (Z.log2 (Qnum q) - Z.log2 (Zpos (Qden q)))%Z in
  if Qle_bool (pow2 e) q then e else (e - 1)%Z.

(** The nearest integer, a tie going to the even one. *)
Definition rne (t : Q) : Z :=
  let f := Qfloor t in
  match Qcompare (t - inject_Z f) (1 # 2) with
  | Lt => f
  | Gt => (f + 1)%Z
  | Eq => if Z.even f then f else (f + 1)%Z
  end.

(** The magnitude [a] > 0 rounded to a multiple of its unit in the last
    place: 2^(e - 52) for a normal number of exponent [e], 2^-1074 in
    the subnormal range. *)
Definition roundPos (a : Q) : Q :=
  let e := Z.max (ilog2 a) (-1022) in
  let ulp := pow2 (e - 52) in
  inject_Z (rne (a / ulp)) * ulp.

(** The double nearest to [q]; a magnitude that rounds to 2^1024 or
    more overflows. *)
Definition fl (q : Q) : Number :=
  if Qeq_bool q 0 then Fin 0
  else
    let r := roundPos (Qabs q) in
    if Qle_bool (pow2 1024) r then Inf (negb (Qle_bool 0 q))
    else Fin (if Qle_bool 0 q then r else - r).

(** Arithmetic and comparison on numbers: IEEE 754 for the special
    values, [fl] of the exact result otherwise. *)
Definition negative (q : Q) : bool := negb (Qle_bool 0 q).

Definition mul (a b : Number) : Number :=
  match a, b with
  | NaN, _ | _, NaN => NaN
  | Fin p, Fin q => fl (p * q)
  | Inf s, Fin q | Fin q, Inf s =>
      if Qeq_bool q 0 then NaN else Inf (xorb s (negative q))
  | Inf s, Inf t => Inf (xorb s t)
  end.

Definition div (a b : Number) : Number :=
  match a, b with
  | NaN, _ | _, NaN => NaN
  | Fin p, Fin q =>
      if Qeq_bool q 0
      then if Qeq_bool p 0 then NaN else Inf (negative p)
      else fl (p / q)
  | Fin _, Inf _ => Fin 0
  | Inf s, Fin q => Inf (xorb s (negative q))
  | Inf _, Inf _ => NaN
  end.

(** [a <= b] *)
Definition leb (a b : Number) : bool :=
  match a, b with
  | NaN, _ | _, NaN => false
  | Fin p, Fin q => Qle_bool p q
  | Fin _, Inf t => negb t
  | Inf s, Fin _ => s
  | Inf s, Inf t => s || negb t
  end.

(** [a === b] *)
Definition strictEq (a b : Number) : bool :=
  match a, b with
  | Fin p, Fin q => Qeq_bool p q
  | Inf s, Inf t => Bool.eqb s t
  | _, _ => false
  end.

Definition Math_max (a b : Number) : Number :=
  match a, b with
  | NaN, _ | _, NaN => NaN
  | _, _ => if leb a b then b else a
  end.

(** [Math.round]: the nearest integer, a tie going up. *)
Definition Math_round (x : Number) : Number :=
  match x with
  | Fin q => Fin (inject_Z (Qfloor (q + (1 # 2))))
  | _ => x
  end.

(** The values a double can take: a finite one is below 2^1024 in
    magnitude. *)
Definition isNumber (x : Number) : bool :=
  match x with
  | Fin q => negb (Qle_bool (pow2 1024) (Qabs q))
  | _ => true
  end.

(** [Number.isFinite] *)
Definition isFinite (x : Number) : bool :=
  match x with
  | Fin _ => isNumber x
  | _ => false
  end.

End Float64.

(** ** preview/canvas-scaler.ts *)

Module CanvasScaler.
Import PreviewTypes Float64.

Record ScaledDimensions := {
  renderWidth : Number;
  renderHeight : Number;
  originalWidth : Number;
  originalHeight : Number;
  scaleFactor : Number;
  wasScaled : bool
}.

Definition calculateScaledDimensions (width height : Number) : ScaledDimensions :=
  let maxDim := Math_max width height in
  if leb maxDim (Fin MAX_DIMENSION) then
    {| renderWidth := width;
       renderHeight := height;
       originalWidth := width;
       originalHeight := height;
       scaleFactor := Fin 1;
       wasScaled := false |}
  else
    let scaleFactor := div (Fin MAX_DIMENSION) maxDim in
    {| renderWidth := Math_round (mul width scaleFactor);
       renderHeight := Math_round (mul height scaleFactor);
       originalWidth := width;
       originalHeight := height;
       scaleFactor := scaleFactor;
       wasScaled := true |}.

(** The 2D context: the current transform (as the six numbers of
    [setTransform]), the stack of [save], and the size of the buffer
    it paints on. *)
Record Matrix := { ma : Q; mb : Q; mc : Q; md : Q; me : Q; mf : Q }.

Definition identity : Matrix :=
  {| ma := 1; mb := 0; mc := 0; md := 1; me := 0; mf := 0 |}.

(** The scaling by [x] and [y] multiplied on the right of [m].  The
    code applies it to the identity only, where the products are
    exact. *)
Definition scaleBy (m : Matrix) (x y : Q) : Matrix :=
  {| ma := ma m * x; mb := mb m * x; mc := mc m * y; md := md m * y;
     me := me m; mf := mf m |}.

Record Canvas := {
  width : Q;                      (* canvas.width: physical buffer *)
  height : Q;
  styleWidth : option Number;     (* px value last assigned to canvas.style.width *)
  styleHeight : option Number;
  transform : Matrix;
  saved : list Matrix
}.

(** What reaches the pixel buffer.  A [ClearRect] carries the
    transform that was active when it ran. *)
Inductive Paint :=
| ClearRect (m : Matrix) (x y w h : Q)
| Badge
| ErrorScreen.

(** Conversion of a number to the IDL type [unsigned long]: NaN and
    the infinities give 0, a finite value is truncated and taken
    modulo 2^32. *)
Definition toUnsignedLong (n : Number) : Z :=
  match n with
  | Fin q => (Z.quot (Qnum q) (Zpos (Qden q)) mod 2 ^ 32)%Z
  | _ => 0%Z
  end.

(** Assigning [canvas.width] ([canvas.height]): the attribute
    reflects an unsigned long, and a value above 2147483647 sets the
    default, 300 (150). *)
Definition assignedSize (default : Z) (n : Number) : Q :=
  let v := toUnsignedLong n in
  inject_Z (if (2147483647 <? v)%Z then default else v).

(** Assigning [canvas.width] or [canvas.height] resets the context:
    identity transform, empty save stack. *)
Definition applyScaledDimensions (canvas : Canvas) (d : ScaledDimensions) : Canvas :=
  {| width := assignedSize 300 (renderWidth d);
     height := assignedSize 150 (renderHeight d);
     styleWidth := if wasScaled d then Some (originalWidth d) else styleWidth canvas;
     styleHeight := if wasScaled d then Some (originalHeight d) else styleHeight canvas;
     transform := identity;
     saved := [] |}.

Definition setTransform (canvas : Canvas) (m : Matrix) : Canvas :=
  {| width := width canvas; height := height canvas;
     styleWidth := styleWidth canvas; styleHeight := styleHeight canvas;
     transform := m; saved := saved canvas |}.

(** [ctx.scale(x, y)] does nothing when an argument is NaN or
    infinite. *)
Definition scale (canvas : Canvas) (x y : Number) : Canvas :=
  match x, y with
  | Fin a, Fin b => setTransform canvas (scaleBy (transform canvas) a b)
  | _, _ => canvas
  end.

Definition save (canvas : Canvas) : Canvas :=
  {| width := width canvas; height := height canvas;
     styleWidth := styleWidth canvas; styleHeight := styleHeight canvas;
     transform := transform canvas;
     saved := transform canvas :: saved canvas |}.

Definition restore (canvas : Canvas) : Canvas :=
  match saved canvas with
  | [] => canvas
  | m :: rest =>
      {| width := width canvas; height := height canvas;
         styleWidth := styleWidth canvas; styleHeight := styleHeight canvas;
         transform := m; saved := rest |}
  end.

(** The canvas has a 2D context ([getContext] does not return null).
    The quotient is the double one: 0/0 is NaN, which [scale]
    ignores. *)
Definition reapplyContextScale (canvas : Canvas) (d : ScaledDimensions) : Canvas :=
  if negb (wasScaled d) then canvas
  else
    let canvas := setTransform canvas identity in
    let scaleFactor := div (renderWidth d) (originalWidth d) in
    scale canvas scaleFactor scaleFactor.

Definition clearCanvasIgnoringTransform (canvas : Canvas) : Canvas * list Paint :=
  let c1 := save canvas in
  let c2 := setTransform c1 identity in
  let paint := ClearRect (transform c2) 0 0 (width c2) (height c2) in
  (restore c2, [paint]).

End CanvasScaler.

(** ** preview/preview-runtime.ts *)

Module PreviewRuntime.
Import Float64.

(** What a property of the runtime object, or an identifier a script
    reads, can hold.  Closures of the runtime and [Math] functions are
    opaque and are named by their source expression; the irrational
    constants likewise. *)
Inductive Value :=
| VUndefined
| VNum (q : Q)
| VNaN
| VInfinity (negative : bool)
| VStr (s : string)
| VConst (expr : string)
| VNative (expr : string)
| VVars (l : list Q)
| VArray
| VRegisterSetup
| VRegisterDraw
| VScriptFn (name : string).

Definition isFunction (v : Value) : bool :=
  match v with
  | VNative _ | VRegisterSetup | VRegisterDraw | VScriptFn _ => true
  | _ => false
  end.

Definition valueOf (n : Number) : Value :=
  match n with
  | Fin q => VNum q
  | NaN => VNaN
  | Inf s => VInfinity s
  end.

(** A JavaScript object literal: own properties in insertion order. *)
Definition Object := list (string * Value).

Fixpoint get (o : Object) (k : string) : Value :=
  match o with
  | [] => VUndefined
  | (k', v) :: o' => if String.eqb k' k then v else get o' k
  end.

Fixpoint hasOwn (o : Object) (k : string) : bool :=
  match o with
  | [] => false
  | (k', _) :: o' => String.eqb k' k || hasOwn o' k
  end.

Fixpoint set (o : Object) (k : string) (v : Value) : Object :=
  match o with
  | [] => [(k, v)]
  | (k', v') :: o' =>
      if String.eqb k' k then (k', v) :: o' else (k', v') :: set o' k v
  end.

Definition keys (o : Object) : list string := map fst o.
Definition values (o : Object) : list Value := map snd o.

(** An entry of the caller's [vars] array: a finite number, or
    anything else (NaN, an infinity, a non-number). *)
Inductive JsNum := Finite (q : Q) | NotFinite.

Definition clamp100 (v : Q) : Q := Qmax 0 (Qmin 100 v).

Fixpoint pad (n : nat) (l : list Q) : list Q :=
  match n with
  | O => l
  | S n' =>
      match l with
      | [] => 0 :: pad n' []
      | x :: l' => x :: pad n' l'
      end
  end.

Definition normalizeVars (vars : option (list JsNum)) : list Q :=
  match vars with
  | None => [0; 0; 0; 0; 0; 0; 0; 0; 0; 0]
  | Some vars =>
      pad 10
        (map (fun v => match v with Finite q => clamp100 q | NotFinite => 0 end)
             (firstn 10 vars))
  end.

Definition native (k : string) : string * Value := (k, VNative k).

(** The object literal [p] returned by [createPreviewRuntime].  The
    closures draw on the canvas and keep the seed; they are opaque
    here. *)
Definition createPreviewRuntime
    (width height : Number) (seed : Z) (vars : list JsNum) : Object :=
  [ ("mode", VStr "preview");
    ("width", valueOf width);
    ("height", valueOf height);
    ("frameCount", VNum 0);
    ("VAR", VVars (normalizeVars (Some vars)));
    ("PI", VConst "Math.PI");
    ("TWO_PI", VConst "Math.PI * 2");
    ("HALF_PI", VConst "Math.PI / 2");
    ("QUARTER_PI", VConst "Math.PI / 4");
    ("CORNER", VStr "corner"); ("CENTER", VStr "center");
    ("CORNERS", VStr "corners"); ("RADIUS", VStr "radius");
    ("ROUND", VStr "round"); ("SQUARE", VStr "square");
    ("PROJECT", VStr "butt"); ("MITER", VStr "miter");
    ("BEVEL", VStr "bevel"); ("CLOSE", VStr "close") ]
  ++ map native
    [ "background"; "fill"; "noFill"; "stroke"; "noStroke"; "strokeWeight";
      "strokeCap"; "strokeJoin"; "colorMode"; "push"; "pop"; "translate";
      "rotate"; "scale"; "ellipse"; "circle"; "rect"; "square"; "line";
      "point"; "triangle"; "quad"; "arc"; "beginShape"; "vertex";
      "curveVertex"; "bezierVertex"; "quadraticVertex"; "endShape";
      "bezier"; "curve"; "text"; "textSize"; "textAlign"; "random";
      "randomSeed"; "noise"; "noiseSeed"; "noiseDetail" ]
  ++ [ ("sin", VNative "Math.sin"); ("cos", VNative "Math.cos");
       ("tan", VNative "Math.tan"); ("asin", VNative "Math.asin");
       ("acos", VNative "Math.acos"); ("atan", VNative "Math.atan");
       ("atan2", VNative "Math.atan2"); ("abs", VNative "Math.abs");
       ("ceil", VNative "Math.ceil"); ("floor", VNative "Math.floor");
       ("round", VNative "Math.round"); ("min", VNative "Math.min");
       ("max", VNative "Math.max"); ("pow", VNative "Math.pow");
       ("sqrt", VNative "Math.sqrt"); ("exp", VNative "Math.exp");
       ("log", VNative "Math.log"); native "sq";
       ("int", VNative "Math.floor") ]
  ++ map native
    [ "map"; "constrain"; "lerp"; "dist"; "mag"; "norm"; "radians";
      "degrees"; "color"; "lerpColor"; "red"; "green"; "blue"; "alpha";
      "hue"; "saturation"; "brightness"; "blendMode"; "clear" ]
  ++ [ ("print", VNative "console.log"); ("println", VNative "console.log");
       native "loop"; native "noLoop"; native "fract";
       ("sign", VNative "Math.sign") ]
  ++ map native
    [ "vec"; "vecAdd"; "vecSub"; "vecMult"; "vecMag"; "vecNorm"; "vecDist";
      "polygon"; "star"; "easeIn"; "easeOut"; "easeInOut"; "easeCubic";
      "easeExpo"; "fbm"; "ridgedNoise"; "curlNoise"; "createGraphics";
      "image"; "loadPixels"; "updatePixels"; "get"; "set" ]
  ++ [ ("pixels", VArray);
       ("totalFrames", VNum 120);
       ("t", VNum 0);
       ("time", VNum 0);
       ("tGlobal", VNum 0) ].

(** [(frame % totalFrames) / totalFrames]; not a number when
    [totalFrames] is zero. *)
Definition phase (frame totalFrames : Z) : Value :=
  if (totalFrames =? 0)%Z then VNaN
  else valueOf (div (Fin (inject_Z (Z.rem frame totalFrames)))
                    (Fin (inject_Z totalFrames))).

End PreviewRuntime.

(** ** Scripts

    A script is text; what the renderers need of it is what its
    top-level statements and its functions do with the identifiers they
    are given.  A function body is a map from the identifier resolution
    in force when it runs to what it paints and whether it throws. *)

Module Script.
Import PreviewRuntime.

(** Result of resolving a bare identifier from script code: a value
    bound by the script or by the sandbox, or a fall-through to the
    host page's globals. *)
Inductive Resolved := Found (v : Value) | HostGlobal.

Definition Scope := string -> Resolved.

Record Outcome := {
  painted : list Value;       (* arguments handed to drawing primitives *)
  thrown : option string      (* message of an uncaught exception *)
}.

Definition Fn := Scope -> Outcome.

Inductive Stmt :=
| SFunction (name : string) (body : Fn)   (* function name() { body } *)
| SCall (callee : string) (arg : Fn)      (* callee(function () { arg }) *)
| SThrow (msg : string).                  (* a statement that throws *)

(** [None] is text that does not parse. *)
Definition Source := option (list Stmt).

(** Function declarations are hoisted; a later declaration of the
    same name wins. *)
Fixpoint declared (body : list Stmt) (name : string) : option Fn :=
  match body with
  | [] => None
  | SFunction n f :: rest =>
      match declared rest name with
      | Some g => Some g
      | None => if String.eqb n name then Some f else None
      end
  | _ :: rest => declared rest name
  end.

End Script.

Module TopLevel.
Import PreviewRuntime Script.

Inductive Phase := Setup | Draw | Top.

(** What running the top level of a wrapped script does to the
    renderer: hand a function to a registration callback, or run a
    function on the spot. *)
Inductive TopEffect :=
| Register (ph : Phase) (f : Fn)
| Invoke (o : Outcome).

Definition inert : Fn := fun _ => {| painted := []; thrown := None |}.

Section Run.
Variable globals : gmap string Outcome.   (* functions of the host page *)
Variable decls : list Stmt.               (* the script, for its declarations *)
Variable scope : Scope.                   (* resolution while the top level runs *)

Definition fnOfValue (v : Value) : Fn :=
  match v with
  | VScriptFn n => match declared decls n with Some f => f | None => inert end
  | _ => inert
  end.

Definition call (callee : string) (arg : Fn) : list TopEffect * option string :=
  match scope callee with
  | Found VRegisterSetup => ([Register Setup arg], None)
  | Found VRegisterDraw => ([Register Draw arg], None)
  | Found (VScriptFn g) =>
      let o := fnOfValue (VScriptFn g) scope in ([Invoke o], thrown o)
  | Found (VNative _) => ([], None)
  | Found _ => ([], Some (callee +:+ " is not a function"))
  | HostGlobal =>
      match globals !! callee with
      | Some o => ([Invoke o], thrown o)
      | None => ([], Some (callee +:+ " is not defined"))
      end
  end.

Fixpoint statements (l : list Stmt) : list TopEffect * option string :=
  match l with
  | [] => ([], None)
  | SFunction _ _ :: rest => statements rest
  | SCall callee arg :: rest =>
      match call callee arg with
      | (e, Some msg) => (e, Some msg)
      | (e, None) => let '(e', t) := statements rest in (e ++ e', t)
      end
  | SThrow msg :: _ => ([], Some msg)
  end.

(** [if (typeof name === 'function') regName(name);] *)
Definition registration (name regName : string) : list TopEffect * option string :=
  match scope name with
  | Found v => if isFunction v then call regName (fnOfValue v) else ([], None)
  | HostGlobal =>
      match globals !! name with
      | Some o => call regName (fun _ => o)
      | None => ([], None)
      end
  end.

(** The script followed by the two registration lines. *)
Definition wrapped : list TopEffect * option string :=
  match statements decls with
  | (e, Some msg) => (e, Some msg)
  | (e, None) =>
      match registration "setup" "__registerSetup" with
      | (e1, Some msg) => (e ++ e1, Some msg)
      | (e1, None) =>
          let '(e2, t) := registration "draw" "__registerDraw" in
          (e ++ e1 ++ e2, t)
      end
  end.
End Run.

End TopLevel.

(** ** Effects: the host page, the event trace, exceptions *)

Module Effects.
Import PreviewTypes Float64 CanvasScaler PreviewRuntime Script TopLevel.

Record BudgetExceededInfo := {
  reason : BudgetExceedReason;
  framesRendered : Z;
  totalTimeMs : Q;
  stride : Z;
  scale : Number
}.

Inductive Warning :=
| CompileError (msg : string)
| DrawError (msg : string)
| SetupError (msg : string)
| StaticRenderError (msg : string)
| LoopRenderError (msg : string)
| NoDrawFunction
| BudgetExceeded (r : BudgetExceedReason).

Inductive Callback := OnPreview | OnError (msg : string) | ToBlob.

Inductive Event :=
| RequestFrame (id : nat)            (* requestAnimationFrame(cb) = id *)
| CancelFrame (id : nat)             (* cancelAnimationFrame(id) *)
| Warn (w : Warning)                 (* console.warn *)
| Painted (p : Paint)                (* the renderer itself touches pixels *)
| Ran (ph : Phase) (o : Outcome)     (* script code ran and did [o] *)
| Notified (info : BudgetExceededInfo)   (* config.onBudgetExceeded(info) *)
| OverlayShown (r : BudgetExceedReason)
| OverlayRemoved
| Called (cb : Callback).

(** The host page: the animation-frame registry and its global
    functions. *)
Record Host := {
  nextFrameId : nat;
  pendingFrames : list nat;
  globalFunctions : gmap string Outcome
}.

Definition requestAnimationFrame (h : Host) : nat * Host :=
  (nextFrameId h,
   {| nextFrameId := S (nextFrameId h);
      pendingFrames := pendingFrames h ++ [nextFrameId h];
      globalFunctions := globalFunctions h |}).

Definition cancelAnimationFrame (id : nat) (h : Host) : Host :=
  {| nextFrameId := nextFrameId h;
     pendingFrames := filter (fun i => i ≠ id) (pendingFrames h);
     globalFunctions := globalFunctions h |}.

(** A computation over a renderer state [S]: returns or throws, and
    leaves a trace. *)
Inductive Completion (A : Type) := Returned (a : A) | Threw (msg : string).
Arguments Returned {A} a.
Arguments Threw {A} msg.

Definition M (S A : Type) : Type := S -> Completion A * S * list Event.

Definition ret {S A} (a : A) : M S A := fun s => (Returned a, s, []).

Definition bind {S A B} (m : M S A) (f : A -> M S B) : M S B :=
  fun s =>
    match m s with
    | (Returned a, s1, e1) =>
        let '(r, s2, e2) := f a s1 in (r, s2, e1 ++ e2)
    | (Threw msg, s1, e1) => (Threw msg, s1, e1)
    end.

Definition throw {S A} (msg : string) : M S A := fun s => (Threw msg, s, []).

Definition tryCatch {S A} (m : M S A) (handler : string -> M S A) : M S A :=
  fun s =>
    match m s with
    | (Threw msg, s1, e1) =>
        let '(r, s2, e2) := handler msg s1 in (r, s2, e1 ++ e2)
    | done => done
    end.

Definition gets {S A} (f : S -> A) : M S A := fun s => (Returned (f s), s, []).
Definition modify {S} (f : S -> S) : M S unit := fun s => (Returned tt, f s, []).
Definition emit {S} (e : Event) : M S unit := fun s => (Returned tt, s, [e]).
Definition when {S} (b : bool) (m : M S unit) : M S unit := if b then m else ret tt.

Definition events {S A} (r : Completion A * S * list Event) : list Event := snd r.
Definition state {S A} (r : Completion A * S * list Event) : S := snd (fst r).
Definition completion {S A} (r : Completion A * S * list Event) : Completion A :=
  fst (fst r).

Declare Scope effects_scope.
Delimit Scope effects_scope with eff.
Notation "x <- m ;; k" := (bind m (fun x => k))
  (at level 100, m at next level, k at level 200, right associativity)
  : effects_scope.
Notation "m ;; k" := (bind m (fun _ => k))
  (at level 100, k at level 200, right associativity) : effects_scope.

End Effects.

(** ** preview/code-renderer.ts: [renderCodeModeSystem] *)

Module CodeRenderer.
Import PreviewTypes Float64 CanvasScaler PreviewRuntime Script TopLevel Effects.
Local Open Scope effects_scope.

Record NexArtCodeSystem := {
  source : Source;
  mode : PreviewMode;
  width : Q;
  height : Q;
  seed : option Z;
  vars : option (list JsNum);
  totalFrames : option Z
}.

(** [PreviewOptions]: the badge switch and which callbacks were given. *)
Record PreviewOptions := {
  showBadge : bool;
  onPreview : bool;
  onError : bool
}.

(** A script function together with the scope chain it closed over:
    the script's own declarations, the runtime object the proxy reads
    live properties from ([runtimeRef]), and the static cache. *)
Record Closure := {
  body : Fn;
  decls : list Stmt;
  runtimeRef : nat;
  staticCache : gmap string Value
}.

(** The variables [renderCodeModeSystem] closes over, the canvas, the
    host, and the runtime objects allocated so far. *)
Record State := {
  canvas : Canvas;
  host : Host;
  heap : list Object;
  animationId : option nat;
  isRunning : bool;
  isDestroyed : bool;
  runtime : option nat;
  setupFn : option Closure;
  drawFn : option Closure
}.

Definition setCanvas (c : Canvas) (s : State) : State :=
  {| canvas := c; host := host s; heap := heap s; animationId := animationId s;
     isRunning := isRunning s; isDestroyed := isDestroyed s; runtime := runtime s;
     setupFn := setupFn s; drawFn := drawFn s |}.
Definition setHost (h : Host) (s : State) : State :=
  {| canvas := canvas s; host := h; heap := heap s; animationId := animationId s;
     isRunning := isRunning s; isDestroyed := isDestroyed s; runtime := runtime s;
     setupFn := setupFn s; drawFn := drawFn s |}.
Definition setHeap (hp : list Object) (s : State) : State :=
  {| canvas := canvas s; host := host s; heap := hp; animationId := animationId s;
     isRunning := isRunning s; isDestroyed := isDestroyed s; runtime := runtime s;
     setupFn := setupFn s; drawFn := drawFn s |}.
Definition setAnimationId (a : option nat) (s : State) : State :=
  {| canvas := canvas s; host := host s; heap := heap s; animationId := a;
     isRunning := isRunning s; isDestroyed := isDestroyed s; runtime := runtime s;
     setupFn := setupFn s; drawFn := drawFn s |}.
Definition setIsRunning (b : bool) (s : State) : State :=
  {| canvas := canvas s; host := host s; heap := heap s; animationId := animationId s;
     isRunning := b; isDestroyed := isDestroyed s; runtime := runtime s;
     setupFn := setupFn s; drawFn := drawFn s |}.
Definition setIsDestroyed (b : bool) (s : State) : State :=
  {| canvas := canvas s; host := host s; heap := heap s; animationId := animationId s;
     isRunning := isRunning s; isDestroyed := b; runtime := runtime s;
     setupFn := setupFn s; drawFn := drawFn s |}.
Definition setRuntime (r : option nat) (s : State) : State :=
  {| canvas := canvas s; host := host s; heap := heap s; animationId := animationId s;
     isRunning := isRunning s; isDestroyed := isDestroyed s; runtime := r;
     setupFn := setupFn s; drawFn := drawFn s |}.
Definition setSetupFn (f : option Closure) (s : State) : State :=
  {| canvas := canvas s; host := host s; heap := heap s; animationId := animationId s;
     isRunning := isRunning s; isDestroyed := isDestroyed s; runtime := runtime s;
     setupFn := f; drawFn := drawFn s |}.
Definition setDrawFn (f : option Closure) (s : State) : State :=
  {| canvas := canvas s; host := host s; heap := heap s; animationId := animationId s;
     isRunning := isRunning s; isDestroyed := isDestroyed s; runtime := runtime s;
     setupFn := setupFn s; drawFn := f |}.

(** *** The sandbox of [compileSource] *)

Definition liveProps : gset string :=
  {[ "frameCount"; "t"; "time"; "tGlobal"; "totalFrames" ]}.

Definition isLive (prop : string) : bool := bool_decide (prop ∈ liveProps).

(** [for (key of Object.keys(runtime)) if (!liveProps.has(key)) staticCache[key] = runtime[key]] *)
Definition buildStaticCache (rt : Object) : gmap string Value :=
  fold_left (fun cache kv => if isLive (fst kv) then cache else <[fst kv := snd kv]> cache)
            rt ∅.

Definition knownKeys (cache : gmap string Value) : gset string :=
  liveProps ∪ dom cache ∪ {[ "__registerSetup"; "__registerDraw" ]}.

Definition proxyHas (cache : gmap string Value) (prop : string) : bool :=
  bool_decide (prop ∈ knownKeys cache).

Definition proxyGet (rt : Object) (cache : gmap string Value) (prop : string) : Value :=
  if isLive prop then get rt prop
  else if String.eqb prop "__registerSetup" then VRegisterSetup
  else if String.eqb prop "__registerDraw" then VRegisterDraw
  else match cache !! prop with
       | Some v => v
       | None => VUndefined
       end.

(** Resolution of a bare identifier inside [with (__scope) { ... }]:
    the script's own functions, then the proxy when its [has] trap
    answers, then the host page. *)
Definition scopeOf (ds : list Stmt) (rt : Object) (cache : gmap string Value) : Scope :=
  fun name =>
    match declared ds name with
    | Some _ => Found (VScriptFn name)
    | None =>
        if proxyHas cache name then Found (proxyGet rt cache name) else HostGlobal
    end.

Definition object (s : State) (ref : nat) : Object :=
  match heap s !! ref with
  | Some o => o
  | None => []
  end.

(** [fn()] for a registered function: it reads through the proxy, so
    live properties come from the runtime object as it is now. *)
Definition invoke (ph : Phase) (cl : Closure) : M State unit :=
  fun s =>
    let o := body cl (scopeOf (decls cl) (object s (runtimeRef cl)) (staticCache cl)) in
    match thrown o with
    | Some msg => (Threw msg, s, [Ran ph o])
    | None => (Returned tt, s, [Ran ph o])
    end.

Section Renderer.
Variable system : NexArtCodeSystem.
Variable options : PreviewOptions.

Definition scaled : ScaledDimensions :=
  calculateScaledDimensions (Fin (width system)) (Fin (height system)).

Definition normalizedVars : list Q := normalizeVars (vars system).

Definition systemTotalFrames : Z :=
  match totalFrames system with Some n => n | None => 120%Z end.

Definition systemSeed : Z :=
  match seed system with Some n => n | None => 12345%Z end.

Definition applyTop (ds : list Stmt) (ref : nat) (cache : gmap string Value)
    (e : TopEffect) : M State unit :=
  let close f := {| body := f; decls := ds; runtimeRef := ref; staticCache := cache |} in
  match e with
  | Register Setup f => modify (setSetupFn (Some (close f)))
  | Register Draw f => modify (setDrawFn (Some (close f)))
  | Register Top _ => ret tt
  | Invoke o => emit (Ran Top o)
  end.

Fixpoint applyAll (ds : list Stmt) (ref : nat) (cache : gmap string Value)
    (es : list TopEffect) : M State unit :=
  match es with
  | [] => ret tt
  | e :: rest => applyTop ds ref cache e ;; applyAll ds ref cache rest
  end.

Definition compileSource : M State unit :=
  ref <- gets (fun s => length (heap s)) ;;
  let rt :=
    set (createPreviewRuntime (originalWidth scaled) (originalHeight scaled)
           systemSeed (map Finite normalizedVars))
        "totalFrames" (VNum (inject_Z systemTotalFrames)) in
  modify (fun s => setRuntime (Some ref) (setHeap (heap s ++ [rt]) s)) ;;
  tryCatch
    (let cache := buildStaticCache rt in
     match source system with
     | None => throw "SyntaxError"
     | Some ds =>
         globals <- gets (fun s => globalFunctions (host s)) ;;
         let '(es, t) := wrapped globals ds (scopeOf ds rt cache) in
         applyAll ds ref cache es ;;
         match t with
         | Some msg => throw msg
         | None => ret tt
         end
     end)
    (fun msg => emit (Warn (CompileError msg))).

Definition drawBadge : M State unit :=
  when (showBadge options) (emit (Painted Badge)).

Definition renderBlackCanvas : M State unit := emit (Painted ErrorScreen).

Definition callIfSome (ph : Phase) (f : option Closure) : M State unit :=
  match f with
  | Some cl => invoke ph cl
  | None => ret tt
  end.

Definition renderStatic : M State unit :=
  tryCatch
    (compileSource ;;
     f <- gets setupFn ;;
     callIfSome Setup f ;;
     drawBadge ;;
     when (onPreview options) (emit (Called OnPreview)) ;;
     emit (Called ToBlob))
    (fun msg =>
       emit (Warn (StaticRenderError msg)) ;;
       renderBlackCanvas ;;
       when (onError options) (emit (Called (OnError msg)))).

Definition clearCanvas : M State unit :=
  fun s =>
    let '(c, paints) := clearCanvasIgnoringTransform (canvas s) in
    (Returned tt, setCanvas c s, map Painted paints).

Definition schedule : M State unit :=
  fun s =>
    let '(id, h) := requestAnimationFrame (host s) in
    (Returned tt, setAnimationId (Some id) (setHost h s), [RequestFrame id]).

Definition updateTiming (frameCount : Z) (s : State) : State :=
  match runtime s with
  | Some ref =>
      let rt := object s ref in
      let rt := set rt "frameCount" (VNum (inject_Z frameCount)) in
      let rt := set rt "t" (phase frameCount systemTotalFrames) in
      let rt := set rt "time" (get rt "t") in
      let rt := set rt "tGlobal" (get rt "t") in
      setHeap (<[ref := rt]> (heap s)) s
  | None => s
  end.

(** The [loop] closure of [renderLoop]: its first statement
    re-registers it; [afterScheduling] is the rest.  [frameCount] is
    the closure's local counter, returned updated. *)
Definition afterScheduling (frameCount : Z) : M State Z :=
  halted <- gets (fun s => negb (isRunning s) || isDestroyed s) ;;
  if halted then ret frameCount
  else
    let frameCount := (frameCount + 1)%Z in
    modify (updateTiming frameCount) ;;
    tryCatch
      (clearCanvas ;;
       f <- gets drawFn ;;
       callIfSome Draw f ;;
       drawBadge)
      (fun msg => emit (Warn (DrawError msg))) ;;
    ret frameCount.

Definition loop (frameCount : Z) : M State Z :=
  schedule ;; afterScheduling frameCount.

(** Returns whether a [loop] closure (with counter 0) was created
    and registered. *)
Definition renderLoop : M State bool :=
  destroyed <- gets isDestroyed ;;
  if destroyed then ret false
  else
    tryCatch
      (compileSource ;;
       d <- gets drawFn ;;
       match d with
       | None =>
           emit (Warn NoDrawFunction) ;;
           renderStatic ;;
           ret false
       | Some _ =>
           f <- gets setupFn ;;
           callIfSome Setup f ;;
           modify (setIsRunning true) ;;
           schedule ;;
           ret true
       end)
      (fun msg =>
         emit (Warn (LoopRenderError msg)) ;;
         renderBlackCanvas ;;
         when (onError options) (emit (Called (OnError msg))) ;;
         ret false).

Definition stop : M State unit :=
  modify (setIsRunning false) ;;
  a <- gets animationId ;;
  match a with
  | Some id =>
      modify (fun s => setHost (cancelAnimationFrame id (host s)) s) ;;
      emit (CancelFrame id) ;;
      modify (setAnimationId None)
  | None => ret tt
  end.

Definition render : M State bool :=
  destroyed <- gets isDestroyed ;;
  if destroyed then ret false
  else
    match mode system with
    | ModeStatic => renderStatic ;; ret false
    | ModeLoop => renderLoop
    end.

Definition start : M State bool :=
  destroyed <- gets isDestroyed ;;
  if destroyed then ret false
  else
    stop ;;
    match mode system with
    | ModeLoop => renderLoop
    | ModeStatic => renderStatic ;; ret false
    end.

Definition destroy : M State unit :=
  modify (setIsDestroyed true) ;;
  stop ;;
  clearCanvas ;;
  modify (setRuntime None) ;;
  modify (setSetupFn None) ;;
  modify (setDrawFn None).

(** The body of [renderCodeModeSystem] up to the returned handle. *)
Definition renderCodeModeSystem (canvas : Canvas) (h : Host) : State :=
  let canvas := applyScaledDimensions canvas scaled in
  let canvas := reapplyContextScale canvas scaled in
  {| canvas := canvas; host := h; heap := []; animationId := None;
     isRunning := false; isDestroyed := false; runtime := None;
     setupFn := None; drawFn := None |}.

End Renderer.

End CodeRenderer.

(** ** preview/preview-engine.ts: [class PreviewEngine]

    One engine is modelled; of the module-level [activePreviewRenderer]
    only whether it is this engine is kept. *)

Module PreviewEngine.
Import PreviewTypes Float64 CanvasScaler PreviewRuntime Script TopLevel Effects.
Local Open Scope effects_scope.

Record PreviewEngineConfig := {
  source : Source;
  mode : PreviewMode;
  width : Q;
  height : Q;
  seed : option Z;
  vars : option (list JsNum);
  totalFrames : option Z;
  onBudgetExceeded : bool;             (* a callback was supplied *)
  budgetBehavior : option BudgetBehavior;
  showOverlay : option bool;
  maxFrames : option Z;
  maxTimeMs : option Q
}.

(** A script function together with what it closed over: the script's
    declarations and the parameters of the generated [Function], which
    received their values once, when it was called. *)
Record Closure := {
  body : Fn;
  decls : list Stmt;
  params : gmap string Value
}.

Record Engine := {
  canvas : Canvas;
  parentElement : bool;   (* canvas.parentElement is not null *)
  host : Host;
  runtime : option Object;
  setupFn : option Closure;
  drawFn : option Closure;
  animationFrameId : option nat;
  running : bool;
  internalFrameCount : Z;
  startTimeMs : Q;
  scaled : option ScaledDimensions;
  currentStride : Z;
  budgetExceededReason : option BudgetExceedReason;
  overlayElement : bool;   (* an overlay is attached *)
  active : bool   (* activePreviewRenderer === this *)
}.

Definition setCanvas (x : Canvas) (e : Engine) : Engine :=
  {| canvas := x; parentElement := parentElement e; host := host e;
     runtime := runtime e; setupFn := setupFn e; drawFn := drawFn e;
     animationFrameId := animationFrameId e; running := running e;
     internalFrameCount := internalFrameCount e; startTimeMs := startTimeMs e;
     scaled := scaled e; currentStride := currentStride e;
     budgetExceededReason := budgetExceededReason e;
     overlayElement := overlayElement e; active := active e |}.
Definition setHost (x : Host) (e : Engine) : Engine :=
  {| canvas := canvas e; parentElement := parentElement e; host := x;
     runtime := runtime e; setupFn := setupFn e; drawFn := drawFn e;
     animationFrameId := animationFrameId e; running := running e;
     internalFrameCount := internalFrameCount e; startTimeMs := startTimeMs e;
     scaled := scaled e; currentStride := currentStride e;
     budgetExceededReason := budgetExceededReason e;
     overlayElement := overlayElement e; active := active e |}.
Definition setRuntime (x : option Object) (e : Engine) : Engine :=
  {| canvas := canvas e; parentElement := parentElement e; host := host e;
     runtime := x; setupFn := setupFn e; drawFn := drawFn e;
     animationFrameId := animationFrameId e; running := running e;
     internalFrameCount := internalFrameCount e; startTimeMs := startTimeMs e;
     scaled := scaled e; currentStride := currentStride e;
     budgetExceededReason := budgetExceededReason e;
     overlayElement := overlayElement e; active := active e |}.
Definition setSetupFn (x : option Closure) (e : Engine) : Engine :=
  {| canvas := canvas e; parentElement := parentElement e; host := host e;
     runtime := runtime e; setupFn := x; drawFn := drawFn e;
     animationFrameId := animationFrameId e; running := running e;
     internalFrameCount := internalFrameCount e; startTimeMs := startTimeMs e;
     scaled := scaled e; currentStride := currentStride e;
     budgetExceededReason := budgetExceededReason e;
     overlayElement := overlayElement e; active := active e |}.
Definition setDrawFn (x : option Closure) (e : Engine) : Engine :=
  {| canvas := canvas e; parentElement := parentElement e; host := host e;
     runtime := runtime e; setupFn := setupFn e; drawFn := x;
     animationFrameId := animationFrameId e; running := running e;
     internalFrameCount := internalFrameCount e; startTimeMs := startTimeMs e;
     scaled := scaled e; currentStride := currentStride e;
     budgetExceededReason := budgetExceededReason e;
     overlayElement := overlayElement e; active := active e |}.
Definition setAnimationFrameId (x : option nat) (e : Engine) : Engine :=
  {| canvas := canvas e; parentElement := parentElement e; host := host e;
     runtime := runtime e; setupFn := setupFn e; drawFn := drawFn e;
     animationFrameId := x; running := running e;
     internalFrameCount := internalFrameCount e; startTimeMs := startTimeMs e;
     scaled := scaled e; currentStride := currentStride e;
     budgetExceededReason := budgetExceededReason e;
     overlayElement := overlayElement e; active := active e |}.
Definition setRunning (x : bool) (e : Engine) : Engine :=
  {| canvas := canvas e; parentElement := parentElement e; host := host e;
     runtime := runtime e; setupFn := setupFn e; drawFn := drawFn e;
     animationFrameId := animationFrameId e; running := x;
     internalFrameCount := internalFrameCount e; startTimeMs := startTimeMs e;
     scaled := scaled e; currentStride := currentStride e;
     budgetExceededReason := budgetExceededReason e;
     overlayElement := overlayElement e; active := active e |}.
Definition setInternalFrameCount (x : Z) (e : Engine) : Engine :=
  {| canvas := canvas e; parentElement := parentElement e; host := host e;
     runtime := runtime e; setupFn := setupFn e; drawFn := drawFn e;
     animationFrameId := animationFrameId e; running := running e;
     internalFrameCount := x; startTimeMs := startTimeMs e; scaled := scaled e;
     currentStride := currentStride e;
     budgetExceededReason := budgetExceededReason e;
     overlayElement := overlayElement e; active := active e |}.
Definition setStartTimeMs (x : Q) (e : Engine) : Engine :=
  {| canvas := canvas e; parentElement := parentElement e; host := host e;
     runtime := runtime e; setupFn := setupFn e; drawFn := drawFn e;
     animationFrameId := animationFrameId e; running := running e;
     internalFrameCount := internalFrameCount e; startTimeMs := x;
     scaled := scaled e; currentStride := currentStride e;
     budgetExceededReason := budgetExceededReason e;
     overlayElement := overlayElement e; active := active e |}.
Definition setScaled (x : option ScaledDimensions) (e : Engine) : Engine :=
  {| canvas := canvas e; parentElement := parentElement e; host := host e;
     runtime := runtime e; setupFn := setupFn e; drawFn := drawFn e;
     animationFrameId := animationFrameId e; running := running e;
     internalFrameCount := internalFrameCount e; startTimeMs := startTimeMs e;
     scaled := x; currentStride := currentStride e;
     budgetExceededReason := budgetExceededReason e;
     overlayElement := overlayElement e; active := active e |}.
Definition setCurrentStride (x : Z) (e : Engine) : Engine :=
  {| canvas := canvas e; parentElement := parentElement e; host := host e;
     runtime := runtime e; setupFn := setupFn e; drawFn := drawFn e;
     animationFrameId := animationFrameId e; running := running e;
     internalFrameCount := internalFrameCount e; startTimeMs := startTimeMs e;
     scaled := scaled e; currentStride := x;
     budgetExceededReason := budgetExceededReason e;
     overlayElement := overlayElement e; active := active e |}.
Definition setBudgetExceededReason (x : option BudgetExceedReason) (e : Engine) : Engine :=
  {| canvas := canvas e; parentElement := parentElement e; host := host e;
     runtime := runtime e; setupFn := setupFn e; drawFn := drawFn e;
     animationFrameId := animationFrameId e; running := running e;
     internalFrameCount := internalFrameCount e; startTimeMs := startTimeMs e;
     scaled := scaled e; currentStride := currentStride e; budgetExceededReason := x;
     overlayElement := overlayElement e; active := active e |}.
Definition setOverlayElement (x : bool) (e : Engine) : Engine :=
  {| canvas := canvas e; parentElement := parentElement e; host := host e;
     runtime := runtime e; setupFn := setupFn e; drawFn := drawFn e;
     animationFrameId := animationFrameId e; running := running e;
     internalFrameCount := internalFrameCount e; startTimeMs := startTimeMs e;
     scaled := scaled e; currentStride := currentStride e;
     budgetExceededReason := budgetExceededReason e; overlayElement := x;
     active := active e |}.
Definition setActive (x : bool) (e : Engine) : Engine :=
  {| canvas := canvas e; parentElement := parentElement e; host := host e;
     runtime := runtime e; setupFn := setupFn e; drawFn := drawFn e;
     animationFrameId := animationFrameId e; running := running e;
     internalFrameCount := internalFrameCount e; startTimeMs := startTimeMs e;
     scaled := scaled e; currentStride := currentStride e;
     budgetExceededReason := budgetExceededReason e;
     overlayElement := overlayElement e; active := x |}.

Record PreviewRenderResult := {
  success : bool;
  resultFramesRendered : Z;
  executionTimeMs : Q;
  terminatedEarly : bool;
  errorMessage : option string
}.

Record PreviewStats := {
  statsScale : Number;
  semanticWidth : Number;
  semanticHeight : Number;
  bufferWidth : Number;
  bufferHeight : Number;
  frames : Z;
  statsStride : Z;
  statsTotalTimeMs : Q;
  budgetExceeded : option BudgetExceedReason
}.

(** Parameters are bound left to right to the arguments; a parameter
    without an argument is [undefined]. *)
Fixpoint bindParams (names : list string) (args : list Value) : gmap string Value :=
  match names with
  | [] => ∅
  | n :: names' =>
      match args with
      | [] => <[n := VUndefined]> (bindParams names' [])
      | v :: args' =>
          let later := bindParams names' args' in
          match later !! n with
          | Some _ => later
          | None => <[n := v]> later
          end
      end
  end.

(** Resolution of a bare identifier in the body of the generated
    [Function]: hoisted declarations of the script override a
    parameter of the same name; anything else is the host's. *)
Definition scopeOf (ds : list Stmt) (ps : gmap string Value) : Scope :=
  fun name =>
    match declared ds name with
    | Some _ => Found (VScriptFn name)
    | None =>
        match ps !! name with
        | Some v => Found v
        | None => HostGlobal
        end
    end.

(** [fn()] for a registered function. *)
Definition invoke (ph : Phase) (cl : Closure) : M Engine unit :=
  fun e =>
    let o := body cl (scopeOf (decls cl) (params cl)) in
    match thrown o with
    | Some msg => (Threw msg, e, [Ran ph o])
    | None => (Returned tt, e, [Ran ph o])
    end.

Definition callIfSome (ph : Phase) (f : option Closure) : M Engine unit :=
  match f with
  | Some cl => invoke ph cl
  | None => ret tt
  end.

Definition previewScale (e : Engine) : Number :=
  match scaled e with
  | Some d => scaleFactor d
  | None => Fin 1
  end.

Section Engine.
Variable config : PreviewEngineConfig.

Definition configTotalFrames : Z :=
  match totalFrames config with Some n => n | None => 120%Z end.

Definition applyTop (ds : list Stmt) (ps : gmap string Value)
    (ef : TopEffect) : M Engine unit :=
  let close f := {| body := f; decls := ds; params := ps |} in
  match ef with
  | Register Setup f => modify (setSetupFn (Some (close f)))
  | Register Draw f => modify (setDrawFn (Some (close f)))
  | Register Top _ => ret tt
  | Invoke o => emit (Ran Top o)
  end.

Fixpoint applyAll (ds : list Stmt) (ps : gmap string Value)
    (es : list TopEffect) : M Engine unit :=
  match es with
  | [] => ret tt
  | ef :: rest => applyTop ds ps ef ;; applyAll ds ps rest
  end.

(** [compileSource(source)] followed by the call [fn()] of
    [initialize]: the names and the values are pushed in separate
    steps, as in the source. *)
Definition compileSource (rt : Object) : M Engine unit :=
  let globalVars := keys rt in
  let globalValues := values rt in
  let globalVars := globalVars ++ ["setup"; "draw"] in
  let globalValues := globalValues ++ [VRegisterSetup; VRegisterDraw] in
  let globalVars := globalVars ++ ["__registerSetup"; "__registerDraw"] in
  match source config with
  | None => throw "SyntaxError"
  | Some ds =>
      let ps := bindParams globalVars globalValues in
      globals <- gets (fun e => globalFunctions (host e)) ;;
      let '(es, t) := wrapped globals ds (scopeOf ds ps) in
      applyAll ds ps es ;;
      match t with
      | Some msg => throw msg
      | None => ret tt
      end
  end.

Definition initialize : M Engine unit :=
  let d := calculateScaledDimensions (Fin (width config)) (Fin (height config)) in
  modify (setScaled (Some d)) ;;
  modify (fun e => setCanvas (applyScaledDimensions (canvas e) d) e) ;;
  modify (fun e => setCanvas (reapplyContextScale (canvas e) d) e) ;;
  let rt :=
    createPreviewRuntime (originalWidth d) (originalHeight d)
      (match seed config with Some n => n | None => 12345%Z end)
      (match vars config with Some l => l | None => [] end) in
  let rt := set rt "totalFrames" (VNum (inject_Z configTotalFrames)) in
  modify (setRuntime (Some rt)) ;;
  tryCatch (compileSource rt) (fun msg => emit (Warn (CompileError msg))).

Definition getPreviewStats (now : Q) (e : Engine) : PreviewStats :=
  let elapsed := if Qlt_le_dec 0 (startTimeMs e) then now - startTimeMs e else 0 in
  {| statsScale := previewScale e;
     semanticWidth :=
       match scaled e with Some d => originalWidth d | None => Fin (width config) end;
     semanticHeight :=
       match scaled e with Some d => originalHeight d | None => Fin (height config) end;
     bufferWidth :=
       match scaled e with Some d => renderWidth d | None => Fin (width config) end;
     bufferHeight :=
       match scaled e with Some d => renderHeight d | None => Fin (height config) end;
     frames := internalFrameCount e;
     statsStride := currentStride e;
     statsTotalTimeMs := elapsed;
     budgetExceeded := budgetExceededReason e |}.

Definition isStop (b : option BudgetBehavior) : bool :=
  match b with Some stop => true | _ => false end.
Definition isDegrade (b : option BudgetBehavior) : bool :=
  match b with Some degrade => true | _ => false end.

Definition showBudgetOverlay (r : BudgetExceedReason) : M Engine unit :=
  attached <- gets overlayElement ;;
  if attached then ret tt
  else
    let show :=
      match showOverlay config with
      | Some b => b
      | None => isStop (budgetBehavior config)
      end in
    if negb show then ret tt
    else
      parent <- gets parentElement ;;
      when parent (emit (OverlayShown r) ;; modify (setOverlayElement true)).

Definition removeOverlay : M Engine unit :=
  attached <- gets overlayElement ;;
  parent <- gets parentElement ;;
  when (attached && parent) (emit OverlayRemoved ;; modify (setOverlayElement false)).

Definition stopLoop : M Engine unit :=
  modify (setRunning false) ;;
  a <- gets animationFrameId ;;
  match a with
  | Some id =>
      modify (fun e => setHost (cancelAnimationFrame id (host e)) e) ;;
      emit (CancelFrame id) ;;
      modify (setAnimationFrameId None)
  | None => ret tt
  end ;;
  modify (setActive false).

Definition handleBudgetExceeded (now : Q) (r : BudgetExceedReason) : M Engine unit :=
  already <- gets budgetExceededReason ;;
  match already with
  | Some _ => ret tt
  | None =>
      modify (setBudgetExceededReason (Some r)) ;;
      let behavior :=
        match budgetBehavior config with Some b => b | None => stop end in
      info <- gets (fun e =>
        {| reason := r;
           framesRendered := internalFrameCount e;
           totalTimeMs := now - startTimeMs e;
           stride := currentStride e;
           scale := previewScale e |}) ;;
      emit (Warn (BudgetExceeded r)) ;;
      when (onBudgetExceeded config) (emit (Notified info)) ;;
      match behavior with
      | stop => showBudgetOverlay r ;; stopLoop
      | degrade => modify (setCurrentStride DEGRADE_STRIDE)
      end
  end.

Definition configMaxFrames : Z :=
  match maxFrames config with Some n => n | None => MAX_FRAMES end.
Definition configMaxTimeMs : Q :=
  match maxTimeMs config with Some t => t | None => MAX_TOTAL_TIME_MS end.

Definition checkBudget (now : Q) : M Engine bool :=
  n <- gets internalFrameCount ;;
  start <- gets startTimeMs ;;
  let elapsed := now - start in
  if (configMaxFrames <=? n)%Z then
    handleBudgetExceeded now frame_limit ;; ret false
  else if Qle_bool configMaxTimeMs elapsed then
    handleBudgetExceeded now time_limit ;; ret false
  else ret true.

Definition renderStatic (startTime finish : Q) : M Engine PreviewRenderResult :=
  modify (setStartTimeMs startTime) ;;
  tryCatch
    (f <- gets setupFn ;;
     callIfSome Setup f ;;
     ret {| success := true; resultFramesRendered := 1;
            executionTimeMs := finish - startTime;
            terminatedEarly := false; errorMessage := None |})
    (fun msg =>
       emit (Warn (StaticRenderError msg)) ;;
       ret {| success := false; resultFramesRendered := 0;
              executionTimeMs := finish - startTime;
              terminatedEarly := true; errorMessage := Some msg |}).

Definition requestFrame : M Engine unit :=
  fun e =>
    let '(id, h) := requestAnimationFrame (host e) in
    (Returned tt, setAnimationFrameId (Some id) (setHost h e), [RequestFrame id]).

Definition updateTiming (e : Engine) : Engine :=
  match runtime e with
  | Some rt =>
      let rt := set rt "frameCount" (VNum (inject_Z (internalFrameCount e))) in
      let rt := set rt "t" (phase (internalFrameCount e) configTotalFrames) in
      let rt := set rt "time" (get rt "t") in
      let rt := set rt "tGlobal" (get rt "t") in
      setRuntime (Some rt) e
  | None => e
  end.

(** The callback that [scheduleNextFrame] hands to
    [requestAnimationFrame], after its first statement (the
    re-registration). *)
Definition afterScheduling (now : Q) : M Engine unit :=
  r <- gets running ;;
  if negb r then ret tt
  else
    modify (fun e => setInternalFrameCount (internalFrameCount e + 1)%Z e) ;;
    ok <- checkBudget now ;;
    if negb ok && negb (isDegrade (budgetBehavior config)) then ret tt
    else
      s <- gets currentStride ;;
      n <- gets internalFrameCount ;;
      if (1 <? s)%Z && negb (Z.rem n s =? 0)%Z then ret tt
      else
        tryCatch
          (modify updateTiming ;;
           f <- gets drawFn ;;
           callIfSome Draw f)
          (fun msg => emit (Warn (DrawError msg))).

(** [scheduleNextFrame] registers the callback [frame], whose first
    statement is [this.scheduleNextFrame()]. *)
Definition scheduleNextFrame : M Engine unit := requestFrame.

Definition frame (now : Q) : M Engine unit :=
  scheduleNextFrame ;; afterScheduling now.

Definition startLoop (now : Q) : M Engine unit :=
  r <- gets running ;;
  if r then ret tt
  else
    modify (setActive true) ;;
    modify (setRunning true) ;;
    modify (setStartTimeMs now) ;;
    modify (setInternalFrameCount 0%Z) ;;
    modify (setCurrentStride 1%Z) ;;
    modify (setBudgetExceededReason None) ;;
    removeOverlay ;;
    tryCatch
      (f <- gets setupFn ;; callIfSome Setup f)
      (fun msg => emit (Warn (SetupError msg))) ;;
    scheduleNextFrame.

Definition isRendering (e : Engine) : bool := running e.

Definition destroy : M Engine unit :=
  stopLoop ;;
  removeOverlay ;;
  modify (setRuntime None) ;;
  modify (setSetupFn None) ;;
  modify (setDrawFn None).

(** [new PreviewEngine(config)]: the field initialisers, then
    [initialize]. *)
Definition fresh (c : Canvas) (parent : bool) (h : Host) : Engine :=
  {| canvas := c; parentElement := parent; host := h; runtime := None;
     setupFn := None; drawFn := None; animationFrameId := None;
     running := false; internalFrameCount := 0%Z; startTimeMs := 0;
     scaled := None; currentStride := 1%Z; budgetExceededReason := None;
     overlayElement := false; active := false |}.

Definition create (c : Canvas) (parent : bool) (h : Host) : Engine :=
  state (initialize (fresh c parent h)).

End Engine.

End PreviewEngine.

(** ** Traces: counting events, running several ticks, sequences of calls *)

Module Traces.
Import PreviewTypes CanvasScaler PreviewRuntime Script TopLevel Effects.

Definition isRequest (e : Event) : bool :=
  match e with RequestFrame _ => true | _ => false end.

Definition isRan (ph : Phase) (e : Event) : bool :=
  match e, ph with
  | Ran Setup _, Setup => true
  | Ran Draw _, Draw => true
  | Ran Top _, Top => true
  | _, _ => false
  end.

Definition isClear (e : Event) : bool :=
  match e with Painted (ClearRect _ _ _ _ _) => true | _ => false end.

(** Whether a function was registered. *)
Definition registered {A} (f : option A) : bool :=
  match f with Some _ => true | None => false end.

(** Number of [requestAnimationFrame] registrations in a trace. *)
Definition scheduled (es : list Event) : nat := length (List.filter isRequest es).

(** Number of calls of [drawFn] (of [setupFn]) in a trace. *)
Definition draws (es : list Event) : nat := length (List.filter (isRan Draw) es).
Definition setups (es : list Event) : nat := length (List.filter (isRan Setup) es).
Definition clears (es : list Event) : nat := length (List.filter isClear es).

(** The reasons handed to [onBudgetExceeded], in order. *)
Fixpoint notifications (es : list Event) : list BudgetExceedReason :=
  match es with
  | [] => []
  | Notified info :: rest => reason info :: notifications rest
  | _ :: rest => notifications rest
  end.

(** What the scripts painted, in order, over a trace. *)
Fixpoint paintedBy (ph : Phase) (es : list Event) : list Value :=
  match es with
  | [] => []
  | Ran ph' o :: rest =>
      (if isRan ph (Ran ph' o) then painted o else []) ++ paintedBy ph rest
  | _ :: rest => paintedBy ph rest
  end.

Definition matrixEqb (m n : Matrix) : bool :=
  Qeq_bool (ma m) (ma n) && Qeq_bool (mb m) (mb n) && Qeq_bool (mc m) (mc n) &&
  Qeq_bool (md m) (md n) && Qeq_bool (me m) (me n) && Qeq_bool (mf m) (mf n).

(** A [clearRect] of the whole [w] x [h] buffer under the identity
    transform. *)
Definition isFullClear (w h : Q) (e : Event) : bool :=
  match e with
  | Painted (ClearRect m x y cw ch) =>
      matrixEqb m identity && Qeq_bool x 0 && Qeq_bool y 0 &&
      Qeq_bool cw w && Qeq_bool ch h
  | _ => false
  end.

(** Every call of [drawFn] in the trace comes right after a full
    clear; [prev] is the event before the trace. *)
Fixpoint drawsFollowClear (w h : Q) (prev : option Event) (es : list Event) : bool :=
  match es with
  | [] => true
  | e :: rest =>
      (if isRan Draw e
       then match prev with Some p => isFullClear w h p | None => false end
       else true)
      && drawsFollowClear w h (Some e) rest
  end.

(** *** The code-mode renderer driven by the host *)

Section Code.
Import CodeRenderer.
Variable system : NexArtCodeSystem.
Variable options : PreviewOptions.

(** [n] consecutive invocations of one [loop] closure. *)
Fixpoint loops (n : nat) (frameCount : Z) (s : State) : State * Z * list Event :=
  match n with
  | O => (s, frameCount, [])
  | S n' =>
      let r := loop system options frameCount s in
      let frameCount' :=
        match completion r with Returned fc => fc | Threw _ => frameCount end in
      let '(s', fc, es) := loops n' frameCount' (state r) in
      (s', fc, events r ++ es)
  end.

(** Calls on the returned handle, and ticks of the current loop. *)
Inductive Op := OpRender | OpStart | OpStop | OpDestroy | OpTick.

Definition started (r : Completion bool * State * list Event) (frameCount : Z) : Z :=
  match completion r with Returned true => 0%Z | _ => frameCount end.

Definition perform (op : Op) (sf : State * Z) : State * Z * list Event :=
  let '(s, frameCount) := sf in
  match op with
  | OpRender => let r := render system options s in
                (state r, started r frameCount, events r)
  | OpStart => let r := start system options s in
               (state r, started r frameCount, events r)
  | OpStop => let r := stop s in (state r, frameCount, events r)
  | OpDestroy => let r := destroy s in (state r, frameCount, events r)
  | OpTick => loops 1 frameCount s
  end.

Fixpoint performAll (ops : list Op) (sf : State * Z) : State * Z * list Event :=
  match ops with
  | [] => (sf, [])
  | op :: rest =>
      let '(sf', es) := perform op sf in
      let '(sf'', es') := performAll rest sf' in
      (sf'', es ++ es')
  end.
End Code.

(** *** The preview engine driven by the host *)

Section Engine.
Import PreviewEngine.
Variable config : PreviewEngineConfig.

(** Consecutive invocations of the frame callback, one per clock
    reading. *)
Fixpoint ticks (nows : list Q) (e : Engine) : Engine * list Event :=
  match nows with
  | [] => (e, [])
  | now :: rest =>
      let r := frame config now e in
      let '(e', es) := ticks rest (state r) in
      (e', events r ++ es)
  end.

(** A loop session: [startLoop] at [t0], then the ticks. *)
Definition session (t0 : Q) (nows : list Q) (e : Engine) : Engine * list Event :=
  let r := startLoop t0 e in
  let '(e', es) := ticks nows (state r) in
  (e', events r ++ es).

(** Whether the tick after [n] rendered frames, at clock [now] of a
    session started at [t0], crosses a ceiling: the frame ceiling
    is looked at first. *)
Definition crossing (t0 : Q) (n : Z) (now : Q) : option BudgetExceedReason :=
  if (configMaxFrames config <=? n + 1)%Z then Some frame_limit
  else if Qle_bool (configMaxTimeMs config) (now - t0) then Some time_limit
  else None.

(** The first crossing over the ticks at clocks [nows]. *)
Fixpoint firstCrossing (t0 : Q) (n : Z) (nows : list Q) : option BudgetExceedReason :=
  match nows with
  | [] => None
  | now :: rest =>
      match crossing t0 n now with
      | Some r => Some r
      | None => firstCrossing t0 (n + 1) rest
      end
  end.

Inductive Call :=
| CallRenderStatic (start finish : Q)
| CallStartLoop (now : Q)
| CallStopLoop
| CallDestroy
| CallFrame (now : Q).

Definition call (c : Call) (e : Engine) : Engine * list Event :=
  match c with
  | CallRenderStatic t1 t2 => let r := renderStatic t1 t2 e in (state r, events r)
  | CallStartLoop now => let r := startLoop now e in (state r, events r)
  | CallStopLoop => let r := stopLoop e in (state r, events r)
  | CallDestroy => let r := destroy e in (state r, events r)
  | CallFrame now => let r := frame config now e in (state r, events r)
  end.

Fixpoint calls (cs : list Call) (e : Engine) : Engine * list Event :=
  match cs with
  | [] => (e, [])
  | c :: rest =>
      let '(e', es) := call c e in
      let '(e'', es') := calls rest e' in
      (e'', es ++ es')
  end.
End Engine.

End Traces.

(** ** Sample scripts, pages and configurations *)

Module Samples.
Import PreviewTypes CanvasScaler PreviewRuntime Script TopLevel Effects.

(** A canvas element as the page creates it. *)
Definition blankCanvas : Canvas :=
  {| width := 300; height := 150; styleWidth := None; styleHeight := None;
     transform := identity; saved := [] |}.

Definition page : Host :=
  {| nextFrameId := 1; pendingFrames := []; globalFunctions := ∅ |}.

(** A function body that paints with the value of one identifier:
    [circle(name, 0, 10)]. *)
Definition paints (name : string) : Fn :=
  fun scope =>
    {| painted := match scope name with Found v => [v] | HostGlobal => [] end;
       thrown := None |}.

(** A function body that throws before painting. *)
Definition throws (msg : string) : Fn :=
  fun _ => {| painted := []; thrown := Some msg |}.

(** A function body that throws on odd frames only. *)
Definition throwsOnOddFrames : Fn :=
  fun scope =>
    match scope "frameCount" with
    | Found (VNum q) =>
        if Z.even (Qfloor q)
        then {| painted := [VNum q]; thrown := None |}
        else {| painted := []; thrown := Some "odd frame" |}
    | _ => {| painted := []; thrown := None |}
    end.

(** [function setup() { rect(width, ...) } function draw() { circle(frameCount, ...) }] *)
Definition conventional : Source :=
  Some [SFunction "setup" (paints "width"); SFunction "draw" (paints "frameCount")].

(** [draw(function () { circle(frameCount, ...) })]: the script calls
    whatever the identifier [draw] is bound to. *)
Definition callsDraw (f : Fn) : Source := Some [SCall "draw" f].

Definition codeSystem (src : Source) (m : PreviewMode) : CodeRenderer.NexArtCodeSystem :=
  {| CodeRenderer.source := src; CodeRenderer.mode := m;
     CodeRenderer.width := 1950; CodeRenderer.height := 2400;
     CodeRenderer.seed := None; CodeRenderer.vars := None;
     CodeRenderer.totalFrames := None |}.

Definition codeOptions : CodeRenderer.PreviewOptions :=
  {| CodeRenderer.showBadge := true; CodeRenderer.onPreview := false;
     CodeRenderer.onError := false |}.

Definition engineConfig (src : Source) (b : option BudgetBehavior) (limit : option Z)
  : PreviewEngine.PreviewEngineConfig :=
  {| PreviewEngine.source := src; PreviewEngine.mode := ModeLoop;
     PreviewEngine.width := 1950; PreviewEngine.height := 2400;
     PreviewEngine.seed := None; PreviewEngine.vars := None;
     PreviewEngine.totalFrames := None;
     PreviewEngine.onBudgetExceeded := true;
     PreviewEngine.budgetBehavior := b;
     PreviewEngine.showOverlay := None;
     PreviewEngine.maxFrames := limit;
     PreviewEngine.maxTimeMs := None |}.

(** Clock readings 16 ms apart, starting after [t]. *)
Fixpoint clock (n : nat) (t : Q) : list Q :=
  match n with
  | O => []
  | S n' => (t + 16) :: clock n' (t + 16)
  end.

Fixpoint countingFrom (n : nat) (k : Z) : list Value :=
  match n with
  | O => []
  | S n' => VNum (inject_Z k) :: countingFrom n' (k + 1)
  end.

End Samples.

(** * Properties *)

(** ** Laws of the effect combinators *)

Module EffectFacts.
Import Effects.
Local Open Scope effects_scope.

Section Laws.
Context {S : Type}.

(** Every event [m] leaves satisfies [P]. *)
Definition emits {A} (P : Event -> Prop) (m : M S A) : Prop :=
  forall s, Forall P (events (m s)).

(** [m] keeps the state property [I]. *)
Definition keeps {A} (I : S -> Prop) (m : M S A) : Prop :=
  forall s, I s -> I (state (m s)).

(** [m] returns: no exception leaves it. *)
Definition total {A} (m : M S A) : Prop :=
  forall s, exists a, completion (m s) = Returned a.

Variable P : Event -> Prop.
Variable I : S -> Prop.

Lemma emits_ret {A} (a : A) : emits P (ret a : M S A).
Proof. intros s. constructor. Qed.

Lemma emits_throw {A} msg : emits P (throw msg : M S A).
Proof. intros s. constructor. Qed.

Lemma emits_gets {A} (f : S -> A) : emits P (gets f).
Proof. intros s. constructor. Qed.

Lemma emits_modify (f : S -> S) : emits P (modify f).
Proof. intros s. constructor. Qed.

Lemma emits_emit e : P e -> emits P (emit e : M S unit).
Proof. intros H s. cbn. constructor; [exact H | constructor]. Qed.

Lemma emits_bind {A B} (m : M S A) (f : A -> M S B) :
  emits P m -> (forall a, emits P (f a)) -> emits P (bind m f).
Proof.
  intros Hm Hf s. specialize (Hm s). unfold events, bind in *.
  destruct (m s) as [[[a|msg] s1] e1]; cbn in *; [|exact Hm].
  specialize (Hf a s1). unfold events in Hf.
  destruct (f a s1) as [[r s2] e2]; cbn in *.
  apply Forall_app; split; assumption.
Qed.

Lemma emits_tryCatch {A} (m : M S A) (h : string -> M S A) :
  emits P m -> (forall msg, emits P (h msg)) -> emits P (tryCatch m h).
Proof.
  intros Hm Hh s. specialize (Hm s). unfold events, tryCatch in *.
  destruct (m s) as [[[a|msg] s1] e1]; cbn in *; [exact Hm|].
  specialize (Hh msg s1). unfold events in Hh.
  destruct (h msg s1) as [[r s2] e2]; cbn in *.
  apply Forall_app; split; assumption.
Qed.

Lemma emits_when b (m : M S unit) : emits P m -> emits P (when b m).
Proof. destruct b; [auto | intros _; apply emits_ret]. Qed.

Lemma keeps_ret {A} (a : A) : keeps I (ret a : M S A).
Proof. intros s H. exact H. Qed.

Lemma keeps_throw {A} msg : keeps I (throw msg : M S A).
Proof. intros s H. exact H. Qed.

Lemma keeps_gets {A} (f : S -> A) : keeps I (gets f).
Proof. intros s H. exact H. Qed.

Lemma keeps_emit e : keeps I (emit e : M S unit).
Proof. intros s H. exact H. Qed.

Lemma keeps_modify (f : S -> S) : (forall s, I s -> I (f s)) -> keeps I (modify f).
Proof. intros Hf s H. apply Hf, H. Qed.

Lemma keeps_bind {A B} (m : M S A) (f : A -> M S B) :
  keeps I m -> (forall a, keeps I (f a)) -> keeps I (bind m f).
Proof.
  intros Hm Hf s Hs. specialize (Hm s Hs). unfold state, bind in *.
  destruct (m s) as [[[a|msg] s1] e1]; cbn in *; [|exact Hm].
  specialize (Hf a s1 Hm). unfold state in Hf.
  destruct (f a s1) as [[r s2] e2]; cbn in *. exact Hf.
Qed.

Lemma keeps_tryCatch {A} (m : M S A) (h : string -> M S A) :
  keeps I m -> (forall msg, keeps I (h msg)) -> keeps I (tryCatch m h).
Proof.
  intros Hm Hh s Hs. specialize (Hm s Hs). unfold state, tryCatch in *.
  destruct (m s) as [[[a|msg] s1] e1]; cbn in *; [exact Hm|].
  specialize (Hh msg s1 Hm). unfold state in Hh.
  destruct (h msg s1) as [[r s2] e2]; cbn in *. exact Hh.
Qed.

Lemma keeps_when b (m : M S unit) : keeps I m -> keeps I (when b m).
Proof. destruct b; [auto | intros _; apply keeps_ret]. Qed.

Lemma total_ret {A} (a : A) : total (ret a : M S A).
Proof. intros s. now exists a. Qed.

Lemma total_gets {A} (f : S -> A) : total (gets f).
Proof. intros s. now exists (f s). Qed.

Lemma total_modify (f : S -> S) : total (modify f).
Proof. intros s. now exists tt. Qed.

Lemma total_emit e : total (emit e : M S unit).
Proof. intros s. now exists tt. Qed.

Lemma total_bind {A B} (m : M S A) (f : A -> M S B) :
  total m -> (forall a, total (f a)) -> total (bind m f).
Proof.
  intros Hm Hf s. destruct (Hm s) as [a Ha]. unfold completion, bind in *.
  destruct (m s) as [[c s1] e1]; cbn in *. subst c.
  destruct (Hf a s1) as [b Hb]. unfold completion in Hb.
  destruct (f a s1) as [[r s2] e2]; cbn in *. now exists b.
Qed.

Lemma total_tryCatch {A} (m : M S A) (h : string -> M S A) :
  (forall msg, total (h msg)) -> total (tryCatch m h).
Proof.
  intros Hh s. unfold completion, tryCatch.
  destruct (m s) as [[[a|msg] s1] e1]; cbn; [now exists a|].
  destruct (Hh msg s1) as [b Hb]. unfold completion in Hb.
  destruct (h msg s1) as [[r s2] e2]; cbn in *. now exists b.
Qed.

Lemma total_when b (m : M S unit) : total m -> total (when b m).
Proof. destruct b; [auto | intros _; apply total_ret]. Qed.
End Laws.

Ltac emits_step :=
  first
    [ apply emits_ret | apply emits_throw | apply emits_gets | apply emits_modify
    | apply emits_emit; reflexivity
    | apply emits_when
    | apply emits_bind; [|intros]
    | apply emits_tryCatch; [|intros] ].

Ltac emits_auto :=
  repeat
    (emits_step ||
     match goal with
     | |- emits _ (match ?x with _ => _ end) => destruct x
     | |- emits _ (let '(_, _) := ?x in _) => destruct x
     | |- emits _ _ => progress cbv zeta
     end).

(** Decomposes a [keeps] goal along the combinators; [known] is
    tried first, for the operations that have a lemma of their own. *)
Ltac keeps_using known :=
  repeat
    (first
       [ known
       | lazymatch goal with
         | |- keeps _ (ret _) => apply keeps_ret
         | |- keeps _ (throw _) => apply keeps_throw
         | |- keeps _ (gets _) => apply keeps_gets
         | |- keeps _ (emit _) => apply keeps_emit
         | |- keeps _ (when _ _) => apply keeps_when
         | |- keeps _ (bind _ _) => apply keeps_bind; [|intros]
         | |- keeps _ (tryCatch _ _) => apply keeps_tryCatch; [|intros]
         | |- keeps _ (modify _) => apply keeps_modify
         | |- keeps _ (match ?x with _ => _ end) => destruct x
         | |- keeps _ _ => progress cbv zeta
         end ]).

Ltac total_step :=
  first
    [ apply total_ret | apply total_gets | apply total_modify | apply total_emit
    | apply total_when
    | apply total_bind; [|intros]
    | apply total_tryCatch; intros ].

Ltac total_auto :=
  repeat
    (total_step ||
     match goal with
     | |- total (match ?x with _ => _ end) => destruct x
     | |- total (let '(_, _) := ?x in _) => destruct x
     | |- total _ => progress cbv zeta
     end).

Lemma count_none (f : Event -> bool) es :
  Forall (fun e => f e = false) es -> length (List.filter f es) = 0%nat.
Proof.
  induction 1 as [|e es He _ IH]; [reflexivity|]. cbn. rewrite He. exact IH.
Qed.

Lemma count_app (f : Event -> bool) es es' :
  length (List.filter f (es ++ es')) =
  (length (List.filter f es) + length (List.filter f es'))%nat.
Proof. now rewrite List.filter_app, length_app. Qed.

Lemma total_run {S A} (m : M S A) s :
  total m -> exists a, m s = (Returned a, state (m s), events (m s)).
Proof.
  intros H. destruct (H s) as [a Ha]. exists a.
  unfold completion, state, events in *.
  destruct (m s) as [[c s1] e1]; cbn in *. now subst c.
Qed.

Lemma bind_run {S A B} (m : M S A) (f : A -> M S B) s a s1 e1 :
  m s = (Returned a, s1, e1) ->
  bind m f s = (completion (f a s1), state (f a s1), e1 ++ events (f a s1)).
Proof.
  intros E. unfold bind, completion, state, events. rewrite E.
  destruct (f a s1) as [[r s2] e2]. reflexivity.
Qed.

Lemma run_bind_gets {S A B} (f : S -> A) (k : A -> M S B) s :
  bind (gets f) k s = k (f s) s.
Proof. unfold bind, gets. destruct (k (f s) s) as [[r s2] e2]. reflexivity. Qed.

Lemma run_bind_modify {S B} (g : S -> S) (k : unit -> M S B) s :
  bind (modify g) k s = k tt (g s).
Proof. unfold bind, modify. destruct (k tt (g s)) as [[r s2] e2]. reflexivity. Qed.

End EffectFacts.

(** ** Rounding to binary64 *)

Module Float64Facts.
Import Float64.

Lemma pow2_pos e : 0 < pow2 e.
Proof. unfold pow2. apply Qpower_0_lt. reflexivity. Qed.

Lemma pow2_add a b : pow2 (a + b) == pow2 a * pow2 b.
Proof. unfold pow2. apply Qpower_plus. discriminate. Qed.

Lemma pow2_Z n : (0 <= n)%Z -> pow2 n == inject_Z (2 ^ n).
Proof. intros H. unfold pow2. now rewrite Zpower_Qpower. Qed.

Lemma pow2_sub a b : pow2 (a - b) == pow2 a / pow2 b.
Proof.
  unfold Z.sub. rewrite pow2_add. unfold Qdiv, pow2.
  now rewrite Qpower_opp.
Qed.

Lemma ilog2_lower q : 0 < q -> pow2 (ilog2 q) <= q.
Proof.
  intros P. unfold ilog2.
  set (n := Qnum q). set (d := Zpos (Qden q)).
  destruct (Qle_bool (pow2 (Z.log2 n - Z.log2 d)) q) eqn:E.
  - now apply Qle_bool_iff.
  - assert (0 < n)%Z as Hn by (subst n; destruct q as [[| |] ?]; cbn in *; try lia;
                               unfold Qlt in P; cbn in P; lia).
    assert (0 < d)%Z as Hd by (subst d; lia).
    destruct (Z.log2_spec n Hn) as [L1 _].
    destruct (Z.log2_spec d Hd) as [_ U2].
    pose proof (Z.log2_nonneg n). pose proof (Z.log2_nonneg d).
    replace (Z.log2 n - Z.log2 d - 1)%Z with (Z.log2 n - Z.succ (Z.log2 d))%Z by lia.
    rewrite pow2_sub, !pow2_Z by lia.
    apply Qle_shift_div_r.
    + change 0 with (inject_Z 0). rewrite <- Zlt_Qlt. lia.
    + assert (q == inject_Z n / inject_Z d) as -> by (subst n d; apply Qmake_Qdiv).
      unfold Qdiv. rewrite <- Qmult_assoc.
      assert (inject_Z (2 ^ Z.log2 n) <= inject_Z n) as A by now rewrite <- Zle_Qle.
      assert (inject_Z d <= inject_Z (2 ^ Z.succ (Z.log2 d))) as B
        by (rewrite <- Zle_Qle; lia).
      assert (0 < inject_Z d) as Pd
        by (change 0 with (inject_Z 0); now rewrite <- Zlt_Qlt).
      assert (1 <= / inject_Z d * inject_Z (2 ^ Z.succ (Z.log2 d))) as C.
      { rewrite Qmult_comm. apply Qle_shift_div_l; [exact Pd|]. now rewrite Qmult_1_l. }
      assert (0 < inject_Z n) as Nn
        by (change 0 with (inject_Z 0); rewrite <- Zlt_Qlt; lia).
      eapply Qle_trans; [exact A|].
      rewrite <- (Qmult_1_r (inject_Z n)) at 1.
      now apply Qmult_le_l.
Qed.

Lemma rne_near t : Qabs (inject_Z (rne t) - t) <= 1 # 2.
Proof.
  unfold rne. pose proof (Qfloor_le t) as L. pose proof (Qlt_floor t) as U.
  rewrite inject_Z_plus in U. change (inject_Z 1) with 1 in U.
  set (f := Qfloor t) in *. apply Qabs_Qle_condition.
  destruct (Qcompare (t - inject_Z f) (1 # 2)) eqn:C.
  - apply Qeq_alt in C. destruct (Z.even f); rewrite ?inject_Z_plus;
      change (inject_Z 1) with 1; split; lra.
  - apply Qlt_alt in C. split; lra.
  - apply Qgt_alt in C. rewrite inject_Z_plus. change (inject_Z 1) with 1. split; lra.
Qed.

Lemma rne_nonneg t : 0 <= t -> (0 <= rne t)%Z.
Proof.
  intros H. unfold rne.
  assert (0 <= Qfloor t)%Z as F by (change 0%Z with (Qfloor 0); now apply Qfloor_resp_le).
  destruct (Qcompare _ _); [destruct (Z.even _)| |]; lia.
Qed.

Definition eps : Q := pow2 (-53).
Definition tiny : Q := pow2 (-1075).

Lemma roundPos_nonneg a : 0 <= a -> 0 <= roundPos a.
Proof.
  intros H. unfold roundPos. apply Qmult_le_0_compat.
  - change 0 with (inject_Z 0). rewrite <- Zle_Qle. apply rne_nonneg.
    apply Qle_shift_div_l; [apply pow2_pos|]. now rewrite Qmult_0_l.
  - apply Qlt_le_weak, pow2_pos.
Qed.

Lemma roundPos_near a : 0 < a -> Qabs (roundPos a - a) <= a * eps + tiny.
Proof.
  intros P. unfold roundPos.
  set (e := Z.max (ilog2 a) (-1022)). set (ulp := pow2 (e - 52)).
  assert (0 < ulp) as Pu by apply pow2_pos.
  assert (Qabs (inject_Z (rne (a / ulp)) * ulp - a) <= (1 # 2) * ulp) as E.
  { assert (inject_Z (rne (a / ulp)) * ulp - a ==
            (inject_Z (rne (a / ulp)) - a / ulp) * ulp) as ->
      by (field; intro Z; rewrite Z in Pu; exact (Qlt_irrefl 0 Pu)).
    rewrite Qabs_Qmult, (Qabs_pos ulp) by now apply Qlt_le_weak.
    apply Qmult_le_compat_r; [apply rne_near | now apply Qlt_le_weak]. }
  eapply Qle_trans; [exact E|].
  assert ((1 # 2) * ulp == pow2 (e - 53)) as ->.
  { subst ulp. replace (e - 52)%Z with ((e - 53) + 1)%Z by lia.
    rewrite pow2_add. change (pow2 1) with 2. field. }
  pose proof (pow2_pos (-1075)) as Pt. fold tiny in Pt.
  assert (0 <= a * eps) as Pe
    by (apply Qmult_le_0_compat; [now apply Qlt_le_weak | apply Qlt_le_weak, pow2_pos]).
  destruct (Z.max_spec (ilog2 a) (-1022)) as [[_ M]|[_ M]]; fold e in M; rewrite M.
  - change (pow2 (-1022 - 53)) with tiny. lra.
  - replace (ilog2 a - 53)%Z with (ilog2 a + -53)%Z by lia.
    rewrite pow2_add. fold eps.
    pose proof (ilog2_lower a P) as L.
    assert (pow2 (ilog2 a) * eps <= a * eps) as X
      by (apply Qmult_le_compat_r; [exact L | apply Qlt_le_weak, pow2_pos]).
    lra.
Qed.

End Float64Facts.

(** Agreement of [fl], [mul] and [div] with the binary64 arithmetic of
    the proof assistant on the values used below. *)
Module Binary64Check.
Import Float64.

Definition ofSpec (x : SpecFloat.spec_float) : Number :=
  match x with
  | SpecFloat.S754_zero _ => Fin 0
  | SpecFloat.S754_infinity s => Inf s
  | SpecFloat.S754_nan => NaN
  | SpecFloat.S754_finite s m e =>
      Fin ((if s then -1 else 1) * inject_Z (Zpos m) * pow2 e)
  end.

Definition ofFloat (x : PrimFloat.float) : Number := ofSpec (FloatOps.Prim2SF x).

Definition float (n : Z) : PrimFloat.float := PrimFloat.of_uint63 (Uint63.of_Z n).

Definition same (a b : Number) : bool :=
  match a, b with
  | NaN, NaN => true
  | _, _ => strictEq a b
  end.

Definition agree (w m : Z) : bool :=
  same (ofFloat (PrimFloat.div (float 900) (float m))) (div (Fin 900) (Fin (inject_Z m)))
  && same (ofFloat (PrimFloat.mul (float w) (PrimFloat.div (float 900) (float m))))
          (mul (Fin (inject_Z w)) (div (Fin 900) (Fin (inject_Z m)))).

Example agree_157_1256 : agree 157 1256 = true.
Proof. vm_compute. reflexivity. Qed.

Example agree_1950_2400 : agree 1950 2400 = true.
Proof. vm_compute. reflexivity. Qed.

Example agree_4096_4095 : agree 4095 4096 = true.
Proof. vm_compute. reflexivity. Qed.

Example agree_quotients :
  same (ofFloat (PrimFloat.div (float 731) (float 1950))) (div (Fin 731) (Fin 1950)) = true /\
  same (ofFloat (PrimFloat.div (float 1) (float 3))) (div (Fin 1) (Fin 3)) = true /\
  same (ofFloat (PrimFloat.div (float 0) (float 0))) (div (Fin 0) (Fin 0)) = true /\
  same (ofFloat (PrimFloat.div (float 7) (float 0))) (div (Fin 7) (Fin 0)) = true.
Proof. vm_compute. repeat split. Qed.

(** 157 x 1256: the product falls just short of 112.5 and rounds to
    112. *)
Example rounds_down_157_1256 :
  Math_round (mul (Fin 157) (div (Fin 900) (Fin 1256))) = Fin 112.
Proof. vm_compute. reflexivity. Qed.

End Binary64Check.

(** ** The resolution scaler *)

Module ScalerFacts.
Import PreviewTypes Float64 Float64Facts CanvasScaler.

Lemma Qabs_of_positive q : 0 < q -> Qabs q = q.
Proof.
  destruct q as [n d]. unfold Qlt, Qabs. cbn. intros H.
  rewrite Z.abs_eq by lia. reflexivity.
Qed.

Lemma fl_positive q :
  0 < q -> roundPos q < pow2 1024 -> fl q = Fin (roundPos q).
Proof.
  intros P B. unfold fl.
  assert (Qeq_bool q 0 = false) as ->.
  { apply not_true_is_false. intros E. apply Qeq_bool_iff in E.
    rewrite E in P. exact (Qlt_irrefl 0 P). }
  rewrite (Qabs_of_positive q P).
  assert (Qle_bool (pow2 1024) (roundPos q) = false) as ->.
  { apply not_true_is_false. intros E. apply Qle_bool_iff in E.
    apply Qle_not_lt in E. contradiction. }
  assert (Qle_bool 0 q = true) as -> by (apply Qle_bool_iff; now apply Qlt_le_weak).
  reflexivity.
Qed.

(** A product that is not positive rounds to a number that is not
    positive. *)
Lemma fl_nonpositive q :
  q <= 0 -> leb (Math_round (fl q)) (Fin MAX_DIMENSION) = true.
Proof.
  intros N. unfold fl.
  destruct (Qeq_bool q 0) eqn:Z; [reflexivity|].
  assert (Qle_bool 0 q = false) as ->.
  { apply not_true_is_false. intros E. apply Qle_bool_iff in E.
    assert (q == 0) as X by (apply Qle_antisym; assumption).
    apply Qeq_bool_iff in X. congruence. }
  destruct (Qle_bool (pow2 1024) (roundPos (Qabs q))); [reflexivity|].
  cbn [Math_round leb negb]. apply Qle_bool_iff.
  pose proof (roundPos_nonneg (Qabs q) (Qabs_nonneg q)) as R.
  eapply Qle_trans; [|instantiate (1 := inject_Z 0); discriminate].
  rewrite <- Zle_Qle. change 0%Z with (Qfloor (1 # 2)).
  apply Qfloor_resp_le. lra.
Qed.

Lemma eps_value : eps == 1 # 9007199254740992.
Proof. reflexivity. Qed.

Lemma tiny_small : tiny <= 1 # 9007199254740992.
Proof. vm_compute. discriminate. Qed.

Lemma range_times_tiny m : m < pow2 1024 -> m * tiny <= 1 # 2251799813685248.
Proof.
  intros H.
  assert (pow2 1024 * tiny == 1 # 2251799813685248) as E by (vm_compute; reflexivity).
  rewrite <- E. apply Qmult_le_compat_r; [now apply Qlt_le_weak|].
  apply Qlt_le_weak, pow2_pos.
Qed.

(** The factor stored for a longer side [m] above the cap. *)
Lemma factor_near m :
  MAX_DIMENSION < m -> m < pow2 1024 ->
  exists s, div (Fin MAX_DIMENSION) (Fin m) = Fin s /\ 0 <= s /\
            m * s <= MAX_DIMENSION + (1 # 1000000).
Proof.
  intros L U. unfold MAX_DIMENSION in *.
  assert (0 < m) as P by lra.
  assert (~ m == 0) as NZ by (intro E; rewrite E in P; exact (Qlt_irrefl 0 P)).
  assert (0 < 900 / m) as Py by (apply Qlt_shift_div_l; [exact P | lra]).
  assert (900 / m < 1) as Y1 by (apply Qlt_shift_div_r; [exact P | lra]).
  pose proof (roundPos_near (900 / m) Py) as E.
  apply Qabs_Qle_condition in E as [_ E].
  pose proof (roundPos_nonneg (900 / m) (Qlt_le_weak _ _ Py)) as R0.
  pose proof eps_value as Ev. pose proof tiny_small as Tv.
  exists (roundPos (900 / m)). split; [|split; [exact R0|]].
  - unfold div.
    assert (Qeq_bool m 0 = false) as ->.
    { apply not_true_is_false. intros X. apply Qeq_bool_iff in X. contradiction. }
    apply fl_positive; [exact Py|].
    assert (2 <= pow2 1024) as B by (vm_compute; discriminate).
    assert (900 / m * eps <= eps) as M.
    { rewrite <- (Qmult_1_l eps) at 2. apply Qmult_le_compat_r; [lra|].
      apply Qlt_le_weak, pow2_pos. }
    lra.
  - assert (m * roundPos (900 / m) <= m * (900 / m + 900 / m * eps + tiny)) as M
      by (apply Qmult_le_l; [exact P | lra]).
    assert (m * (900 / m + 900 / m * eps + tiny) == 900 + 900 * eps + m * tiny) as X
      by (field; exact NZ).
    pose proof (range_times_tiny m U) as T.
    rewrite X in M. lra.
Qed.

(** A side not above the longer one is cut down to the cap at most. *)
Lemma side_within_cap x m s :
  x <= m -> 0 <= s -> m * s <= MAX_DIMENSION + (1 # 1000000) ->
  leb (Math_round (mul (Fin x) (Fin s))) (Fin MAX_DIMENSION) = true.
Proof.
  intros X S B. cbn [mul].
  destruct (Qlt_le_dec 0 (x * s)) as [P|N]; [|now apply fl_nonpositive].
  assert (x * s <= MAX_DIMENSION + (1 # 1000000)) as Y.
  { eapply Qle_trans; [|exact B]. apply Qmult_le_compat_r; assumption. }
  unfold MAX_DIMENSION in *.
  pose proof (roundPos_near (x * s) P) as E.
  apply Qabs_Qle_condition in E as [_ E].
  pose proof eps_value as Ev. pose proof tiny_small as Tv.
  assert (x * s * eps <= (900 + (1 # 1000000)) * eps) as M
    by (apply Qmult_le_compat_r; [exact Y | apply Qlt_le_weak, pow2_pos]).
  assert (roundPos (x * s) <= 900 + (1 # 100000)) as R.
  { rewrite Ev in *. lra. }
  assert (2000 <= pow2 1024) as Bg by (vm_compute; discriminate).
  rewrite fl_positive by (try exact P; lra).
  cbn [Math_round leb]. apply Qle_bool_iff.
  change 900 with (inject_Z 900). rewrite <- Zle_Qle.
  change 900%Z with (Qfloor (900 + (1 # 100000) + (1 # 2))).
  apply Qfloor_resp_le. lra.
Qed.


Lemma original_dimensions w h :
  originalWidth (calculateScaledDimensions w h) = w /\
  originalHeight (calculateScaledDimensions w h) = h.
Proof.
  unfold calculateScaledDimensions.
  destruct (leb (Math_max w h) (Fin MAX_DIMENSION)); split; reflexivity.
Qed.

Lemma wasScaled_iff w h :
  wasScaled (calculateScaledDimensions w h) = true <->
  leb (Math_max w h) (Fin MAX_DIMENSION) = false.
Proof.
  unfold calculateScaledDimensions.
  destruct (leb (Math_max w h) (Fin MAX_DIMENSION)); cbn [wasScaled];
    split; congruence.
Qed.

Lemma in_range q : isNumber (Fin q) = true -> Qabs q < pow2 1024.
Proof.
  cbn [isNumber]. intros H. apply negb_true_iff in H.
  apply Qnot_le_lt. intros L. apply Qle_bool_iff in L. congruence.
Qed.

Lemma max_finite x y :
  exists m, Math_max (Fin x) (Fin y) = Fin m /\ x <= m /\ y <= m /\ (m = x \/ m = y).
Proof.
  cbn [Math_max leb]. destruct (Qle_bool x y) eqn:E.
  - exists y. apply Qle_bool_iff in E. repeat split; auto. apply Qle_refl.
  - exists x. repeat split; auto; [apply Qle_refl|].
    apply Qlt_le_weak, Qnot_le_lt. intros L. apply Qle_bool_iff in L. congruence.
Qed.

(** What scaling does to a finite longer side [m] above the cap: the
    factor is a finite number, and every side up to [m] comes out at
    most the cap, so that [m] itself is changed. *)
Lemma longer_side_cut m :
  leb (Fin m) (Fin MAX_DIMENSION) = false -> isNumber (Fin m) = true ->
  exists s, div (Fin MAX_DIMENSION) (Fin m) = Fin s /\
    (forall x, x <= m ->
       leb (Math_round (mul (Fin x) (Fin s))) (Fin MAX_DIMENSION) = true) /\
    strictEq (Fin m) (Math_round (mul (Fin m) (Fin s))) = false.
Proof.
  intros L R. cbn [leb] in L.
  assert (MAX_DIMENSION < m) as G.
  { apply Qnot_le_lt. intros X. apply Qle_bool_iff in X. congruence. }
  assert (m < pow2 1024) as U.
  { eapply Qle_lt_trans; [apply Qle_Qabs | now apply in_range]. }
  destruct (factor_near m G U) as (s & D & S0 & B).
  exists s. split; [exact D|].
  assert (forall x, x <= m ->
            leb (Math_round (mul (Fin x) (Fin s))) (Fin MAX_DIMENSION) = true) as W
    by (intros x X; now apply (side_within_cap x m s)).
  split; [exact W|].
  specialize (W m (Qle_refl m)).
  destruct (Math_round (mul (Fin m) (Fin s))) as [k| |neg]; try reflexivity.
  cbn [leb strictEq] in *. apply Qle_bool_iff in W.
  apply not_true_is_false. intros E. apply Qeq_bool_iff in E.
  rewrite E in G. apply Qlt_not_le in G. contradiction.
Qed.

Lemma buffer_within_cap w h :
  isFinite w = true -> isFinite h = true ->
  wasScaled (calculateScaledDimensions w h) = true ->
  leb (renderWidth (calculateScaledDimensions w h)) (Fin MAX_DIMENSION) = true /\
  leb (renderHeight (calculateScaledDimensions w h)) (Fin MAX_DIMENSION) = true.
Proof.
  destruct w as [x| |]; try discriminate. destruct h as [y| |]; try discriminate.
  cbn [isFinite]. intros Rx Ry S. apply wasScaled_iff in S.
  unfold calculateScaledDimensions. rewrite S. cbn [renderWidth renderHeight].
  destruct (max_finite x y) as (m & M & X & Y & C). rewrite M in *.
  assert (isNumber (Fin m) = true) as Rm by (destruct C as [->| ->]; assumption).
  destruct (longer_side_cut m S Rm) as (s & D & W & _). rewrite D.
  split; apply W; assumption.
Qed.

(** A scaled geometry differs from the requested one. *)
Lemma scaled_changes_a_side w h :
  isNumber w = true -> isNumber h = true ->
  wasScaled (calculateScaledDimensions w h) = true ->
  ~ (strictEq w (renderWidth (calculateScaledDimensions w h)) = true /\
     strictEq h (renderHeight (calculateScaledDimensions w h)) = true).
Proof.
  intros Rw Rh S. apply wasScaled_iff in S.
  unfold calculateScaledDimensions. rewrite S. cbn [renderWidth renderHeight].
  destruct w as [x| |[|]], h as [y| |[|]];
    try (cbn; intros [A B]; discriminate).
  - destruct (max_finite x y) as (m & M & X & Y & C). rewrite M in *.
    assert (isNumber (Fin m) = true) as Rm by (destruct C as [->| ->]; assumption).
    destruct (longer_side_cut m S Rm) as (s & D & _ & N). rewrite D.
    intros [A B]. destruct C as [->| ->]; congruence.
  - change (Math_max (Fin x) (Inf true)) with (Fin x) in *.
    destruct (longer_side_cut x S Rw) as (s & D & _ & N). rewrite D.
    intros [A B]. congruence.
  - change (Math_max (Inf true) (Fin y)) with (Fin y) in *.
    destruct (longer_side_cut y S Rh) as (s & D & _ & N). rewrite D.
    intros [A B]. congruence.
Qed.

(** C4, as the code has it.  Within the cap the geometry is the
    identity one.  Otherwise, which is also the case of a side that is
    not a number, the factor is cap / max(w, h) and both buffer sides
    are [Math.round] of the side times that factor, in double
    arithmetic; when both requested sides are finite, both buffer
    sides are at most the cap. *)
Theorem calculateScaledDimensions_spec (w h : Number) :
  let d := calculateScaledDimensions w h in
  (leb (Math_max w h) (Fin MAX_DIMENSION) = true /\
   d = {| renderWidth := w; renderHeight := h;
          originalWidth := w; originalHeight := h;
          scaleFactor := Fin 1; wasScaled := false |})
  \/
  (leb (Math_max w h) (Fin MAX_DIMENSION) = false /\
   scaleFactor d = div (Fin MAX_DIMENSION) (Math_max w h) /\
   renderWidth d = Math_round (mul w (scaleFactor d)) /\
   renderHeight d = Math_round (mul h (scaleFactor d)) /\
   originalWidth d = w /\ originalHeight d = h /\
   wasScaled d = true /\
   (isFinite w = true -> isFinite h = true ->
    leb (renderWidth d) (Fin MAX_DIMENSION) = true /\
    leb (renderHeight d) (Fin MAX_DIMENSION) = true)).
Proof.
  cbn zeta.
  destruct (leb (Math_max w h) (Fin MAX_DIMENSION)) eqn:E.
  - left. split; [reflexivity|]. unfold calculateScaledDimensions. now rewrite E.
  - right. split; [reflexivity|].
    assert (wasScaled (calculateScaledDimensions w h) = true) as S
      by now apply wasScaled_iff.
    pose proof (buffer_within_cap w h) as B.
    unfold calculateScaledDimensions in *. rewrite E in *.
    cbn [renderWidth renderHeight originalWidth originalHeight scaleFactor wasScaled]
      in *.
    repeat split; try reflexivity; intros; now apply B.
Qed.

Lemma calculateScaledDimensions_spec_witness :
  let d := calculateScaledDimensions (Fin 1950) (Fin 2400) in
  leb (renderWidth d) (Fin MAX_DIMENSION) = true /\
  leb (renderHeight d) (Fin MAX_DIMENSION) = true.
Proof.
  destruct (calculateScaledDimensions_spec (Fin 1950) (Fin 2400))
    as [[E _]|(_ & _ & _ & _ & _ & _ & _ & B)].
  - vm_compute in E. discriminate E.
  - apply B; vm_compute; reflexivity.
Defined.

(** C4, as stated for all sides, fails.  A side that is not a number
    takes the scaling branch, and both buffer sides are then NaN,
    which is not at most the cap.  An infinite side is above the cap
    and gives the factor 0, and the buffer side infinity * 0 = NaN. *)
Lemma buffer_not_bounded_without_finite_sides :
  (let d := calculateScaledDimensions NaN (Fin 500) in
   leb (Math_max NaN (Fin 500)) (Fin MAX_DIMENSION) = false /\
   wasScaled d = true /\
   renderWidth d = NaN /\ renderHeight d = NaN /\
   leb (renderWidth d) (Fin MAX_DIMENSION) = false /\
   leb (renderHeight d) (Fin MAX_DIMENSION) = false) /\
  (let d := calculateScaledDimensions (Inf false) (Fin 500) in
   leb (Math_max (Inf false) (Fin 500)) (Fin MAX_DIMENSION) = false /\
   wasScaled d = true /\
   scaleFactor d = Fin 0 /\
   renderWidth d = NaN /\
   leb (renderWidth d) (Fin MAX_DIMENSION) = false).
Proof. vm_compute. repeat split. Qed.

Lemma Math_round_near p :
  exists k : Z, Math_round (Fin p) = Fin (inject_Z k) /\
                p - (1 # 2) < inject_Z k /\ inject_Z k <= p + (1 # 2).
Proof.
  exists (Qfloor (p + (1 # 2))). split; [reflexivity|].
  pose proof (Qfloor_le (p + (1 # 2))) as L.
  pose proof (Qlt_floor (p + (1 # 2))) as U.
  rewrite inject_Z_plus in U. change (inject_Z 1) with 1 in U.
  split; lra.
Qed.

(** C8, as the code has it.  The stored factor is 1 when nothing was
    scaled, and the buffer sides are then the requested ones; when the
    geometry was scaled the factor is cap / max(w, h) and each buffer
    side is [Math.round] of the side times that factor, in double
    arithmetic; [Math.round] of a finite product is an integer at most
    1/2 away from it.  [reapplyContextScale] scales both axes by the
    one quotient renderWidth / originalWidth, and leaves the identity
    transform when nothing was scaled or the quotient is not a finite
    number. *)
Theorem scaleFactor_up_to_rounding (w h : Number) (c : Canvas) :
  let d := calculateScaledDimensions w h in
  let c' := reapplyContextScale (applyScaledDimensions c d) d in
  scaleFactor d =
    (if wasScaled d then div (Fin MAX_DIMENSION) (Math_max w h) else Fin 1) /\
  (wasScaled d = false -> renderWidth d = w /\ renderHeight d = h) /\
  (wasScaled d = true ->
   renderWidth d = Math_round (mul w (scaleFactor d)) /\
   renderHeight d = Math_round (mul h (scaleFactor d))) /\
  (forall p, exists k : Z, Math_round (Fin p) = Fin (inject_Z k) /\
                           p - (1 # 2) < inject_Z k /\ inject_Z k <= p + (1 # 2)) /\
  (wasScaled d = false -> transform c' = identity) /\
  (wasScaled d = true ->
   match div (renderWidth d) (originalWidth d) with
   | Fin f => transform c' = scaleBy identity f f /\
              ma (transform c') == f /\ md (transform c') == f /\
              mb (transform c') == 0 /\ mc (transform c') == 0 /\
              me (transform c') == 0 /\ mf (transform c') == 0
   | _ => transform c' = identity
   end).
Proof.
  cbn zeta. unfold calculateScaledDimensions.
  destruct (leb (Math_max w h) (Fin MAX_DIMENSION)) eqn:E;
    cbn [renderWidth renderHeight originalWidth originalHeight scaleFactor wasScaled].
  - repeat split; try discriminate; try apply Math_round_near.
  - split; [reflexivity|]. split; [discriminate|]. split; [auto|].
    split; [apply Math_round_near|]. split; [discriminate|].
    intros _. unfold reapplyContextScale, applyScaledDimensions.
    cbn [wasScaled negb renderWidth originalWidth].
    destruct (div _ w) as [f| |neg]; cbn [scale setTransform transform];
      [|reflexivity|reflexivity].
    split; [reflexivity|].
    cbn [scaleBy identity ma mb mc md me mf]. repeat split; ring.
Qed.

Lemma scaleFactor_up_to_rounding_witness :
  let d := calculateScaledDimensions (Fin 1950) (Fin 2400) in
  renderWidth d = Math_round (mul (Fin 1950) (scaleFactor d)) /\
  renderHeight d = Math_round (mul (Fin 2400) (scaleFactor d)).
Proof.
  apply (proj1 (proj2 (proj2
    (scaleFactor_up_to_rounding (Fin 1950) (Fin 2400)
       {| width := 300; height := 150; styleWidth := None; styleHeight := None;
          transform := identity; saved := [] |})))).
  vm_compute. reflexivity.
Defined.

(** C8, as stated, fails on the repository's own example: 1950 x 2400
    gives the factor 3/8 but a buffer 731 wide, and 731/1950 is not
    3/8. *)
Lemma scaleFactor_differs_from_buffer_ratio :
  let d := calculateScaledDimensions (Fin 1950) (Fin 2400) in
  strictEq (scaleFactor d) (Fin (3 # 8)) = true /\
  strictEq (renderWidth d) (Fin 731) = true /\
  originalWidth d = Fin 1950 /\
  strictEq (scaleFactor d) (div (renderWidth d) (originalWidth d)) = false.
Proof. vm_compute. repeat split. Qed.

End ScalerFacts.

(** ** Scheduling of the next tick *)

Module SchedulingFacts.
Import PreviewTypes CanvasScaler PreviewRuntime Script TopLevel Effects.
Import EffectFacts Traces.
Local Open Scope effects_scope.

Definition notRequest (e : Event) : Prop := isRequest e = false.

Lemma scheduled_app es es' : scheduled (es ++ es') = (scheduled es + scheduled es')%nat.
Proof. unfold scheduled. now rewrite List.filter_app, length_app. Qed.

Lemma scheduled_none es : Forall notRequest es -> scheduled es = 0%nat.
Proof.
  unfold scheduled. induction 1 as [|e es He _ IH]; [reflexivity|].
  cbn. unfold notRequest in He. rewrite He. exact IH.
Qed.

Section Engine.
Import PreviewEngine.
Variable config : PreviewEngineConfig.

Lemma invoke_quiet ph cl : emits notRequest (invoke ph cl).
Proof.
  intros e. unfold events, invoke.
  destruct (thrown _); cbn; repeat constructor.
Qed.

Lemma callIfSome_quiet ph f : emits notRequest (callIfSome ph f).
Proof. destruct f; [apply invoke_quiet | apply emits_ret]. Qed.

Lemma stopLoop_quiet : emits notRequest stopLoop.
Proof. unfold stopLoop. emits_auto. Qed.

Lemma showBudgetOverlay_quiet r : emits notRequest (showBudgetOverlay config r).
Proof. unfold showBudgetOverlay. emits_auto. Qed.

Lemma handleBudgetExceeded_quiet now r :
  emits notRequest (handleBudgetExceeded config now r).
Proof.
  unfold handleBudgetExceeded. emits_auto;
    first [apply showBudgetOverlay_quiet | apply stopLoop_quiet].
Qed.

Lemma checkBudget_quiet now : emits notRequest (checkBudget config now).
Proof.
  unfold checkBudget. emits_auto; apply handleBudgetExceeded_quiet.
Qed.

Lemma afterScheduling_quiet now : emits notRequest (afterScheduling config now).
Proof.
  unfold afterScheduling. emits_auto;
    first [apply checkBudget_quiet | apply callIfSome_quiet].
Qed.

Lemma frame_events now e :
  events (frame config now e) =
  RequestFrame (nextFrameId (host e))
    :: events (afterScheduling config now
                 (setAnimationFrameId (Some (nextFrameId (host e)))
                    (setHost (snd (requestAnimationFrame (host e))) e))).
Proof.
  unfold frame, scheduleNextFrame.
  erewrite bind_run by reflexivity. reflexivity.
Qed.

Lemma frame_schedules_once now e : scheduled (events (frame config now e)) = 1%nat.
Proof.
  rewrite frame_events.
  change (RequestFrame ?i :: ?l) with ([RequestFrame i] ++ l).
  rewrite scheduled_app, (scheduled_none (events _)); [reflexivity|].
  apply afterScheduling_quiet.
Qed.

Lemma ticks_scheduled nows e :
  scheduled (snd (ticks config nows e)) = length nows.
Proof.
  revert e. induction nows as [|now rest IH]; intros e; [reflexivity|].
  cbn [ticks]. specialize (IH (state (frame config now e))).
  destruct (ticks config rest (state (frame config now e))) as [e' es].
  cbn [snd] in *. rewrite scheduled_app, frame_schedules_once, IH. reflexivity.
Qed.
End Engine.

Section Code.
Import CodeRenderer.
Variable system : NexArtCodeSystem.
Variable options : PreviewOptions.

Lemma code_invoke_quiet ph cl : emits notRequest (invoke ph cl).
Proof.
  intros e. unfold events, invoke.
  destruct (thrown _); cbn; repeat constructor.
Qed.

Lemma code_callIfSome_quiet ph f : emits notRequest (callIfSome ph f).
Proof. destruct f; [apply code_invoke_quiet | apply emits_ret]. Qed.

Lemma clearCanvas_quiet : emits notRequest clearCanvas.
Proof. intros s. cbn. repeat constructor. Qed.

Lemma drawBadge_quiet : emits notRequest (drawBadge options).
Proof. unfold drawBadge. emits_auto. Qed.

Lemma code_afterScheduling_quiet fc :
  emits notRequest (CodeRenderer.afterScheduling system options fc).
Proof.
  unfold CodeRenderer.afterScheduling. emits_auto;
    first [apply clearCanvas_quiet | apply code_callIfSome_quiet
          | apply drawBadge_quiet].
Qed.

Lemma loop_events fc s :
  events (loop system options fc s) =
  RequestFrame (nextFrameId (host s))
    :: events (CodeRenderer.afterScheduling system options fc
                 (setAnimationId (Some (nextFrameId (host s)))
                    (setHost (snd (requestAnimationFrame (host s))) s))).
Proof.
  unfold loop. erewrite bind_run by reflexivity. reflexivity.
Qed.

Lemma loop_schedules_once fc s : scheduled (events (loop system options fc s)) = 1%nat.
Proof.
  rewrite loop_events.
  change (RequestFrame ?i :: ?l) with ([RequestFrame i] ++ l).
  rewrite scheduled_app, (scheduled_none (events _)); [reflexivity|].
  apply code_afterScheduling_quiet.
Qed.

Lemma loops_scheduled n fc s :
  scheduled (snd (loops system options n fc s)) = n.
Proof.
  revert fc s. induction n as [|n IH]; intros fc s; [reflexivity|].
  cbn [loops].
  match goal with
  | |- context [loops system options n ?f ?t] =>
      specialize (IH f t); destruct (loops system options n f t) as [[s' fc'] es]
  end.
  cbn [snd] in *. rewrite scheduled_app, loop_schedules_once, IH. reflexivity.
Qed.
End Code.


End SchedulingFacts.

(** ** The budget arbiter of the preview engine *)

Module BudgetFacts.
Import PreviewTypes CanvasScaler PreviewRuntime Script TopLevel Effects.
Import EffectFacts Traces PreviewEngine.
Local Open Scope effects_scope.
Local Arguments Z.leb : simpl never.
Local Arguments Z.ltb : simpl never.
Local Arguments Z.eqb : simpl never.
Local Arguments Z.rem : simpl never.
Local Arguments Z.add : simpl never.
Local Arguments Qle_bool : simpl never.
Local Arguments Qminus : simpl never.
Local Arguments updateTiming : simpl never.
Local Arguments cancelAnimationFrame : simpl never.

Ltac run :=
  unfold frame, startLoop, removeOverlay, scheduleNextFrame, afterScheduling,
    checkBudget, handleBudgetExceeded, showBudgetOverlay, stopLoop, callIfSome,
    invoke, bind, requestFrame, gets, modify, emit, when, ret, tryCatch,
    events, state, completion in *.

Lemma notifications_app es es' :
  notifications (es ++ es') = notifications es ++ notifications es'.
Proof.
  induction es as [|e es IH]; [reflexivity|].
  destruct e; cbn; rewrite ?IH; reflexivity.
Qed.

Lemma draws_app es es' : draws (es ++ es') = (draws es + draws es')%nat.
Proof. unfold draws. now rewrite List.filter_app, length_app. Qed.

Section Engine.
Variable config : PreviewEngineConfig.

(** The fields a tick may not touch when the budget holds. *)
Definition sameSession (e e' : Engine) : Prop :=
  startTimeMs e' = startTimeMs e /\
  internalFrameCount e' = (internalFrameCount e + 1)%Z /\
  drawFn e' = drawFn e.

Lemma frame_halted now e :
  running e = false ->
  running (state (frame config now e)) = false /\
  budgetExceededReason (state (frame config now e)) = budgetExceededReason e /\
  notifications (events (frame config now e)) = [] /\
  draws (events (frame config now e)) = 0%nat.
Proof. intros H. run. cbn. rewrite H. cbn. auto. Qed.

Lemma frame_within_budget now e :
  running e = true ->
  budgetExceededReason e = None ->
  crossing config (startTimeMs e) (internalFrameCount e) now = None ->
  let e' := state (frame config now e) in
  notifications (events (frame config now e)) = [] /\
  running e' = true /\ budgetExceededReason e' = None /\
  currentStride e' = currentStride e /\ sameSession e e'.
Proof.
  intros H1 H2 H3. unfold crossing, sameSession in *.
  destruct (configMaxFrames config <=? internalFrameCount e + 1)%Z eqn:C1;
    [discriminate|].
  destruct (Qle_bool (configMaxTimeMs config) (now - startTimeMs e)) eqn:C2;
    [discriminate|].
  run. cbn. rewrite H1. cbn. rewrite C1, C2. cbn.
  destruct ((1 <? currentStride e)%Z &&
            negb (Z.rem (internalFrameCount e + 1) (currentStride e) =? 0)%Z); cbn.
  - auto 10.
  - unfold updateTiming. cbn.
    destruct (runtime e); cbn; destruct (drawFn e) eqn:D; cbn;
      try destruct (thrown _); cbn; auto 10.
Qed.

Lemma frame_crossing now e r :
  running e = true ->
  budgetExceededReason e = None ->
  crossing config (startTimeMs e) (internalFrameCount e) now = Some r ->
  let e' := state (frame config now e) in
  notifications (events (frame config now e)) =
    (if onBudgetExceeded config then [r] else []) /\
  budgetExceededReason e' = Some r /\
  sameSession e e' /\
  (budgetBehavior config = Some degrade ->
   running e' = true /\ currentStride e' = DEGRADE_STRIDE) /\
  (budgetBehavior config <> Some degrade ->
   running e' = false /\ draws (events (frame config now e)) = 0%nat).
Proof.
  intros H1 H2 H3. unfold crossing, sameSession in *.
  destruct (configMaxFrames config <=? internalFrameCount e + 1)%Z eqn:C1;
    [|destruct (Qle_bool (configMaxTimeMs config) (now - startTimeMs e)) eqn:C2;
      [|discriminate]];
    injection H3 as <-;
    run; cbn; rewrite H1; cbn; rewrite C1, ?C2; cbn; rewrite H2; cbn;
    destruct (onBudgetExceeded config); cbn;
    destruct (budgetBehavior config) as [[|]|]; cbn;
    repeat match goal with
      | |- context [overlayElement e] => destruct (overlayElement e); cbn
      | |- context [showOverlay config] => destruct (showOverlay config) as [[|]|]; cbn
      | |- context [parentElement e] => destruct (parentElement e); cbn
      | |- context [(1 <? DEGRADE_STRIDE)%Z && ?b] =>
          destruct ((1 <? DEGRADE_STRIDE)%Z && b); cbn
      | |- context [updateTiming ?x] => unfold updateTiming; cbn
      | |- context [runtime e] => destruct (runtime e); cbn
      | |- context [drawFn e] => destruct (drawFn e) eqn:?; cbn
      | |- context [thrown ?x] => destruct (thrown x); cbn
      end;
    repeat split; intros; try congruence; auto.
Qed.

Lemma frame_exceeded now e r0 :
  running e = true ->
  budgetExceededReason e = Some r0 ->
  let e' := state (frame config now e) in
  notifications (events (frame config now e)) = [] /\
  running e' = true /\ budgetExceededReason e' = Some r0 /\
  currentStride e' = currentStride e /\ sameSession e e'.
Proof.
  intros H1 H2. unfold sameSession.
  run; cbn; rewrite H1; cbn.
  destruct (configMaxFrames config <=? internalFrameCount e + 1)%Z; cbn;
    [|destruct (Qle_bool (configMaxTimeMs config) (now - startTimeMs e)); cbn];
    rewrite ?H2; cbn;
    destruct (negb (isDegrade (budgetBehavior config))); cbn;
    repeat match goal with
      | |- context [(1 <? currentStride e)%Z && ?b] =>
          destruct ((1 <? currentStride e)%Z && b); cbn
      | |- context [updateTiming ?x] => unfold updateTiming; cbn
      | |- context [runtime e] => destruct (runtime e); cbn
      | |- context [drawFn e] => destruct (drawFn e) eqn:?; cbn
      | |- context [thrown ?x] => destruct (thrown x); cbn
      end;
    auto 10.
Qed.

(** Once degraded, a tick calls [drawFn] exactly when the new frame
    count is a multiple of the stride. *)
Lemma frame_degraded_draws now e r0 cl :
  budgetBehavior config = Some degrade ->
  running e = true ->
  budgetExceededReason e = Some r0 ->
  currentStride e = DEGRADE_STRIDE ->
  drawFn e = Some cl ->
  draws (events (frame config now e)) =
    if (Z.rem (internalFrameCount e + 1) DEGRADE_STRIDE =? 0)%Z then 1%nat else 0%nat.
Proof.
  intros B H1 H2 H3 H4.
  run; cbn; rewrite H1; cbn.
  destruct (configMaxFrames config <=? internalFrameCount e + 1)%Z; cbn;
    [|destruct (Qle_bool (configMaxTimeMs config) (now - startTimeMs e)); cbn];
    rewrite ?H2; cbn; rewrite ?B; cbn; rewrite H3;
    change (1 <? DEGRADE_STRIDE)%Z with true; cbn;
    destruct (Z.rem (internalFrameCount e + 1) DEGRADE_STRIDE =? 0)%Z; cbn;
    try reflexivity;
    unfold updateTiming; cbn; destruct (runtime e); cbn; rewrite H4; cbn;
    destruct (thrown _); reflexivity.
Qed.

Lemma startLoop_fresh t0 e :
  running e = false ->
  let e' := state (startLoop t0 e) in
  running e' = true /\ budgetExceededReason e' = None /\
  startTimeMs e' = t0 /\ internalFrameCount e' = 0%Z /\
  currentStride e' = 1%Z /\ drawFn e' = drawFn e /\
  notifications (events (startLoop t0 e)) = [] /\
  draws (events (startLoop t0 e)) = 0%nat.
Proof.
  intros H. run. cbn. rewrite H. cbn.
  destruct (overlayElement e && parentElement e); cbn;
    destruct (setupFn e); cbn; try destruct (thrown _); cbn; auto 10.
Qed.

Lemma stopLoop_halts e : running (state (stopLoop e)) = false.
Proof. run. cbn. destruct (animationFrameId e); reflexivity. Qed.

(** Ticks of a halted or already exceeded session notify nobody. *)
Definition settled (e : Engine) : Prop :=
  running e = false \/ budgetExceededReason e <> None.

Lemma frame_settled now e :
  settled e ->
  settled (state (frame config now e)) /\
  notifications (events (frame config now e)) = [].
Proof.
  intros [H|H].
  - destruct (frame_halted now e H) as (R & _ & N & _). split; [now left | exact N].
  - destruct (running e) eqn:R.
    + destruct (budgetExceededReason e) as [r0|] eqn:E; [|congruence].
      destruct (frame_exceeded now e r0 R E) as (N & _ & E' & _).
      split; [right; congruence | exact N].
    + destruct (frame_halted now e R) as (R' & _ & N & _).
      split; [now left | exact N].
Qed.

Lemma ticks_settled nows e :
  settled e -> notifications (snd (ticks config nows e)) = [].
Proof.
  revert e. induction nows as [|now rest IH]; intros e H; [reflexivity|].
  cbn [ticks]. destruct (frame_settled now e H) as [H' N].
  specialize (IH _ H').
  destruct (ticks config rest (state (frame config now e))) as [e' es].
  cbn [snd] in *. now rewrite notifications_app, N, IH.
Qed.

Lemma ticks_notify nows : forall e,
  onBudgetExceeded config = true ->
  running e = true ->
  budgetExceededReason e = None ->
  notifications (snd (ticks config nows e)) =
    match firstCrossing config (startTimeMs e) (internalFrameCount e) nows with
    | Some r => [r]
    | None => []
    end.
Proof.
  induction nows as [|now rest IH]; intros e C R E; [reflexivity|].
  cbn [ticks firstCrossing].
  destruct (crossing config (startTimeMs e) (internalFrameCount e) now) as [r|] eqn:X.
  - destruct (frame_crossing now e r R E X) as (N & E' & _).
    rewrite C in N.
    pose proof (ticks_settled rest (state (frame config now e))) as Q.
    destruct (ticks config rest (state (frame config now e))) as [e' es].
    cbn [snd] in *. rewrite notifications_app, N, Q; [reflexivity|].
    right. congruence.
  - destruct (frame_within_budget now e R E X) as (N & R' & E' & _ & S1 & S2 & _).
    specialize (IH _ C R' E'). rewrite S1, S2 in IH.
    destruct (ticks config rest (state (frame config now e))) as [e' es].
    cbn [snd] in *. now rewrite notifications_app, N, IH.
Qed.
End Engine.



Ltac branches config now e :=
  destruct (configMaxFrames config <=? internalFrameCount e + 1)%Z eqn:?; cbn;
  [|destruct (Qle_bool (configMaxTimeMs config) (now - startTimeMs e)) eqn:?; cbn];
  try (destruct (budgetExceededReason e) eqn:?; cbn);
  try (destruct (onBudgetExceeded config); cbn);
  destruct (budgetBehavior config) as [[|]|] eqn:?; cbn;
  repeat match goal with
    | |- context [overlayElement e] => destruct (overlayElement e); cbn
    | |- context [showOverlay config] => destruct (showOverlay config) as [[|]|]; cbn
    | |- context [parentElement e] => destruct (parentElement e); cbn
    | |- context [(1 <? ?s)%Z && ?b] => destruct ((1 <? s)%Z && b); cbn
    | |- context [runtime e] => destruct (runtime e); cbn
    | |- context [drawFn e] => destruct (drawFn e) eqn:?; cbn
    | |- context [thrown (body ?c ?sc)] => destruct (thrown (body c sc)) eqn:?; cbn
    end.

Section Tick.
Variable config : PreviewEngineConfig.

Lemma frame_returns now e : completion (frame config now e) = Returned tt.
Proof.
  run. cbn. destruct (running e); cbn; [|reflexivity].
  unfold updateTiming. branches config now e; reflexivity.
Qed.

Lemma frame_after_draw_error now e o msg :
  In (Ran Draw o) (events (frame config now e)) ->
  thrown o = Some msg ->
  let r := frame config now e in
  (exists before, events r = before ++ [Ran Draw o; Warn (DrawError msg)]) /\
  running (state r) = true /\
  drawFn (state r) = drawFn e /\ drawFn e <> None /\
  animationFrameId (state r) = Some (nextFrameId (host e)) /\
  In (nextFrameId (host e)) (pendingFrames (host (state r))).
Proof.
  intros H T. revert H. run. cbn.
  destruct (running e) eqn:R; cbn; [|intros [H|[]]; discriminate].
  unfold updateTiming. branches config now e; intros H;
    repeat (destruct H as [H|H]; try discriminate H);
    try contradiction;
    injection H as <-; try congruence;
    (split; [eexists; (reflexivity ||
       match goal with
       | |- ?a :: ?l = _ => instantiate (1 := removelast (removelast (a :: l)));
                             cbn; repeat f_equal; congruence
       end)|]);
    repeat split; try reflexivity; try congruence;
    apply in_or_app; right; left; reflexivity.
Qed.
End Tick.

Section Degrade.
Variable config : PreviewEngineConfig.
Variable cl : Closure.
Hypothesis degrading : budgetBehavior config = Some degrade.

(** What every state of a degrade-mode session satisfies. *)
Definition degradeSession (e : Engine) : Prop :=
  running e = true /\ drawFn e = Some cl /\
  (0 <= internalFrameCount e)%Z /\
  (budgetExceededReason e <> None -> currentStride e = DEGRADE_STRIDE).

Lemma frame_degradeSession now e :
  degradeSession e ->
  degradeSession (state (frame config now e)) /\
  (budgetExceededReason e <> None ->
   budgetExceededReason (state (frame config now e)) <> None).
Proof.
  intros (R & D & N & S). unfold degradeSession.
  destruct (budgetExceededReason e) as [r0|] eqn:E.
  - destruct (frame_exceeded config now e r0 R E) as (_ & R' & E' & S' & _ & F & D').
    rewrite R', D', F, S', E'. repeat split; try congruence; try lia.
    intros _. apply S. discriminate.
  - destruct (crossing config (startTimeMs e) (internalFrameCount e) now) as [r|] eqn:X.
    + destruct (frame_crossing config now e r R E X) as (_ & E' & (_ & F & D') & G & _).
      destruct (G degrading) as [R' S'].
      rewrite R', D', F, S', E'. repeat split; try congruence; lia.
    + destruct (frame_within_budget config now e R E X)
        as (_ & R' & E' & _ & _ & F & D').
      rewrite R', D', F, E'. repeat split; try congruence; lia.
Qed.

Lemma ticks_degradeSession nows e :
  degradeSession e -> degradeSession (fst (ticks config nows e)).
Proof.
  revert e. induction nows as [|now rest IH]; intros e H; [exact H|].
  cbn [ticks]. destruct (frame_degradeSession now e H) as [H' _].
  specialize (IH _ H').
  destruct (ticks config rest (state (frame config now e))) as [e' es]. exact IH.
Qed.

Lemma stride_test n :
  (0 <= n)%Z ->
  (Z.rem (n + 1) DEGRADE_STRIDE =? 0)%Z = negb (Z.even n).
Proof.
  intros H. unfold DEGRADE_STRIDE.
  rewrite Z.rem_mod_nonneg by lia.
  rewrite Zmod_even. change (n + 1)%Z with (Z.succ n).
  rewrite Z.even_succ, <- Z.negb_even.
  destruct (Z.even n); reflexivity.
Qed.

(** Over [k] ticks of a degraded session the number [d] of draws is
    k/2 rounded down when the frame count starts even, rounded up
    when it starts odd. *)
Lemma ticks_degraded_draws nows : forall e,
  degradeSession e ->
  budgetExceededReason e <> None ->
  let d := draws (snd (ticks config nows e)) in
  if Z.even (internalFrameCount e)
  then (2 * d <= length nows /\ length nows <= 2 * d + 1)%nat
  else (2 * d <= length nows + 1 /\ length nows <= 2 * d)%nat.
Proof.
  induction nows as [|now rest IH]; intros e H X.
  - cbn. destruct (Z.even _); lia.
  - cbn [ticks].
    destruct (frame_degradeSession now e H) as [H' X'].
    specialize (IH _ H' (X' X)). cbn zeta in IH.
    destruct H as (R & D & N & S).
    destruct (budgetExceededReason e) as [r0|] eqn:E; [|congruence].
    pose proof (frame_degraded_draws config now e r0 cl degrading R E
                  (S X) D) as T.
    rewrite stride_test in T by exact N.
    destruct (frame_exceeded config now e r0 R E) as (_ & _ & _ & _ & _ & F & _).
    rewrite F in IH. change (internalFrameCount e + 1)%Z with
      (Z.succ (internalFrameCount e)) in IH.
    rewrite Z.even_succ, <- Z.negb_even in IH.
    destruct (ticks config rest (state (frame config now e))) as [e' es].
    cbn [snd length] in *. rewrite draws_app, T.
    destruct (Z.even (internalFrameCount e)); cbn in *; lia.
Qed.
End Degrade.

(** C6.  With [budgetBehavior = 'degrade'] and a draw function
    registered: once the budget of a session is exceeded the loop is
    still running and the stride is 2; from then on a tick calls
    [drawFn] exactly when the new frame count is a multiple of the
    stride, every tick still registers the next one, and over any
    number of further ticks the draws are half of them, to within
    one. *)
Theorem degrade_draws_every_second_tick config cl t0 pre post e :
  budgetBehavior config = Some degrade ->
  running e = false ->
  drawFn e = Some cl ->
  let e1 := fst (session config t0 pre e) in
  budgetExceededReason e1 <> None ->
  running e1 = true /\
  currentStride e1 = DEGRADE_STRIDE /\
  (forall now,
      draws (events (frame config now e1)) =
        if (Z.rem (internalFrameCount e1 + 1) (currentStride e1) =? 0)%Z
        then 1%nat else 0%nat) /\
  running (fst (ticks config post e1)) = true /\
  scheduled (snd (ticks config post e1)) = length post /\
  (2 * draws (snd (ticks config post e1)) <= length post + 1)%nat /\
  (length post <= 2 * draws (snd (ticks config post e1)) + 1)%nat.
Proof.
  intros B H D e1 X.
  assert (degradeSession cl e1) as I.
  { subst e1. unfold session.
    destruct (startLoop_fresh t0 e H) as (R & E & _ & F & _ & D' & _).
    pose proof (ticks_degradeSession config cl B pre (state (startLoop t0 e))) as T.
    destruct (ticks config pre (state (startLoop t0 e))) as [e' es]. cbn [fst] in *.
    apply T. unfold degradeSession. rewrite R, D', F, E.
    repeat split; try congruence; lia. }
  pose proof I as (R & D1 & N & S).
  split; [exact R|]. split; [exact (S X)|]. split.
  { intros now. destruct (budgetExceededReason e1) as [r0|] eqn:E; [|congruence].
    rewrite (S X). apply (frame_degraded_draws config now e1 r0 cl B R E (S X) D1). }
  split; [apply (ticks_degradeSession config cl B post e1 I)|].
  split; [apply SchedulingFacts.ticks_scheduled|].
  pose proof (ticks_degraded_draws config cl B post e1 I X) as C. cbn zeta in C.
  destruct (Z.even (internalFrameCount e1)); lia.
Qed.

Lemma degrade_draws_every_second_tick_witness :
  let config :=
    Samples.engineConfig (Samples.callsDraw (Samples.paints "frameCount"))
      (Some degrade) (Some 2%Z) in
  let e0 := create config Samples.blankCanvas true Samples.page in
  let e1 := fst (session config 0 (Samples.clock 3 0) e0) in
  let post := Samples.clock 5 48 in
  currentStride e1 = DEGRADE_STRIDE /\
  (2 * draws (snd (ticks config post e1)) <= length post + 1)%nat /\
  (length post <= 2 * draws (snd (ticks config post e1)) + 1)%nat.
Proof.
  intros config e0 e1 post.
  assert (registered (drawFn e0) = true) as R by (vm_compute; reflexivity).
  destruct (drawFn e0) as [cl|] eqn:D; [|discriminate R].
  destruct (degrade_draws_every_second_tick config cl 0 (Samples.clock 3 0) post e0)
    as (_ & S & _ & _ & _ & A & B).
  - reflexivity.
  - vm_compute. reflexivity.
  - exact D.
  - vm_compute. discriminate.
  - repeat split; assumption.
Defined.
End BudgetFacts.

(** ** Live binding *)

Module BindingFacts.
Import PreviewTypes CanvasScaler PreviewRuntime Script TopLevel Effects.
Import Traces Samples.

(** The code-mode renderer on a script with the usual declarations:
    [draw] on tick N reads the frame counter N. *)
Example code_draw_reads_live_frameCount :
  let system := codeSystem conventional ModeLoop in
  let s0 := CodeRenderer.renderCodeModeSystem system blankCanvas page in
  let s1 := fst (fst (perform system codeOptions OpStart (s0, 0%Z))) in
  paintedBy Draw (snd (loops system codeOptions 50 0 s1)) = countingFrom 50 1.
Proof. vm_compute. reflexivity. Qed.

(** C3 fails in the preview engine.  Its generated function takes the
    runtime's values as arguments, so a draw function sees the frame
    counter it was compiled with: on each of the ticks 1..50 it reads
    0, not the tick's number. *)
Theorem engine_draw_reads_frozen_frameCount :
  let config := engineConfig (callsDraw (paints "frameCount")) None None in
  let e0 := PreviewEngine.create config blankCanvas true page in
  let trace := snd (session config 0 (clock 50 0) e0) in
  draws trace = 50%nat /\
  paintedBy Draw trace = repeat (VNum 0) 50 /\
  paintedBy Draw trace <> countingFrom 50 1.
Proof. vm_compute. repeat split. discriminate. Qed.

(** The same engine on the usual declarations registers nothing: the
    registration line calls [__registerSetup], which received no
    argument. *)
Example engine_registers_no_declared_function :
  let config := engineConfig conventional None None in
  let r := PreviewEngine.initialize config (PreviewEngine.fresh blankCanvas true page) in
  events r = [Warn (CompileError "__registerSetup is not a function")] /\
  registered (PreviewEngine.setupFn (state r)) = false /\
  registered (PreviewEngine.drawFn (state r)) = false.
Proof. vm_compute. repeat split. Qed.

End BindingFacts.

(** ** One tick of the code-mode renderer *)

Module CodeLoopFacts.
Import PreviewTypes CanvasScaler PreviewRuntime Script TopLevel Effects.
Import EffectFacts Traces Samples.
Import CodeRenderer.
Local Open Scope effects_scope.
Local Arguments Z.add : simpl never.
Local Arguments Qeq_bool : simpl never.
Local Arguments scopeOf : simpl never.
Local Arguments PreviewRuntime.set : simpl never.
Local Arguments PreviewRuntime.get : simpl never.
Local Arguments phase : simpl never.
Local Arguments object : simpl never.
Local Arguments isFullClear : simpl never.

Ltac run :=
  unfold loop, CodeRenderer.afterScheduling, schedule, clearCanvas, drawBadge,
    callIfSome, invoke, bind, gets, modify, emit, when, ret, tryCatch,
    events, state, completion, updateTiming in *.

Ltac cases s options :=
  destruct (runtime s); cbn; destruct (drawFn s) eqn:?; cbn;
  try match goal with
      | |- context [thrown (body ?c ?sc)] => destruct (thrown (body c sc)) eqn:?
      end;
  cbn; destruct (showBadge options); cbn.

Lemma fullClear w h : isFullClear w h (Painted (ClearRect identity 0 0 w h)) = true.
Proof.
  unfold isFullClear, matrixEqb. cbn [ma mb mc md me mf identity].
  rewrite !Qeq_bool_refl. reflexivity.
Qed.

Section Loop.
Variable system : NexArtCodeSystem.
Variable options : PreviewOptions.

Lemma loop_clears_before_draw fc s :
  drawsFollowClear (CanvasScaler.width (canvas s)) (CanvasScaler.height (canvas s))
    None (events (loop system options fc s)) = true.
Proof.
  run. cbn.
  destruct (negb (isRunning s) || isDestroyed s); cbn; [reflexivity|].
  cases s options; rewrite ?fullClear; reflexivity.
Qed.

Lemma loop_keeps_canvas fc s : canvas (state (loop system options fc s)) = canvas s.
Proof.
  run. cbn.
  destruct (negb (isRunning s) || isDestroyed s); cbn; [reflexivity|].
  cases s options; destruct (canvas s); reflexivity.
Qed.

Lemma loop_draws_at_most_once fc s :
  (draws (events (loop system options fc s)) <= 1)%nat.
Proof.
  unfold draws. run. cbn.
  destruct (negb (isRunning s) || isDestroyed s); cbn; [lia|].
  cases s options; lia.
Qed.

Lemma loop_draws_when_live fc s cl :
  isRunning s = true -> isDestroyed s = false -> drawFn s = Some cl ->
  draws (events (loop system options fc s)) = 1%nat.
Proof.
  intros R D F. unfold draws. run. cbn. rewrite R, D. cbn.
  destruct (runtime s); cbn; rewrite F; cbn; destruct (thrown _); cbn;
    destruct (showBadge options); reflexivity.
Qed.

Lemma loop_returns fc s :
  exists n, completion (loop system options fc s) = Returned n.
Proof.
  run. cbn.
  destruct (negb (isRunning s) || isDestroyed s); cbn; [eauto|].
  cases s options; eauto.
Qed.

Lemma loop_after_draw_error fc s o msg :
  In (Ran Draw o) (events (loop system options fc s)) ->
  thrown o = Some msg ->
  let r := loop system options fc s in
  events r =
    [RequestFrame (nextFrameId (host s));
     Painted (ClearRect identity 0 0 (CanvasScaler.width (canvas s))
                (CanvasScaler.height (canvas s)));
     Ran Draw o; Warn (DrawError msg)] /\
  completion r = Returned (fc + 1)%Z /\
  isRunning (state r) = true /\ isDestroyed (state r) = false /\
  drawFn (state r) = drawFn s /\ drawFn s <> None /\
  animationId (state r) = Some (nextFrameId (host s)) /\
  In (nextFrameId (host s)) (pendingFrames (host (state r))).
Proof.
  intros H T. revert H. run. cbn.
  destruct (isRunning s) eqn:R; cbn;
    [|intros [H|[]]; discriminate].
  destruct (isDestroyed s) eqn:D; cbn;
    [intros [H|[]]; discriminate|].
  cases s options; intros H;
    repeat (destruct H as [H|H]; try discriminate H);
    try contradiction;
    injection H as <-; try congruence;
    (repeat split; try reflexivity; try congruence;
     apply in_or_app; right; left; reflexivity).
Qed.
End Loop.



End CodeLoopFacts.

(** ** Static renders *)

Module StaticFacts.
Import PreviewTypes CanvasScaler PreviewRuntime Script TopLevel Effects.
Import EffectFacts Traces Samples.
Local Open Scope effects_scope.

(** Events that are neither a draw call, nor a clear, nor a
    registration of a tick, nor a setup call. *)
Definition silent (e : Event) : bool :=
  negb (isRan Draw e) && negb (isClear e) && negb (isRequest e) && negb (isRan Setup e).

Definition isSilent (e : Event) : Prop := silent e = true.

Lemma silent_counts es :
  Forall isSilent es ->
  draws es = 0%nat /\ clears es = 0%nat /\ scheduled es = 0%nat /\ setups es = 0%nat.
Proof.
  intros H. unfold draws, clears, scheduled, setups.
  repeat split; apply count_none; eapply Forall_impl; try exact H;
    intros e He; unfold isSilent, silent in He;
    destruct (isRan Draw e), (isClear e), (isRequest e), (isRan Setup e);
    cbn in He; congruence.
Qed.

Section Code.
Import CodeRenderer.
Variable system : NexArtCodeSystem.
Variable options : PreviewOptions.

Lemma applyAll_silent ds ref cache es : emits isSilent (applyAll ds ref cache es).
Proof.
  induction es as [|e es IH]; cbn [applyAll]; [apply emits_ret|].
  apply emits_bind; [|intros; exact IH].
  destruct e as [[| |] f|o]; cbn; emits_auto.
Qed.

Lemma applyAll_total ds ref cache es : total (applyAll ds ref cache es).
Proof.
  induction es as [|e es IH]; cbn [applyAll]; [apply total_ret|].
  apply total_bind; [|intros; exact IH].
  destruct e as [[| |] f|o]; cbn; total_auto.
Qed.

Lemma compileSource_silent : emits isSilent (compileSource system).
Proof. unfold compileSource. emits_auto. apply applyAll_silent. Qed.

Lemma compileSource_total : total (compileSource system).
Proof. unfold compileSource. total_auto. Qed.

(** A runtime object on top of the heap [h0], and current. *)
Definition allocated (h0 : list Object) (rt : Object) (s : State) : Prop :=
  heap s = h0 ++ [rt] /\ runtime s = Some (length h0).

Lemma applyAll_allocated h0 rt ds ref cache es :
  keeps (allocated h0 rt) (applyAll ds ref cache es).
Proof.
  induction es as [|e es IH]; cbn [applyAll]; [apply keeps_ret|].
  apply keeps_bind; [|intros; exact IH].
  destruct e as [[| |] f|o]; cbn [applyTop];
    first [apply keeps_ret | apply keeps_emit | apply keeps_modify];
    intros s H; exact H.
Qed.

Lemma fresh_counters w h sd vs v :
  let rt := set (createPreviewRuntime w h sd vs) "totalFrames" v in
  get rt "frameCount" = VNum 0 /\ get rt "t" = VNum 0 /\
  get rt "time" = VNum 0 /\ get rt "tGlobal" = VNum 0.
Proof. repeat split; vm_compute; reflexivity. Qed.

(** [compileSource] puts a new runtime object on the heap, makes it
    the current one, and leaves its time-varying fields at 0. *)
Lemma compileSource_allocates s :
  exists rt,
    allocated (heap s) rt (state (compileSource system s)) /\
    get rt "frameCount" = VNum 0 /\ get rt "t" = VNum 0 /\
    get rt "time" = VNum 0 /\ get rt "tGlobal" = VNum 0.
Proof.
  exists (set (createPreviewRuntime (originalWidth (scaled system))
                 (originalHeight (scaled system)) (systemSeed system)
                 (map Finite (normalizedVars system)))
              "totalFrames" (VNum (inject_Z (systemTotalFrames system)))).
  split; [|apply fresh_counters].
  unfold compileSource.
  generalize (set (createPreviewRuntime (originalWidth (scaled system))
                     (originalHeight (scaled system)) (systemSeed system)
                     (map Finite (normalizedVars system)))
                  "totalFrames" (VNum (inject_Z (systemTotalFrames system)))) as rt.
  intros rt. rewrite run_bind_gets. cbv zeta. rewrite run_bind_modify.
  match goal with
  | |- allocated ?h ?r (state (tryCatch ?m ?hd ?x)) =>
      assert (keeps (allocated h r) (tryCatch m hd)) as K
  end.
  { apply keeps_tryCatch; [|intros; apply keeps_emit].
    destruct (source system) as [ds|]; [|apply keeps_throw].
    apply keeps_bind; [apply keeps_gets|]. intros globals.
    match goal with
    | |- context [wrapped ?g ?d ?sc] => destruct (wrapped g d sc) as [es [msg|]]
    end;
      (apply keeps_bind; [apply applyAll_allocated|]); intros _;
      [apply keeps_throw | apply keeps_ret]. }
  apply K. split; reflexivity.
Qed.

(** A static render leaves the runtime object that its compile
    created as the compile made it. *)
Lemma renderStatic_runtime s :
  let r := renderStatic system options s in
  exists rt,
    heap (state r) = heap s ++ [rt] /\ runtime (state r) = Some (length (heap s)) /\
    get rt "frameCount" = VNum 0 /\ get rt "t" = VNum 0 /\
    get rt "time" = VNum 0 /\ get rt "tGlobal" = VNum 0.
Proof.
  destruct (total_run (compileSource system) s compileSource_total) as [[] E].
  destruct (compileSource_allocates s) as (rt & [Hh Hr] & C).
  cbn zeta. exists rt.
  unfold renderStatic, tryCatch.
  erewrite bind_run by exact E.
  set (s1 := state (compileSource system s)) in *.
  set (es := events (compileSource system s)) in *.
  unfold drawBadge, callIfSome, invoke, renderBlackCanvas, bind, gets, modify,
    emit, when, ret, events, state, completion in *.
  cbn. destruct (setupFn s1) eqn:F; cbn;
    try destruct (thrown _); cbn;
    destruct (showBadge options); cbn; destruct (onPreview options); cbn;
    try destruct (onError options); cbn;
    (split; [exact Hh|]); (split; [exact Hr|]); exact C.
Qed.

Lemma renderStatic_counts s :
  let r := renderStatic system options s in
  draws (events r) = 0%nat /\ clears (events r) = 0%nat /\
  scheduled (events r) = 0%nat /\
  setups (events r) = match setupFn (state r) with Some _ => 1%nat | None => 0%nat end /\
  exists u, completion r = Returned u.
Proof.
  destruct (total_run (compileSource system) s compileSource_total) as [[] E].
  destruct (silent_counts _ (compileSource_silent s)) as (D & C & R & U).
  unfold renderStatic, tryCatch.
  erewrite bind_run by exact E.
  set (s1 := state (compileSource system s)) in *.
  set (es := events (compileSource system s)) in *.
  unfold draws, clears, scheduled, setups, drawBadge, callIfSome, invoke,
    renderBlackCanvas, bind, gets, modify, emit, when, ret,
    events, state, completion in *.
  cbn. destruct (setupFn s1) eqn:F; cbn;
    try destruct (thrown _); cbn;
    destruct (showBadge options); cbn; destruct (onPreview options); cbn;
    try destruct (onError options); cbn;
    rewrite ?F, ?count_app, ?D, ?C, ?R, ?U; cbn; eauto 10.
Qed.
End Code.

Section Engine.
Import PreviewEngine.

Lemma engine_renderStatic_runtime t1 t2 e :
  let r := renderStatic t1 t2 e in
  runtime (state r) = runtime e /\
  internalFrameCount (state r) = internalFrameCount e.
Proof.
  unfold renderStatic, callIfSome, invoke, tryCatch, bind, gets, modify, emit, ret,
    events, state, completion.
  cbn. destruct (setupFn e); cbn; try destruct (thrown _); cbn; auto.
Qed.

Lemma engine_renderStatic_counts t1 t2 e :
  let r := renderStatic t1 t2 e in
  draws (events r) = 0%nat /\ clears (events r) = 0%nat /\
  scheduled (events r) = 0%nat /\
  setups (events r) = match setupFn e with Some _ => 1%nat | None => 0%nat end /\
  exists res, completion r = Returned res.
Proof.
  unfold renderStatic, draws, clears, scheduled, setups, callIfSome, invoke,
    tryCatch, bind, gets, modify, emit, ret, events, state, completion.
  cbn. destruct (setupFn e); cbn; try destruct (thrown _); cbn; eauto 10.
Qed.
End Engine.

(** C9, as the code has it.  A static render, in either renderer, is
    one synchronous pass that calls [setupFn] once when one is
    registered; it never calls [drawFn], never clears the buffer,
    registers no tick, and returns.  It does not refresh the
    time-varying fields.  The code-mode renderer compiles against a
    runtime object that it creates, whose [frameCount], [t], [time]
    and [tGlobal] are 0, and leaves it so; the preview engine leaves
    its runtime object and its frame counter as they were. *)
Theorem static_render_runs_setup_only :
  (forall system options s,
      let r := CodeRenderer.renderStatic system options s in
      draws (events r) = 0%nat /\ clears (events r) = 0%nat /\
      scheduled (events r) = 0%nat /\
      setups (events r) =
        match CodeRenderer.setupFn (state r) with Some _ => 1%nat | None => 0%nat end /\
      (exists u, completion r = Returned u) /\
      exists rt,
        CodeRenderer.heap (state r) = CodeRenderer.heap s ++ [rt] /\
        CodeRenderer.runtime (state r) = Some (length (CodeRenderer.heap s)) /\
        get rt "frameCount" = VNum 0 /\ get rt "t" = VNum 0 /\
        get rt "time" = VNum 0 /\ get rt "tGlobal" = VNum 0) /\
  (forall t1 t2 e,
      let r := PreviewEngine.renderStatic t1 t2 e in
      draws (events r) = 0%nat /\ clears (events r) = 0%nat /\
      scheduled (events r) = 0%nat /\
      setups (events r) =
        match PreviewEngine.setupFn e with Some _ => 1%nat | None => 0%nat end /\
      (exists res, completion r = Returned res) /\
      PreviewEngine.runtime (state r) = PreviewEngine.runtime e /\
      PreviewEngine.internalFrameCount (state r) = PreviewEngine.internalFrameCount e).
Proof.
  split.
  - intros system options s r.
    destruct (renderStatic_counts system options s) as (D & C & R & U & T).
    repeat (split; [assumption|]). apply renderStatic_runtime.
  - intros t1 t2 e r.
    destruct (engine_renderStatic_counts t1 t2 e) as (D & C & R & U & T).
    repeat (split; [assumption|]). apply engine_renderStatic_runtime.
Qed.

(** In the engine a static render after a loop finds the frame counter
    where the loop left it. *)
Example engine_static_render_keeps_counter :
  let config := engineConfig (callsDraw (paints "frameCount")) None None in
  let e0 := PreviewEngine.create config blankCanvas true page in
  let e1 := fst (calls config [CallStartLoop 0; CallFrame 16; CallFrame 32;
                               CallFrame 48; CallStopLoop] e0) in
  let r := PreviewEngine.renderStatic 64 65 e1 in
  PreviewEngine.internalFrameCount (state r) = 3%Z /\
  match PreviewEngine.runtime (state r) with
  | Some rt => get rt "frameCount" = VNum 3
  | None => False
  end.
Proof. vm_compute. split; reflexivity. Qed.

(** C9 fails as stated: a static render of a script that declares
    [setup] and [draw] registers both, calls [setup], and neither
    clears nor calls [draw]. *)
Lemma static_render_never_draws :
  let system := codeSystem conventional ModeStatic in
  let s0 := CodeRenderer.renderCodeModeSystem system blankCanvas page in
  let r := CodeRenderer.render system codeOptions s0 in
  registered (CodeRenderer.drawFn (state r)) = true /\
  draws (events r) = 0%nat /\ clears (events r) = 0%nat /\
  setups (events r) = 1%nat.
Proof. vm_compute. repeat split. Qed.

End StaticFacts.

(** ** Errors thrown by [drawFn] *)

Module ErrorFacts.
Import PreviewTypes CanvasScaler PreviewRuntime Script TopLevel Effects.
Import EffectFacts Traces Samples.

(** C10.  A tick returns whatever [drawFn] does.  When [drawFn]
    throws, the tick's trace ends with that call and the logged
    warning (nothing is painted after it), the renderer is still
    running with the same draw function, and the tick registered at
    the start of this one is still pending; in the code-mode renderer
    the next tick calls [drawFn] again. *)
Theorem draw_error_is_caught_per_tick :
  (forall system options frameCount s,
      let r := CodeRenderer.loop system options frameCount s in
      (exists n, completion r = Returned n) /\
      forall o msg,
        In (Ran Draw o) (events r) -> thrown o = Some msg ->
        (exists before, events r = before ++ [Ran Draw o; Warn (DrawError msg)]) /\
        CodeRenderer.isRunning (state r) = true /\
        CodeRenderer.isDestroyed (state r) = false /\
        CodeRenderer.drawFn (state r) = CodeRenderer.drawFn s /\
        In (nextFrameId (CodeRenderer.host s))
           (pendingFrames (CodeRenderer.host (state r))) /\
        forall n, draws (events (CodeRenderer.loop system options n (state r))) = 1%nat) /\
  (forall config now e,
      let r := PreviewEngine.frame config now e in
      completion r = Returned tt /\
      forall o msg,
        In (Ran Draw o) (events r) -> thrown o = Some msg ->
        (exists before, events r = before ++ [Ran Draw o; Warn (DrawError msg)]) /\
        PreviewEngine.running (state r) = true /\
        PreviewEngine.drawFn (state r) = PreviewEngine.drawFn e /\
        In (nextFrameId (PreviewEngine.host e))
           (pendingFrames (PreviewEngine.host (state r)))).
Proof.
  split.
  - intros system options fc s r. split; [apply CodeLoopFacts.loop_returns|].
    intros o msg H T.
    destruct (CodeLoopFacts.loop_after_draw_error system options fc s o msg H T)
      as (E & _ & R & D & F & N & _ & P).
    fold r in E, R, D, F, P.
    split; [rewrite E; now exists
      [RequestFrame (nextFrameId (CodeRenderer.host s));
       Painted (ClearRect identity 0 0
                  (CanvasScaler.width (CodeRenderer.canvas s))
                  (CanvasScaler.height (CodeRenderer.canvas s)))]|].
    repeat split; try assumption.
    intros n. destruct (CodeRenderer.drawFn s) as [cl|] eqn:G; [|congruence].
    apply (CodeLoopFacts.loop_draws_when_live system options n (state r) cl R D F).
  - intros config now e r. split; [apply BudgetFacts.frame_returns|].
    intros o msg H T.
    destruct (BudgetFacts.frame_after_draw_error config now e o msg H T)
      as (E & R & F & _ & _ & P).
    repeat split; assumption.
Qed.

Lemma draw_error_is_caught_per_tick_witness :
  let system := codeSystem (Some [SFunction "draw" (throws "boom")]) ModeLoop in
  let s0 := CodeRenderer.renderCodeModeSystem system blankCanvas page in
  let s1 := state (CodeRenderer.start system codeOptions s0) in
  let r := CodeRenderer.loop system codeOptions 0 s1 in
  let o := {| painted := []; thrown := Some "boom" |} in
  (exists before, events r = before ++ [Ran Draw o; Warn (DrawError "boom")]) /\
  CodeRenderer.isRunning (state r) = true /\
  let config := engineConfig (callsDraw (throws "boom")) None None in
  let e1 := fst (calls config [CallStartLoop 0]
                   (PreviewEngine.create config blankCanvas true page)) in
  let q := PreviewEngine.frame config 16 e1 in
  (exists before, events q = before ++ [Ran Draw o; Warn (DrawError "boom")]) /\
  PreviewEngine.running (state q) = true.
Proof.
  intros system s0 s1 r o.
  destruct (proj1 draw_error_is_caught_per_tick system codeOptions 0%Z s1) as [_ H].
  destruct (H o "boom") as (E & R & _).
  - vm_compute. right. right. left. reflexivity.
  - reflexivity.
  - split; [exact E|]. split; [exact R|].
    intros config e1 q.
    destruct (proj2 draw_error_is_caught_per_tick config 16 e1) as [_ G].
    assert (In (Ran Draw o) (events q)) as I
      by (vm_compute; right; left; reflexivity).
    destruct (G o "boom" I eq_refl) as (E' & R' & _).
    split; [exact E' | exact R'].
Defined.

(** A draw function that throws on odd frames: tick 1 logs the error,
    tick 2 paints. *)
Example code_loop_recovers_after_error :
  let system := codeSystem (Some [SFunction "draw" throwsOnOddFrames]) ModeLoop in
  let s0 := CodeRenderer.renderCodeModeSystem system blankCanvas page in
  let s1 := state (CodeRenderer.start system codeOptions s0) in
  let trace := snd (loops system codeOptions 2 0 s1) in
  paintedBy Draw trace = [VNum 2] /\ draws trace = 2%nat /\ scheduled trace = 2%nat.
Proof. vm_compute. repeat split. Qed.

End ErrorFacts.

(** ** Semantic dimensions *)

Module DimensionFacts.
Import PreviewTypes CanvasScaler PreviewRuntime Script TopLevel Effects.
Import EffectFacts Traces Samples.
Local Open Scope effects_scope.

(** A runtime object, a static cache or a parameter list that holds
    the dimensions [w] x [h]. *)
Definition objectHolds (w h : Q) (rt : Object) : Prop :=
  get rt "width" = VNum w /\ get rt "height" = VNum h.

Definition mapHolds (w h : Q) (m : gmap string Value) : Prop :=
  m !! "width" = Some (VNum w) /\ m !! "height" = Some (VNum h).

Lemma get_set_other o k k' v : k <> k' -> get (set o k v) k' = get o k'.
Proof.
  intros N. induction o as [|[k0 v0] o IH]; cbn.
  - destruct (String.eqb_spec k k'); [contradiction | reflexivity].
  - destruct (String.eqb_spec k0 k) as [->|]; cbn.
    + destruct (String.eqb_spec k k'); [contradiction | reflexivity].
    + destruct (String.eqb_spec k0 k'); [reflexivity | exact IH].
Qed.

Lemma get_set_same o k v : get (set o k v) k = v.
Proof.
  induction o as [|[k0 v0] o IH]; cbn.
  - now rewrite String.eqb_refl.
  - destruct (String.eqb_spec k0 k) as [->|N]; cbn.
    + now rewrite String.eqb_refl.
    + destruct (String.eqb_spec k0 k); [contradiction | exact IH].
Qed.

Lemma timing_keeps_dimensions w h rt a b c d :
  objectHolds w h rt ->
  objectHolds w h
    (set (set (set (set rt "frameCount" a) "t" b) "time" c) "tGlobal" d).
Proof.
  intros [W H]. unfold objectHolds.
  rewrite !get_set_other by discriminate. now split.
Qed.

Section Code.
Import CodeRenderer.
Variable system : NexArtCodeSystem.
Variable options : PreviewOptions.

Definition closuresHold (s : State) : Prop :=
  forall cl, setupFn s = Some cl \/ drawFn s = Some cl ->
             mapHolds (width system) (height system) (staticCache cl).

Definition heapHolds (s : State) : Prop :=
  forall ref rt, heap s !! ref = Some rt ->
                 objectHolds (width system) (height system) rt.

Definition semantic (s : State) : Prop := closuresHold s /\ heapHolds s.

Definition freshRuntime : Object :=
  set (createPreviewRuntime (originalWidth (scaled system))
         (originalHeight (scaled system)) (systemSeed system)
         (map Finite (normalizedVars system)))
      "totalFrames" (VNum (inject_Z (systemTotalFrames system))).

Lemma freshRuntime_holds : objectHolds (width system) (height system) freshRuntime.
Proof.
  unfold freshRuntime, scaled.
  destruct (ScalerFacts.original_dimensions
              (Float64.Fin (width system)) (Float64.Fin (height system))) as [-> ->].
  split; vm_compute; reflexivity.
Qed.

Lemma freshCache_holds :
  mapHolds (width system) (height system) (buildStaticCache freshRuntime).
Proof.
  unfold freshRuntime, scaled.
  destruct (ScalerFacts.original_dimensions
              (Float64.Fin (width system)) (Float64.Fin (height system))) as [-> ->].
  split; vm_compute; reflexivity.
Qed.

Lemma applyAll_semantic ds ref cache es :
  mapHolds (width system) (height system) cache ->
  keeps semantic (applyAll ds ref cache es).
Proof.
  intros M. induction es as [|e es IH]; cbn [applyAll]; [apply keeps_ret|].
  apply keeps_bind; [|intros; exact IH].
  destruct e as [[| |] f|o]; cbn [applyTop];
    first [apply keeps_ret | apply keeps_emit | apply keeps_modify];
    intros s [C H]; (split; [|exact H]); intros cl [E|E]; cbn in E;
    try (injection E as <-; exact M);
    apply C; auto.
Qed.

Lemma allocate_semantic ref :
  keeps semantic
    (modify (fun s => setRuntime (Some ref) (setHeap (heap s ++ [freshRuntime]) s))
     : M State unit).
Proof.
  apply keeps_modify. intros s [C H]. split; [exact C|].
  intros ref' rt. cbn [heap setRuntime setHeap]. intros L.
  apply lookup_app_Some in L as [L|[_ L]]; [eapply H; exact L|].
  apply list_lookup_singleton_Some in L as [_ <-]. apply freshRuntime_holds.
Qed.

Lemma compileSource_semantic : keeps semantic (compileSource system).
Proof.
  unfold compileSource. fold freshRuntime.
  pose proof freshCache_holds as M. revert M.
  generalize (buildStaticCache freshRuntime) as cache.
  generalize freshRuntime at 2 as rt. intros rt cache M.
  apply keeps_bind; [apply keeps_gets|]. intros ref. cbv zeta.
  apply keeps_bind; [apply allocate_semantic|]. intros _.
  apply keeps_tryCatch; [|intros; apply keeps_emit].
  destruct (source system) as [ds|]; [|apply keeps_throw].
  apply keeps_bind; [apply keeps_gets|]. intros globals.
  destruct (wrapped globals ds (scopeOf ds rt cache)) as [es [msg|]];
    (apply keeps_bind; [now apply applyAll_semantic|]); intros _;
    [apply keeps_throw | apply keeps_ret].
Qed.

Lemma invoke_semantic ph cl : keeps semantic (invoke ph cl).
Proof. intros s H. unfold state, invoke. destruct (thrown _); exact H. Qed.

Lemma callIfSome_semantic ph f : keeps semantic (callIfSome ph f).
Proof. destruct f; [apply invoke_semantic | apply keeps_ret]. Qed.

Lemma renderStatic_semantic : keeps semantic (renderStatic system options).
Proof.
  unfold renderStatic, drawBadge, renderBlackCanvas.
  keeps_using ltac:(first [apply compileSource_semantic | apply callIfSome_semantic]).
Qed.

Lemma schedule_semantic : keeps semantic schedule.
Proof. intros s H. exact H. Qed.

Lemma clearCanvas_semantic : keeps semantic clearCanvas.
Proof. intros s H. exact H. Qed.

Lemma renderLoop_semantic : keeps semantic (renderLoop system options).
Proof.
  unfold renderLoop, renderBlackCanvas.
  keeps_using ltac:(first [apply compileSource_semantic | apply callIfSome_semantic
          | apply renderStatic_semantic | apply schedule_semantic]);
    intros s H; exact H.
Qed.

Lemma stop_semantic : keeps semantic stop.
Proof. unfold stop. keeps_using fail; intros s H; exact H. Qed.

Lemma render_semantic : keeps semantic (render system options).
Proof.
  unfold render.
  keeps_using ltac:(first [apply renderStatic_semantic | apply renderLoop_semantic]).
Qed.

Lemma start_semantic : keeps semantic (start system options).
Proof.
  unfold start.
  keeps_using ltac:(first [apply stop_semantic | apply renderStatic_semantic
          | apply renderLoop_semantic]).
Qed.

Lemma destroy_semantic : keeps semantic destroy.
Proof.
  unfold destroy.
  keeps_using ltac:(first [apply stop_semantic | apply clearCanvas_semantic]);
    intros s [C H]; (split; [|exact H]); intros cl [E|E]; cbn in E;
    try discriminate; apply C; auto.
Qed.

Lemma updateTiming_semantic fc s : semantic s -> semantic (updateTiming system fc s).
Proof.
  intros [C H]. unfold updateTiming. destruct (runtime s) as [ref|]; [|now split].
  split; [exact C|]. intros ref' rt. cbn. intros L.
  destruct (decide (ref = ref')) as [<-|N].
  - destruct (heap s !! ref) as [old|] eqn:O.
    + rewrite list_lookup_insert_eq in L by (eapply lookup_lt_Some; exact O).
      injection L as <-. apply timing_keeps_dimensions.
      unfold object. rewrite O. eapply H; exact O.
    + rewrite list_insert_ge in L by (now apply lookup_ge_None).
      congruence.
  - rewrite list_lookup_insert_ne in L by exact N. eapply H; exact L.
Qed.

Lemma loop_semantic fc : keeps semantic (loop system options fc).
Proof.
  unfold loop, CodeRenderer.afterScheduling, drawBadge.
  keeps_using ltac:(first [apply schedule_semantic | apply clearCanvas_semantic
          | apply callIfSome_semantic]);
    apply updateTiming_semantic.
Qed.

Lemma perform_semantic op sf :
  semantic (fst sf) -> semantic (fst (fst (perform system options op sf))).
Proof.
  destruct sf as [s fc]. intros H. destruct op; cbn [perform fst].
  - now apply render_semantic.
  - now apply start_semantic.
  - now apply stop_semantic.
  - now apply destroy_semantic.
  - cbn [loops]. now apply loop_semantic.
Qed.

Lemma performAll_semantic ops : forall sf,
  semantic (fst sf) -> semantic (fst (fst (performAll system options ops sf))).
Proof.
  induction ops as [|op ops IH]; intros sf H; [exact H|].
  cbn [performAll]. pose proof (perform_semantic op sf H) as H1.
  destruct (perform system options op sf) as [sf' es]. cbn [fst] in H1.
  specialize (IH sf' H1).
  destruct (performAll system options ops sf') as [sf'' es']. exact IH.
Qed.

Lemma visible_through_proxy rt cache :
  mapHolds (width system) (height system) cache ->
  scopeOf [] rt cache "width" = Found (VNum (width system)) /\
  scopeOf [] rt cache "height" = Found (VNum (height system)).
Proof.
  intros [W H]. unfold scopeOf, proxyHas, proxyGet, knownKeys. cbn [declared].
  rewrite !bool_decide_eq_true_2.
  - change (isLive "width") with false. change (isLive "height") with false.
    cbn. now rewrite W, H.
  - apply elem_of_union_l, elem_of_union_r, elem_of_dom. now rewrite H.
  - apply elem_of_union_l, elem_of_union_r, elem_of_dom. now rewrite W.
Qed.
End Code.

Section Engine.
Import PreviewEngine.
Variable config : PreviewEngineConfig.

Definition engineSemantic (e : Engine) : Prop :=
  (forall rt, runtime e = Some rt -> objectHolds (width config) (height config) rt) /\
  (forall cl, setupFn e = Some cl \/ drawFn e = Some cl ->
              mapHolds (width config) (height config) (params cl)).

Lemma runtime_holds w h sd vs v :
  objectHolds w h
    (set (createPreviewRuntime (Float64.Fin w) (Float64.Fin h) sd vs) "totalFrames" v).
Proof. split; vm_compute; reflexivity. Qed.

Lemma params_hold w h sd vs v :
  mapHolds w h
    (bindParams
       ((keys (set (createPreviewRuntime (Float64.Fin w) (Float64.Fin h) sd vs)
                   "totalFrames" v) ++
         ["setup"; "draw"]) ++ ["__registerSetup"; "__registerDraw"])
       (values (set (createPreviewRuntime (Float64.Fin w) (Float64.Fin h) sd vs)
                    "totalFrames" v) ++
        [VRegisterSetup; VRegisterDraw])).
Proof. split; vm_compute; reflexivity. Qed.

Lemma engine_applyAll_semantic ds ps es :
  mapHolds (width config) (height config) ps ->
  keeps engineSemantic (applyAll ds ps es).
Proof.
  intros M. induction es as [|ef es IH]; cbn [applyAll]; [apply keeps_ret|].
  apply keeps_bind; [|intros; exact IH].
  destruct ef as [[| |] f|o]; cbn [applyTop];
    first [apply keeps_ret | apply keeps_emit | apply keeps_modify];
    intros e [R C]; (split; [exact R|]); intros cl [E|E]; cbn in E;
    try (injection E as <-; exact M);
    apply C; auto.
Qed.

Lemma engine_compileSource_semantic rt :
  mapHolds (width config) (height config)
    (bindParams ((keys rt ++ ["setup"; "draw"]) ++
                 ["__registerSetup"; "__registerDraw"])
                (values rt ++ [VRegisterSetup; VRegisterDraw])) ->
  keeps engineSemantic (compileSource config rt).
Proof.
  unfold compileSource. cbv zeta.
  generalize (bindParams ((keys rt ++ ["setup"; "draw"]) ++
                 ["__registerSetup"; "__registerDraw"])
                (values rt ++ [VRegisterSetup; VRegisterDraw])) as ps.
  intros ps M.
  destruct (source config) as [ds|]; [|apply keeps_throw].
  apply keeps_bind; [apply keeps_gets|]. intros globals.
  destruct (wrapped globals ds (scopeOf ds ps)) as [es [msg|]];
    (apply keeps_bind; [now apply engine_applyAll_semantic|]); intros _;
    [apply keeps_throw | apply keeps_ret].
Qed.

Lemma initialize_steps_semantic d rt :
  objectHolds (width config) (height config) rt ->
  mapHolds (width config) (height config)
    (bindParams ((keys rt ++ ["setup"; "draw"]) ++
                 ["__registerSetup"; "__registerDraw"])
                (values rt ++ [VRegisterSetup; VRegisterDraw])) ->
  keeps engineSemantic
    (modify (setScaled (Some d)) ;;
     modify (fun e => setCanvas (applyScaledDimensions (canvas e) d) e) ;;
     modify (fun e => setCanvas (reapplyContextScale (canvas e) d) e) ;;
     modify (setRuntime (Some rt)) ;;
     tryCatch (compileSource config rt) (fun msg => emit (Warn (CompileError msg)))).
Proof.
  intros O P.
  apply keeps_bind; [apply keeps_modify; intros e H; exact H|]. intros _.
  apply keeps_bind; [apply keeps_modify; intros e H; exact H|]. intros _.
  apply keeps_bind; [apply keeps_modify; intros e H; exact H|]. intros _.
  apply keeps_bind.
  - apply keeps_modify. intros e [R C]. split; [|exact C].
    intros rt' E. cbn in E. injection E as <-. exact O.
  - intros _. apply keeps_tryCatch; [|intros; apply keeps_emit].
    now apply engine_compileSource_semantic.
Qed.

Lemma initialize_semantic : keeps engineSemantic (initialize config).
Proof.
  unfold initialize. cbv zeta.
  destruct (ScalerFacts.original_dimensions
              (Float64.Fin (width config)) (Float64.Fin (height config))) as [W H].
  rewrite W, H.
  apply initialize_steps_semantic; [apply runtime_holds | apply params_hold].
Qed.

Lemma engine_invoke_semantic ph cl : keeps engineSemantic (invoke ph cl).
Proof. intros e H. unfold state, invoke. destruct (thrown _); exact H. Qed.

Lemma engine_callIfSome_semantic ph f : keeps engineSemantic (callIfSome ph f).
Proof. destruct f; [apply engine_invoke_semantic | apply keeps_ret]. Qed.

Lemma requestFrame_semantic : keeps engineSemantic requestFrame.
Proof. intros e H. exact H. Qed.

Lemma removeOverlay_semantic : keeps engineSemantic removeOverlay.
Proof. unfold removeOverlay. keeps_using fail; intros e H; exact H. Qed.

Lemma stopLoop_semantic : keeps engineSemantic stopLoop.
Proof. unfold stopLoop. keeps_using fail; intros e H; exact H. Qed.

Lemma showBudgetOverlay_semantic r : keeps engineSemantic (showBudgetOverlay config r).
Proof. unfold showBudgetOverlay. keeps_using fail; intros e H; exact H. Qed.

Lemma handleBudgetExceeded_semantic now r :
  keeps engineSemantic (handleBudgetExceeded config now r).
Proof.
  unfold handleBudgetExceeded.
  keeps_using ltac:(first [apply showBudgetOverlay_semantic | apply stopLoop_semantic]);
    intros e H; exact H.
Qed.

Lemma checkBudget_semantic now : keeps engineSemantic (checkBudget config now).
Proof.
  unfold checkBudget. keeps_using ltac:(apply handleBudgetExceeded_semantic).
Qed.

Lemma engine_updateTiming_semantic e :
  engineSemantic e -> engineSemantic (updateTiming config e).
Proof.
  intros H. unfold updateTiming. destruct (runtime e) as [rt|] eqn:E; [|exact H].
  destruct H as [R C]. split; [|exact C].
  intros rt' E'. cbn in E'. injection E' as <-.
  apply timing_keeps_dimensions. apply R. exact E.
Qed.

Lemma frame_semantic now : keeps engineSemantic (frame config now).
Proof.
  unfold frame, scheduleNextFrame, afterScheduling.
  keeps_using ltac:(first [apply requestFrame_semantic | apply checkBudget_semantic
                          | apply engine_callIfSome_semantic]);
    first [apply engine_updateTiming_semantic | (intros e H; exact H)].
Qed.

Lemma startLoop_semantic now : keeps engineSemantic (startLoop now).
Proof.
  unfold startLoop, scheduleNextFrame.
  keeps_using ltac:(first [apply requestFrame_semantic | apply removeOverlay_semantic
                          | apply engine_callIfSome_semantic]);
    intros e H; exact H.
Qed.

Lemma engine_renderStatic_semantic t1 t2 : keeps engineSemantic (renderStatic t1 t2).
Proof.
  unfold renderStatic.
  keeps_using ltac:(apply engine_callIfSome_semantic); intros e H; exact H.
Qed.

Lemma engine_destroy_semantic : keeps engineSemantic destroy.
Proof.
  unfold destroy.
  keeps_using ltac:(first [apply stopLoop_semantic | apply removeOverlay_semantic]);
    intros e [R C]; split; cbn; try (intros; discriminate);
    try exact R; intros cl [E|E]; try discriminate; apply C; auto.
Qed.

Lemma call_semantic c e :
  engineSemantic e -> engineSemantic (fst (call config c e)).
Proof.
  intros H. destruct c; cbn [call fst].
  - now apply engine_renderStatic_semantic.
  - now apply startLoop_semantic.
  - now apply stopLoop_semantic.
  - now apply engine_destroy_semantic.
  - now apply frame_semantic.
Qed.

Lemma calls_semantic cs : forall e,
  engineSemantic e -> engineSemantic (fst (calls config cs e)).
Proof.
  induction cs as [|c cs IH]; intros e H; [exact H|].
  cbn [calls]. pose proof (call_semantic c e H) as H1.
  destruct (call config c e) as [e' es]. cbn [fst] in H1.
  specialize (IH e' H1). destruct (calls config cs e') as [e'' es']. exact IH.
Qed.

Lemma create_semantic c parent h : engineSemantic (create config c parent h).
Proof.
  unfold create. apply initialize_semantic.
  split; [intros rt E | intros cl [E|E]]; discriminate.
Qed.
End Engine.

(** What the sandbox of a registered function binds an identifier to
    (a script's own declaration of the same name would shadow it). *)
Definition codeSandbox (s : CodeRenderer.State) (cl : CodeRenderer.Closure) : Scope :=
  CodeRenderer.scopeOf [] (CodeRenderer.object s (CodeRenderer.runtimeRef cl))
    (CodeRenderer.staticCache cl).

Definition engineSandbox (cl : PreviewEngine.Closure) : Scope :=
  PreviewEngine.scopeOf [] (PreviewEngine.params cl).

Definition sees (w h : Q) (scope : Scope) : Prop :=
  scope "width" = Found (VNum w) /\ scope "height" = Found (VNum h).

(** C2.  Whatever is called on a renderer after its construction and
    however many ticks run, the functions it has registered see
    [width] and [height] bound to the requested dimensions, and so
    does the engine's runtime object.  When the geometry was scaled
    these are not the buffer's dimensions: the longer side was cut
    down to the cap. *)
Theorem scripts_see_requested_dimensions :
  (forall system options ops canvas host,
      let s := fst (fst (performAll system options ops
                  (CodeRenderer.renderCodeModeSystem system canvas host, 0%Z))) in
      forall cl,
        CodeRenderer.setupFn s = Some cl \/ CodeRenderer.drawFn s = Some cl ->
        sees (CodeRenderer.width system) (CodeRenderer.height system) (codeSandbox s cl)) /\
  (forall config cs canvas parent host,
      let e := fst (calls config cs (PreviewEngine.create config canvas parent host)) in
      (forall rt, PreviewEngine.runtime e = Some rt ->
                  objectHolds (PreviewEngine.width config) (PreviewEngine.height config) rt) /\
      forall cl,
        PreviewEngine.setupFn e = Some cl \/ PreviewEngine.drawFn e = Some cl ->
        sees (PreviewEngine.width config) (PreviewEngine.height config) (engineSandbox cl)) /\
  (forall w h,
      Float64.isNumber w = true -> Float64.isNumber h = true ->
      let d := calculateScaledDimensions w h in
      wasScaled d = true ->
      originalWidth d = w /\ originalHeight d = h /\
      ~ (Float64.strictEq w (renderWidth d) = true /\
         Float64.strictEq h (renderHeight d) = true)).
Proof.
  split; [|split].
  - intros system options ops canvas host s cl H.
    assert (semantic system s) as [C _].
    { apply (performAll_semantic system options ops
               (CodeRenderer.renderCodeModeSystem system canvas host, 0%Z)).
      split; [intros c [E|E]; discriminate|].
      intros ref rt E. cbn in E. rewrite lookup_nil in E. discriminate. }
    apply visible_through_proxy, C, H.
  - intros config cs canvas parent host e.
    assert (engineSemantic config e) as [R C].
    { apply calls_semantic, create_semantic. }
    split; [exact R|]. intros cl H. destruct (C cl H) as [W Hh].
    unfold sees, engineSandbox, PreviewEngine.scopeOf. cbn [declared].
    now rewrite W, Hh.
  - intros w h Rw Rh d S.
    destruct (ScalerFacts.original_dimensions w h) as [OW OH].
    split; [exact OW|]. split; [exact OH|].
    now apply ScalerFacts.scaled_changes_a_side.
Qed.
Lemma scripts_see_requested_dimensions_witness :
  let system := codeSystem conventional ModeLoop in
  let s := fst (fst (performAll system codeOptions [OpStart; OpTick]
              (CodeRenderer.renderCodeModeSystem system blankCanvas page, 0%Z))) in
  match CodeRenderer.drawFn s with
  | Some cl => sees 1950 2400 (codeSandbox s cl)
  | None => False
  end /\
  (let config := engineConfig (callsDraw (paints "width")) None None in
   let e := fst (calls config [CallStartLoop 0; CallFrame 16]
                   (PreviewEngine.create config blankCanvas true page)) in
   match PreviewEngine.drawFn e with
   | Some cl => sees 1950 2400 (engineSandbox cl)
   | None => False
   end) /\
  let d := calculateScaledDimensions (Float64.Fin 1950) (Float64.Fin 2400) in
  ~ (Float64.strictEq (Float64.Fin 1950) (renderWidth d) = true /\
     Float64.strictEq (Float64.Fin 2400) (renderHeight d) = true).
Proof.
  intros system s. split; [|split].
  - assert (registered (CodeRenderer.drawFn s) = true) as R
      by (vm_compute; reflexivity).
    destruct (CodeRenderer.drawFn s) as [cl|] eqn:E; [|discriminate R].
    apply (proj1 scripts_see_requested_dimensions system codeOptions
             [OpStart; OpTick] blankCanvas page cl).
    right. exact E.
  - intros config e.
    assert (registered (PreviewEngine.drawFn e) = true) as R
      by (vm_compute; reflexivity).
    destruct (PreviewEngine.drawFn e) as [cl|] eqn:E; [|discriminate R].
    pose proof (proj1 (proj2 scripts_see_requested_dimensions) config
                  [CallStartLoop 0; CallFrame 16] blankCanvas true page) as [_ H].
    apply H. right. exact E.
  - apply (proj2 (proj2 scripts_see_requested_dimensions)
             (Float64.Fin 1950) (Float64.Fin 2400));
      vm_compute; reflexivity.
Defined.

End DimensionFacts.

(** * Further properties of the modelled code *)

(** ** canvas-scaler.ts *)

Module ScalerExtras.
Import PreviewTypes Float64 CanvasScaler ScalerFacts.

Lemma below_cap_max a b :
  leb a (Fin MAX_DIMENSION) = true -> leb b (Fin MAX_DIMENSION) = true ->
  leb (Math_max a b) (Fin MAX_DIMENSION) = true.
Proof.
  intros A B. destruct a as [p| |s], b as [q| |t]; try discriminate;
    unfold Math_max;
    match goal with |- context [if ?c then _ else _] => destruct c end;
    assumption.
Qed.

(** For finite requested sides the buffer never exceeds the cap,
    scaled or not. *)
Theorem buffer_fits_cap (w h : Number) :
  isFinite w = true -> isFinite h = true ->
  let d := calculateScaledDimensions w h in
  leb (renderWidth d) (Fin MAX_DIMENSION) = true /\
  leb (renderHeight d) (Fin MAX_DIMENSION) = true.
Proof.
  intros Fw Fh d. destruct (wasScaled d) eqn:S.
  - now apply buffer_within_cap.
  - subst d. unfold calculateScaledDimensions in *.
    destruct (leb (Math_max w h) (Fin MAX_DIMENSION)) eqn:E; [|discriminate S].
    cbn [renderWidth renderHeight].
    destruct w as [x| |]; try discriminate. destruct h as [y| |]; try discriminate.
    destruct (max_finite x y) as (m & M & X & Y & _). rewrite M in E.
    cbn [leb] in *. apply Qle_bool_iff in E.
    split; apply Qle_bool_iff; eapply Qle_trans; eassumption.
Qed.

Lemma buffer_fits_cap_witness :
  let d := calculateScaledDimensions (Fin 157) (Fin 1256) in
  leb (renderWidth d) (Fin MAX_DIMENSION) = true /\
  leb (renderHeight d) (Fin MAX_DIMENSION) = true.
Proof.
  apply (buffer_fits_cap (Fin 157) (Fin 1256)); vm_compute; reflexivity.
Defined.

(** 157 x 1256 in double arithmetic: the factor 900 / 1256 and then
    the product 157 * factor are each rounded, and the product falls
    just below 112.5, so the buffer is 112 wide; the exact product is
    112.5 and would give 113. *)
Example buffer_157_1256 :
  let d := calculateScaledDimensions (Fin 157) (Fin 1256) in
  renderWidth d = Fin 112 /\ renderHeight d = Fin 900 /\
  Qfloor (157 * (900 / 1256) + (1 # 2)) = 113%Z.
Proof. vm_compute. repeat split. Qed.

(** Scaling the buffer's own size again changes nothing: for finite
    requested sides it is already within the cap. *)
Theorem rescaling_is_identity (w h : Number) :
  isFinite w = true -> isFinite h = true ->
  let d := calculateScaledDimensions w h in
  let d' := calculateScaledDimensions (renderWidth d) (renderHeight d) in
  wasScaled d' = false /\
  renderWidth d' = renderWidth d /\ renderHeight d' = renderHeight d /\
  scaleFactor d' = Fin 1.
Proof.
  intros Fw Fh d d'.
  assert (leb (Math_max (renderWidth d) (renderHeight d)) (Fin MAX_DIMENSION) = true) as B.
  { destruct (wasScaled d) eqn:S.
    - destruct (buffer_within_cap w h Fw Fh S) as [X Y]. now apply below_cap_max.
    - subst d. unfold calculateScaledDimensions in *.
      destruct (leb (Math_max w h) (Fin MAX_DIMENSION)) eqn:E; [exact E|].
      discriminate S. }
  subst d'. generalize dependent (renderWidth d). generalize (renderHeight d).
  intros y x B. unfold calculateScaledDimensions. rewrite B. repeat split.
Qed.

Lemma rescaling_is_identity_witness :
  let d := calculateScaledDimensions (Fin 1950) (Fin 2400) in
  wasScaled (calculateScaledDimensions (renderWidth d) (renderHeight d)) = false.
Proof.
  apply (rescaling_is_identity (Fin 1950) (Fin 2400)); vm_compute; reflexivity.
Defined.

(** [clearCanvasIgnoringTransform] clears the whole buffer under the
    identity transform and hands the context back as it found it,
    whatever transform and save stack it had. *)
Theorem clear_leaves_context_untouched (c : Canvas) :
  clearCanvasIgnoringTransform c =
    (c, [ClearRect identity 0 0 (width c) (height c)]).
Proof. destruct c. reflexivity. Qed.



End ScalerExtras.

(** ** preview-runtime.ts and code-renderer.ts: [normalizeVars], the loop phase *)

Module RuntimeExtras.
Import PreviewTypes Float64 CanvasScaler PreviewRuntime.

Definition inRange (v : Q) : Prop := 0 <= v /\ v <= 100.

Lemma clamp100_inRange v : inRange (clamp100 v).
Proof.
  unfold inRange, clamp100. split.
  - apply Q.le_max_l.
  - apply Q.max_lub; [discriminate | apply Q.le_min_l].
Qed.

Lemma clamp100_cases v :
  clamp100 v = 0 \/ clamp100 v = 100 \/
  (clamp100 v = v /\ (100 ?= v) = Gt /\ (0 ?= v) = Lt).
Proof.
  unfold clamp100, Qmin, Qmax, GenericMinMax.gmin, GenericMinMax.gmax.
  destruct (100 ?= v) eqn:A.
  - right. left. reflexivity.
  - right. left. reflexivity.
  - destruct (0 ?= v) eqn:B; auto.
Qed.

Lemma clamp100_fixed v : clamp100 (clamp100 v) = clamp100 v.
Proof.
  destruct (clamp100_cases v) as [E|[E|(E & A & B)]]; rewrite E; try reflexivity.
  unfold clamp100, Qmin, Qmax, GenericMinMax.gmin, GenericMinMax.gmax.
  now rewrite A, B.
Qed.

Definition clampEntry (v : JsNum) : Q :=
  match v with Finite q => clamp100 q | NotFinite => 0 end.

Lemma pad_length n l : length (pad n l) = Nat.max n (length l).
Proof.
  revert l. induction n as [|n IH]; intros l; [reflexivity|].
  destruct l as [|x l]; cbn [pad length]; rewrite IH; cbn [length]; lia.
Qed.

Lemma pad_Forall (P : Q -> Prop) n l : P 0 -> Forall P l -> Forall P (pad n l).
Proof.
  intros Z. revert l. induction n as [|n IH]; intros l H; [exact H|].
  destruct l as [|x l]; cbn [pad].
  - constructor; [exact Z | apply IH; constructor].
  - inversion H; subst. constructor; [assumption | now apply IH].
Qed.

Lemma pad_lookup n l i :
  (i < n)%nat ->
  pad n l !! i = Some (match l !! i with Some x => x | None => 0 end).
Proof.
  revert l i. induction n as [|n IH]; intros l i H; [lia|].
  destruct l as [|x l], i as [|i]; cbn [pad]; try reflexivity.
  - rewrite lookup_cons_ne_0 by lia. cbn [Nat.pred]. rewrite IH by lia. reflexivity.
  - rewrite !lookup_cons_ne_0 by lia. cbn [Nat.pred]. apply IH. lia.
Qed.

Lemma pad_full n l : (n <= length l)%nat -> pad n l = l.
Proof.
  revert l. induction n as [|n IH]; intros l H; [reflexivity|].
  destruct l as [|x l]; cbn [length] in H; [lia|].
  cbn [pad]. rewrite IH by lia. reflexivity.
Qed.

(** Whatever the caller passes as [vars] (nothing, too few, too many,
    NaN or out-of-range entries), [normalizeVars] returns exactly ten
    numbers, each between 0 and 100. *)
Theorem normalizeVars_shape (vars : option (list JsNum)) :
  length (normalizeVars vars) = 10%nat /\
  Forall inRange (normalizeVars vars).
Proof.
  destruct vars as [l|]; cbn [normalizeVars].
  - split.
    + rewrite pad_length, length_map, length_firstn. lia.
    + apply pad_Forall; [split; discriminate|].
      apply Forall_map, Forall_forall. intros [q|] _; cbn.
      * apply clamp100_inRange.
      * split; discriminate.
  - split; [reflexivity|]. repeat constructor; discriminate.
Qed.

(** Entry by entry: position [i] below ten holds the caller's number
    clamped to [0, 100]; a missing or non-finite entry gives 0.  A
    number already in range is kept, one below 0 becomes 0 and one
    above 100 becomes 100. *)
Theorem normalizeVars_entry (l : list JsNum) (i : nat) :
  (i < 10)%nat ->
  normalizeVars (Some l) !! i =
    Some (match l !! i with Some (Finite q) => clamp100 q | _ => 0 end) /\
  (forall q, 0 <= q -> q <= 100 -> clamp100 q == q) /\
  (forall q, q <= 0 -> clamp100 q == 0) /\
  (forall q, 100 <= q -> clamp100 q == 100).
Proof.
  intros H. split; [|split; [|split]].
  - cbn [normalizeVars]. rewrite pad_lookup by exact H.
    rewrite list_lookup_fmap, lookup_take_lt by exact H.
    destruct (l !! i) as [[q|]|]; reflexivity.
  - intros q A B. unfold clamp100.
    rewrite (Q.min_r 100 q B). now apply Q.max_r.
  - intros q A. unfold clamp100.
    rewrite Q.min_r by (eapply Qle_trans; [exact A | discriminate]).
    now apply Q.max_l.
  - intros q A. unfold clamp100.
    rewrite (Q.min_l 100 q A). apply Q.max_r. discriminate.
Qed.

Lemma normalizeVars_entry_witness :
  normalizeVars (Some [Finite 50; NotFinite; Finite 250]) !! 2%nat =
    Some (clamp100 250).
Proof.
  apply (proj1 (normalizeVars_entry [Finite 50; NotFinite; Finite 250] 2 ltac:(lia))).
Defined.

(** The code-mode renderer normalises [system.vars] and
    [createPreviewRuntime] normalises the result again: the second pass
    changes nothing, so the [VAR] a script reads is the first pass. *)
Theorem normalizeVars_idempotent
    (vars : option (list JsNum)) (w h : Number) (seed : Z) :
  normalizeVars (Some (map Finite (normalizeVars vars))) = normalizeVars vars /\
  get (createPreviewRuntime w h seed (map Finite (normalizeVars vars))) "VAR" =
    VVars (normalizeVars vars).
Proof.
  assert (normalizeVars (Some (map Finite (normalizeVars vars))) = normalizeVars vars) as E.
  { destruct vars as [l|]; [|reflexivity].
    destruct (normalizeVars_shape (Some l)) as [L _].
    set (r := normalizeVars (Some l)) in *.
    unfold normalizeVars at 1.
    rewrite firstn_all2 by (rewrite length_map; lia).
    rewrite map_map. cbn beta iota.
    rewrite pad_full by (rewrite length_map; lia).
    subst r. cbn [normalizeVars].
    change (fun v : JsNum => match v with
                             | Finite q => clamp100 q | NotFinite => 0 end)
      with clampEntry.
    assert (Forall (fun x => clamp100 x = x) (pad 10 (map clampEntry (firstn 10 l)))) as F.
    { apply pad_Forall; [reflexivity|].
      apply Forall_map, Forall_forall. intros [q|] _; cbn [clampEntry];
        [apply clamp100_fixed | reflexivity]. }
    induction F as [|x xs Hx _ IH]; [reflexivity|].
    cbn [map]. now rewrite Hx, IH. }
  split; [exact E|].
  change (get (createPreviewRuntime w h seed (map Finite (normalizeVars vars))) "VAR")
    with (VVars (normalizeVars (Some (map Finite (normalizeVars vars))))).
  now rewrite E.
Qed.

Lemma phase_value frame totalFrames :
  (0 <= frame)%Z -> (0 < totalFrames)%Z ->
  phase frame totalFrames =
    valueOf (fl (inject_Z (frame mod totalFrames) / inject_Z totalFrames)).
Proof.
  intros F T. unfold phase. destruct (Z.eqb_spec totalFrames 0) as [->|N]; [lia|].
  rewrite Z.rem_mod_nonneg by lia. unfold div.
  assert (Qeq_bool (inject_Z totalFrames) 0 = false) as ->; [|reflexivity].
  apply not_true_is_false. intros E. apply Qeq_bool_iff in E.
  change 0 with (inject_Z 0) in E. rewrite inject_Z_injective in E. lia.
Qed.

(** The loop phase [t] handed to scripts, [(frame % totalFrames) /
    totalFrames] as a double: for a positive loop length it repeats
    every [totalFrames] frames, is 0 on the multiples of the loop
    length, and is a number that is not negative and lies within
    2^-52 of the exact quotient; for a loop length of 0 it is not a
    number. *)
Theorem phase_cycles (frame totalFrames : Z) :
  (0 <= frame)%Z ->
  ((0 < totalFrames)%Z ->
   phase (frame + totalFrames) totalFrames = phase frame totalFrames /\
   ((totalFrames | frame)%Z -> phase frame totalFrames = VNum 0) /\
   exists q, phase frame totalFrames = VNum q /\ 0 <= q /\
             Qabs (q - inject_Z (frame mod totalFrames) / inject_Z totalFrames)
               <= pow2 (-52)) /\
  phase frame 0 = VNaN.
Proof.
  intros F. split; [|reflexivity]. intros T.
  rewrite !phase_value by lia.
  assert (((frame + totalFrames) mod totalFrames)%Z = (frame mod totalFrames)%Z) as ->
    by (rewrite <- (Z_mod_plus_full frame 1 totalFrames); f_equal; lia).
  split; [reflexivity|].
  pose proof (Z.mod_pos_bound frame totalFrames T) as [L U].
  assert (0 < inject_Z totalFrames) as P.
  { change 0 with (inject_Z 0). now rewrite <- Zlt_Qlt. }
  set (a := inject_Z (frame mod totalFrames) / inject_Z totalFrames).
  assert (0 <= a) as A0.
  { apply Qle_shift_div_l; [exact P|]. rewrite Qmult_0_l.
    change 0 with (inject_Z 0). now rewrite <- Zle_Qle. }
  assert (a < 1) as A1.
  { apply Qlt_shift_div_r; [exact P|]. rewrite Qmult_1_l. now rewrite <- Zlt_Qlt. }
  assert (a == 0 -> fl a = Fin 0) as Z0.
  { intros E. unfold fl. apply Qeq_bool_iff in E. now rewrite E. }
  split.
  - intros D. apply Z.mod_divide in D; [|lia].
    rewrite Z0; [reflexivity|]. subst a. rewrite D. unfold Qdiv. apply Qmult_0_l.
  - destruct (Qlt_le_dec 0 a) as [Pa|Na].
    + pose proof (Float64Facts.roundPos_near a Pa) as E.
      pose proof (Float64Facts.roundPos_nonneg a A0) as R0.
      pose proof ScalerFacts.eps_value as Ev. pose proof ScalerFacts.tiny_small as Tv.
      assert (a * Float64Facts.eps <= Float64Facts.eps) as M.
      { rewrite <- (Qmult_1_l Float64Facts.eps) at 2.
        apply Qmult_le_compat_r; [now apply Qlt_le_weak|].
        apply Qlt_le_weak, Float64Facts.pow2_pos. }
      assert (pow2 (-52) == 1 # 4503599627370496) as P52 by reflexivity.
      assert (2 <= pow2 1024) as Bg by (vm_compute; discriminate).
      assert (Qabs (roundPos a - a) <= pow2 (-52)) as Near.
      { eapply Qle_trans; [exact E|]. rewrite P52, Ev in *. lra. }
      rewrite ScalerFacts.fl_positive.
      * exists (roundPos a). split; [reflexivity|]. split; [exact R0 | exact Near].
      * exact Pa.
      * apply Qabs_Qle_condition in Near as [_ Near]. rewrite P52 in Near. lra.
    + assert (a == 0) as E by (apply Qle_antisym; assumption).
      rewrite (Z0 E). exists 0. split; [reflexivity|]. split; [apply Qle_refl|].
      rewrite E. discriminate.
Qed.

Lemma phase_cycles_witness :
  phase (130 + 120) 120 = phase 130 120 /\
  ((120 | 130)%Z -> phase 130 120 = VNum 0) /\
  exists q, phase 130 120 = VNum q /\ 0 <= q /\
            Qabs (q - inject_Z (130 mod 120) / inject_Z 120) <= pow2 (-52).
Proof.
  apply (proj1 (phase_cycles 130 120 ltac:(lia))). lia.
Defined.

End RuntimeExtras.

(** ** code-renderer.ts: the sandbox of [compileSource] *)

Module SandboxExtras.
Import PreviewTypes CanvasScaler PreviewRuntime Script TopLevel CodeRenderer.

Definition cacheStep (cache : gmap string Value) (kv : string * Value) : gmap string Value :=
  if isLive (fst kv) then cache else <[fst kv := snd kv]> cache.

Lemma cache_dom rt : forall acc k,
  k ∈ dom (fold_left cacheStep rt acc) <->
  k ∈ dom acc \/ (hasOwn rt k = true /\ isLive k = false).
Proof.
  induction rt as [|[k0 v0] rt IH]; intros acc k; cbn [fold_left hasOwn].
  - split; [auto | intros [H|[H _]]; [exact H | discriminate]].
  - rewrite IH. unfold cacheStep. cbn [fst snd].
    destruct (String.eqb_spec k0 k) as [->|N]; cbn [orb].
    + destruct (isLive k) eqn:L.
      * split; [intros [H|[H1 H2]]; auto; discriminate
               | intros [H|[_ H]]; auto; discriminate].
      * rewrite dom_insert, elem_of_union, elem_of_singleton.
        split; [intros [[_|H]|[H _]]; auto | intros _; auto].
    + destruct (isLive k0).
      * reflexivity.
      * rewrite dom_insert, elem_of_union, elem_of_singleton.
        split; [intros [[H|H]|H]; auto; congruence | intros [H|H]; auto].
Qed.

Lemma cache_lookup rt : forall acc k,
  NoDup (keys rt) ->
  fold_left cacheStep rt acc !! k =
    if hasOwn rt k && negb (isLive k) then Some (get rt k) else acc !! k.
Proof.
  induction rt as [|[k0 v0] rt IH]; intros acc k D; cbn [fold_left hasOwn get].
  - reflexivity.
  - cbn [keys map fst] in D. apply NoDup_cons in D as [N D].
    rewrite (IH _ _ D). unfold cacheStep. cbn [fst snd].
    destruct (String.eqb_spec k0 k) as [->|E]; cbn [orb].
    + assert (hasOwn rt k = false) as ->.
      { destruct (hasOwn rt k) eqn:H; [|reflexivity]. exfalso. apply N.
        clear -H. induction rt as [|[k1 v1] rt IH]; [discriminate|].
        cbn in *. destruct (String.eqb_spec k1 k) as [->|]; [left | right; auto];
          reflexivity. }
      cbn [andb]. destruct (isLive k); cbn [negb]; [reflexivity|].
      apply lookup_insert_eq.
    + destruct (hasOwn rt k && negb (isLive k)); [reflexivity|].
      destruct (isLive k0); [reflexivity|]. now apply lookup_insert_ne.
Qed.

Lemma buildStaticCache_fold rt : buildStaticCache rt = fold_left cacheStep rt ∅.
Proof. reflexivity. Qed.

Definition isRegistration (name : string) : bool :=
  String.eqb name "__registerSetup" || String.eqb name "__registerDraw".

Lemma known_iff rt name :
  proxyHas (buildStaticCache rt) name = true <->
  isLive name = true \/ hasOwn rt name = true \/ isRegistration name = true.
Proof.
  unfold proxyHas, knownKeys. rewrite bool_decide_eq_true.
  rewrite !elem_of_union, buildStaticCache_fold, cache_dom, dom_empty.
  unfold isLive, isRegistration. rewrite orb_true_iff.
  rewrite !elem_of_singleton.
  destruct (String.eqb_spec name "__registerSetup"),
           (String.eqb_spec name "__registerDraw");
    (destruct (decide (name ∈ liveProps)) as [L|L];
       [rewrite (bool_decide_eq_true_2 _ L) | rewrite (bool_decide_eq_false_2 _ L)]);
    (split; [intros [[H|[H|[H _]]]|[H|H]] | intros [H|[H|[H|H]]]]);
    try (exfalso; eapply (not_elem_of_empty (C := gset string)); eassumption);
    try congruence; auto 6.
Qed.


Lemma runtime_keys_distinct w h seed vars :
  NoDup (keys (createPreviewRuntime w h seed vars)).
Proof.
  apply (bool_decide_unpack (NoDup (keys (createPreviewRuntime w h seed vars)))).
  vm_compute. exact I.
Qed.

Lemma keys_set o k v : hasOwn o k = true -> keys (set o k v) = keys o.
Proof.
  unfold keys. induction o as [|[k0 v0] o IH]; [discriminate|]. cbn.
  destruct (String.eqb_spec k0 k); cbn; [reflexivity|].
  intros H. now rewrite IH.
Qed.

(** Every name of the runtime object that is not live is bound for
    good when the source is compiled: a function called later reads the
    value the runtime held then, whatever the object holds now.  The
    five live names are read from the object as it is at the call. *)
Theorem static_names_keep_compile_time_values
    (ds : list Stmt) (rt now : Object) (name : string) :
  NoDup (keys rt) ->
  declared ds name = None ->
  hasOwn rt name = true ->
  isRegistration name = false ->
  scopeOf ds now (buildStaticCache rt) name =
    Found (if isLive name then get now name else get rt name).
Proof.
  intros D N H R. unfold scopeOf. rewrite N.
  rewrite (proj2 (known_iff rt name)) by auto.
  unfold proxyGet. destruct (isLive name) eqn:L; [reflexivity|].
  unfold isRegistration in R. apply orb_false_iff in R as [-> ->].
  rewrite buildStaticCache_fold, (cache_lookup rt ∅ name D), H, L. reflexivity.
Qed.

Lemma static_names_keep_compile_time_values_witness :
  let rt := createPreviewRuntime (Float64.Fin 1950) (Float64.Fin 2400) 7 [] in
  scopeOf [] (set (set rt "width" (VNum 900)) "frameCount" (VNum 3))
    (buildStaticCache rt) "width" = Found (VNum 1950).
Proof.
  intros rt.
  apply (static_names_keep_compile_time_values [] rt
           (set (set rt "width" (VNum 900)) "frameCount" (VNum 3)) "width").
  - apply runtime_keys_distinct.
  - reflexivity.
  - reflexivity.
  - reflexivity.
Defined.

End SandboxExtras.

(** ** Which functions a script of declarations registers *)

Module RegistrationExtras.
Import PreviewTypes CanvasScaler PreviewRuntime Script TopLevel Effects.
Import EffectFacts Traces.
Local Open Scope effects_scope.

(** A script made of function declarations only, the usual form
    [function setup() { ... } function draw() { ... }]. *)
Definition isDeclaration (st : Stmt) : Prop :=
  match st with SFunction _ _ => True | _ => False end.

Lemma statements_declarations globals decls scope l :
  Forall isDeclaration l -> statements globals decls scope l = ([], None).
Proof.
  induction 1 as [|st l H _ IH]; [reflexivity|].
  destruct st; cbn in H; try contradiction. exact IH.
Qed.

Section Code.
Import CodeRenderer.
Variable system : NexArtCodeSystem.

(** What the registration line for [name] does in the code-mode
    sandbox: the script's declaration, else a function of that name on
    the host page, else nothing. *)
Definition registrationOf (globals : gmap string Outcome) (ds : list Stmt)
    (ph : Phase) (name : string) : list TopEffect :=
  match declared ds name with
  | Some f => [Register ph f]
  | None =>
      match globals !! name with
      | Some o => [Register ph (fun _ => o)]
      | None => []
      end
  end.

Lemma registration_known cache :
  proxyHas cache "__registerSetup" = true /\ proxyHas cache "__registerDraw" = true.
Proof.
  unfold proxyHas, knownKeys.
  split; apply bool_decide_eq_true_2, elem_of_union_r;
    [apply elem_of_union_l | apply elem_of_union_r]; now apply elem_of_singleton.
Qed.

Lemma code_wrapped_declarations globals ds rt cache :
  Forall isDeclaration ds ->
  declared ds "__registerSetup" = None ->
  declared ds "__registerDraw" = None ->
  proxyHas cache "setup" = false ->
  proxyHas cache "draw" = false ->
  wrapped globals ds (scopeOf ds rt cache) =
    (registrationOf globals ds Setup "setup" ++ registrationOf globals ds Draw "draw",
     None).
Proof.
  intros F NS ND HS HD. unfold wrapped. rewrite (statements_declarations _ _ _ _ F).
  assert (forall f, TopLevel.call globals ds (scopeOf ds rt cache) "__registerSetup" f =
                    ([Register Setup f], None)) as CS.
  { intros f. unfold TopLevel.call, scopeOf.
    rewrite NS, (proj1 (registration_known cache)). reflexivity. }
  assert (forall f, TopLevel.call globals ds (scopeOf ds rt cache) "__registerDraw" f =
                    ([Register Draw f], None)) as CD.
  { intros f. unfold TopLevel.call, scopeOf.
    rewrite ND, (proj2 (registration_known cache)). reflexivity. }
  assert (registration globals ds (scopeOf ds rt cache) "setup" "__registerSetup" =
          (registrationOf globals ds Setup "setup", None)) as ->.
  { unfold registration, registrationOf, scopeOf at 1.
    destruct (declared ds "setup") as [g|] eqn:E; cbn [isFunction].
    - unfold fnOfValue. rewrite E. apply CS.
    - rewrite HS. destruct (globals !! "setup"); [apply CS | reflexivity]. }
  assert (registration globals ds (scopeOf ds rt cache) "draw" "__registerDraw" =
          (registrationOf globals ds Draw "draw", None)) as ->.
  { unfold registration, registrationOf, scopeOf at 1.
    destruct (declared ds "draw") as [g|] eqn:E; cbn [isFunction].
    - unfold fnOfValue. rewrite E. apply CD.
    - rewrite HD. destruct (globals !! "draw"); [apply CD | reflexivity]. }
  reflexivity.
Qed.

Lemma fresh_cache_hides_setup_draw :
  let cache := buildStaticCache (DimensionFacts.freshRuntime system) in
  proxyHas cache "setup" = false /\ proxyHas cache "draw" = false.
Proof.
  unfold DimensionFacts.freshRuntime.
  generalize (originalWidth (scaled system)), (originalHeight (scaled system)),
    (systemSeed system), (map Finite (normalizedVars system)),
    (VNum (inject_Z (systemTotalFrames system))).
  intros w h sd vs v. split; vm_compute; reflexivity.
Qed.

Definition close (ds : list Stmt) (ref : nat) (f : Fn) : Closure :=
  {| body := f; decls := ds; runtimeRef := ref;
     staticCache := buildStaticCache (DimensionFacts.freshRuntime system) |}.

(** The function a compile leaves registered for [name]: the
    registration line's, else the one that was there before. *)
Definition registeredFor (s : State) (ds : list Stmt) (ph : Phase) (name : string)
    (before : option Closure) : option Closure :=
  match registrationOf (globalFunctions (host s)) ds ph name with
  | Register _ f :: _ => Some (close ds (length (heap s)) f)
  | _ => before
  end.

(** The code-mode renderer on a script of declarations: compiling
    registers the declared [setup] and [draw], bound to the runtime
    object it has just created, and warns of nothing.  For a name the
    script does not declare, a function of that name on the host page
    is registered in its place; failing that, the function of an
    earlier compile stays. *)
Theorem code_registers_declared_functions (ds : list Stmt) (s : State) :
  source system = Some ds ->
  Forall isDeclaration ds ->
  declared ds "__registerSetup" = None ->
  declared ds "__registerDraw" = None ->
  let r := compileSource system s in
  completion r = Returned tt /\
  events r = [] /\
  runtime (state r) = Some (length (heap s)) /\
  heap (state r) = heap s ++ [DimensionFacts.freshRuntime system] /\
  setupFn (state r) = registeredFor s ds Setup "setup" (setupFn s) /\
  drawFn (state r) = registeredFor s ds Draw "draw" (drawFn s).
Proof.
  intros Src F NS ND. cbn zeta.
  destruct fresh_cache_hides_setup_draw as [HS HD].
  unfold registeredFor, registrationOf, close, compileSource.
  fold (DimensionFacts.freshRuntime system).
  revert HS HD.
  generalize (buildStaticCache (DimensionFacts.freshRuntime system)) as cache.
  generalize (DimensionFacts.freshRuntime system) as rt. intros rt cache HS HD.
  rewrite run_bind_gets, run_bind_modify, Src.
  unfold tryCatch. rewrite run_bind_gets.
  cbn [host setRuntime setHeap].
  rewrite (code_wrapped_declarations _ ds rt cache F NS ND HS HD).
  unfold registrationOf.
  destruct (declared ds "setup") as [g|]; [|destruct (globalFunctions (host s) !! "setup")];
    (destruct (declared ds "draw") as [f|];
       [|destruct (globalFunctions (host s) !! "draw")]);
    cbn; repeat split; reflexivity.
Qed.

End Code.

Lemma code_registers_declared_functions_witness :
  let system := Samples.codeSystem Samples.conventional ModeLoop in
  let s := CodeRenderer.renderCodeModeSystem system Samples.blankCanvas Samples.page in
  events (CodeRenderer.compileSource system s) = [] /\
  CodeRenderer.runtime (state (CodeRenderer.compileSource system s)) = Some 0%nat.
Proof.
  intros sys s.
  destruct (code_registers_declared_functions sys
              [SFunction "setup" (Samples.paints "width");
               SFunction "draw" (Samples.paints "frameCount")] s)
    as (_ & E & R & _).
  - reflexivity.
  - repeat constructor.
  - reflexivity.
  - reflexivity.
  - split; [exact E | exact R].
Defined.

Section Engine.
Import PreviewEngine.
Variable config : PreviewEngineConfig.

Lemma params_registration w h sd vs v :
  let rt := set (createPreviewRuntime w h sd vs) "totalFrames" v in
  let ps := bindParams ((keys rt ++ ["setup"; "draw"]) ++
                        ["__registerSetup"; "__registerDraw"])
                       (values rt ++ [VRegisterSetup; VRegisterDraw]) in
  ps !! "setup" = Some VRegisterSetup /\ ps !! "__registerSetup" = Some VUndefined.
Proof. split; vm_compute; reflexivity. Qed.

Lemma engine_wrapped_declarations globals ds ps :
  Forall isDeclaration ds ->
  declared ds "__registerSetup" = None ->
  ps !! "setup" = Some VRegisterSetup ->
  ps !! "__registerSetup" = Some VUndefined ->
  wrapped globals ds (scopeOf ds ps) = ([], Some "__registerSetup is not a function").
Proof.
  intros F NS PS PR. unfold wrapped. rewrite (statements_declarations _ _ _ _ F).
  assert (forall f, TopLevel.call globals ds (scopeOf ds ps) "__registerSetup" f =
                    ([], Some "__registerSetup is not a function")) as C.
  { intros f. unfold TopLevel.call, scopeOf. rewrite NS, PR. reflexivity. }
  unfold registration, scopeOf at 1.
  destruct (declared ds "setup") as [g|]; [|rewrite PS]; cbn [isFunction];
    rewrite C; reflexivity.
Qed.

Lemma engine_compile_declarations ds rt e :
  source config = Some ds ->
  Forall isDeclaration ds ->
  declared ds "__registerSetup" = None ->
  (let ps := bindParams ((keys rt ++ ["setup"; "draw"]) ++
                         ["__registerSetup"; "__registerDraw"])
                        (values rt ++ [VRegisterSetup; VRegisterDraw]) in
   ps !! "setup" = Some VRegisterSetup /\ ps !! "__registerSetup" = Some VUndefined) ->
  compileSource config rt e = (Threw "__registerSetup is not a function", e, []).
Proof.
  intros Src F NS. unfold compileSource. cbv zeta.
  generalize (bindParams ((keys rt ++ ["setup"; "draw"]) ++
                          ["__registerSetup"; "__registerDraw"])
                         (values rt ++ [VRegisterSetup; VRegisterDraw])) as ps.
  intros ps [PS PR]. rewrite Src, run_bind_gets.
  rewrite (engine_wrapped_declarations _ ds ps F NS PS PR). reflexivity.
Qed.

(** The preview engine on a script of declarations: the generated
    function receives no argument for [__registerSetup], so the
    registration line throws; the constructor logs the error and the
    engine has neither a setup nor a draw function. *)
Theorem engine_ignores_declared_functions
    (ds : list Stmt) (c : Canvas) (parent : bool) (h : Host) :
  source config = Some ds ->
  Forall isDeclaration ds ->
  declared ds "__registerSetup" = None ->
  let r := initialize config (fresh c parent h) in
  completion r = Returned tt /\
  events r = [Warn (CompileError "__registerSetup is not a function")] /\
  setupFn (state r) = None /\ drawFn (state r) = None.
Proof.
  intros Src F NS. cbn zeta. unfold initialize. cbv zeta.
  rewrite !run_bind_modify. unfold tryCatch.
  rewrite (engine_compile_declarations ds _ _ Src F NS (params_registration _ _ _ _ _)).
  repeat split.
Qed.
End Engine.

Lemma engine_ignores_declared_functions_witness :
  let config := Samples.engineConfig Samples.conventional None None in
  let r := PreviewEngine.initialize config
             (PreviewEngine.fresh Samples.blankCanvas true Samples.page) in
  PreviewEngine.setupFn (state r) = None /\ PreviewEngine.drawFn (state r) = None.
Proof.
  intros config r.
  destruct (engine_ignores_declared_functions config
              [SFunction "setup" (Samples.paints "width");
               SFunction "draw" (Samples.paints "frameCount")]
              Samples.blankCanvas true Samples.page)
    as (_ & _ & S & D).
  - reflexivity.
  - repeat constructor.
  - reflexivity.
  - split; [exact S | exact D].
Defined.

End RegistrationExtras.

(** ** code-renderer.ts: what [draw] reads on a tick *)

Module LiveBindingExtras.
Import PreviewTypes CanvasScaler PreviewRuntime Script TopLevel Effects.
Import EffectFacts Traces.
Import CodeRenderer.
Local Open Scope effects_scope.
Local Arguments Z.add : simpl never.
Local Arguments scopeOf : simpl never.
Local Arguments PreviewRuntime.set : simpl never.
Local Arguments PreviewRuntime.get : simpl never.
Local Arguments phase : simpl never.
Local Arguments object : simpl never.
Local Arguments updateTiming : simpl never.

Ltac steps :=
  unfold loop, CodeRenderer.afterScheduling, schedule, clearCanvas, drawBadge,
    callIfSome, invoke, bind, gets, modify, emit, when, ret, tryCatch,
    events, state, completion.

Section Tick.
Variable system : NexArtCodeSystem.
Variable options : PreviewOptions.

(** The runtime object after the timing update of tick [n]. *)
Definition timed (n : Z) (rt : Object) : Object :=
  let rt := set rt "frameCount" (VNum (inject_Z n)) in
  let rt := set rt "t" (phase n (systemTotalFrames system)) in
  let rt := set rt "time" (get rt "t") in
  set rt "tGlobal" (get rt "t").

Lemma timed_reads n rt :
  get (timed n rt) "frameCount" = VNum (inject_Z n) /\
  get (timed n rt) "t" = phase n (systemTotalFrames system) /\
  get (timed n rt) "time" = phase n (systemTotalFrames system) /\
  get (timed n rt) "tGlobal" = phase n (systemTotalFrames system) /\
  get (timed n rt) "totalFrames" = get rt "totalFrames" /\
  get (timed n rt) "width" = get rt "width" /\
  get (timed n rt) "height" = get rt "height".
Proof.
  unfold timed. cbv zeta.
  repeat split;
    repeat first [ rewrite DimensionFacts.get_set_same
                 | rewrite DimensionFacts.get_set_other by discriminate ];
    reflexivity.
Qed.

Lemma updateTiming_object n s ref rt :
  runtime s = Some ref -> heap s !! ref = Some rt ->
  object (updateTiming system n s) ref = timed n rt.
Proof.
  intros R H. unfold updateTiming, object. rewrite R. cbn [heap setHeap].
  rewrite list_lookup_insert_eq by (eapply lookup_lt_Some; exact H).
  unfold object. rewrite H. reflexivity.
Qed.

Lemma live_names_known cache name : isLive name = true -> proxyHas cache name = true.
Proof.
  unfold isLive, proxyHas, knownKeys. intros L. apply bool_decide_eq_true in L.
  apply bool_decide_eq_true_2. now apply elem_of_union_l, elem_of_union_l.
Qed.

Lemma updateTiming_only_heap n s :
  updateTiming system n s = setHeap (heap (updateTiming system n s)) s.
Proof. unfold updateTiming. destruct (runtime s); destruct s; reflexivity. Qed.

Lemma updateTiming_drawFn n s : drawFn (updateTiming system n s) = drawFn s.
Proof. unfold updateTiming. destruct (runtime s); reflexivity. Qed.

Lemma updateTiming_canvas n s : canvas (updateTiming system n s) = canvas s.
Proof. unfold updateTiming. destruct (runtime s); reflexivity. Qed.

Lemma object_after_tick n s ref rt a h c :
  runtime s = Some ref -> heap s !! ref = Some rt ->
  object (setCanvas c (updateTiming system n (setAnimationId a (setHost h s)))) ref =
    timed n rt.
Proof.
  intros R H. rewrite <- (updateTiming_object n s ref rt R H).
  unfold object, updateTiming. cbn. rewrite R. reflexivity.
Qed.

(** The tick of a live loop, step by step. *)
Lemma loop_live frameCount s ref rt cl :
  isRunning s = true -> isDestroyed s = false ->
  runtime s = Some ref -> heap s !! ref = Some rt ->
  drawFn s = Some cl -> runtimeRef cl = ref ->
  let n := (frameCount + 1)%Z in
  let o := body cl (scopeOf (decls cl) (timed n rt) (staticCache cl)) in
  exists tail,
    events (loop system options frameCount s) =
      RequestFrame (nextFrameId (host s))
      :: Painted (ClearRect identity 0 0 (CanvasScaler.width (canvas s))
                    (CanvasScaler.height (canvas s)))
      :: Ran Draw o :: tail /\
    object (state (loop system options frameCount s)) ref = timed n rt.
Proof.
  intros R D Rt H F B. cbn zeta. steps. cbn. rewrite R, D. cbn.
  rewrite !updateTiming_drawFn, !updateTiming_canvas. cbn. rewrite F. cbn.
  rewrite B, (object_after_tick _ _ _ _ _ _ _ Rt H).
  destruct (thrown _); cbn; destruct (showBadge options); cbn;
    (eexists; split; [reflexivity|]);
    apply (object_after_tick _ _ _ _ _ _ _ Rt H).
Qed.

(** On a tick of a running loop the registered [draw] is called once,
    after the runtime object was given the tick's number: the live
    names resolve to [frameCount] = the new count and
    [t] = [time] = [tGlobal] = the phase of that count, while
    [totalFrames], [width] and [height] are as before.  Only a
    declaration of the same name in the script hides a live name. *)
Theorem code_draw_reads_current_frame
    (frameCount : Z) (s : State) (ref : nat) (rt : Object) (cl : Closure) :
  isRunning s = true -> isDestroyed s = false ->
  runtime s = Some ref -> heap s !! ref = Some rt ->
  drawFn s = Some cl -> runtimeRef cl = ref ->
  let r := loop system options frameCount s in
  let n := (frameCount + 1)%Z in
  let sc := scopeOf (decls cl) (timed n rt) (staticCache cl) in
  completion r = Returned n /\
  In (Ran Draw (body cl sc)) (events r) /\
  draws (events r) = 1%nat /\
  object (state r) ref = timed n rt /\
  (forall name, isLive name = true -> declared (decls cl) name = None ->
                sc name = Found (get (timed n rt) name)) /\
  get (timed n rt) "frameCount" = VNum (inject_Z n) /\
  get (timed n rt) "t" = phase n (systemTotalFrames system) /\
  get (timed n rt) "time" = phase n (systemTotalFrames system) /\
  get (timed n rt) "tGlobal" = phase n (systemTotalFrames system) /\
  get (timed n rt) "totalFrames" = get rt "totalFrames".
Proof.
  intros R D Rt H F B. cbn zeta.
  destruct (timed_reads (frameCount + 1) rt) as (T1 & T2 & T3 & T4 & T5 & _).
  split; [|split; [|split; [|split; [|split]]]]; [| | | | |auto 6].
  - CodeLoopFacts.run. cbn. rewrite R, D. cbn.
    rewrite Rt. cbn. rewrite F. cbn.
    destruct (thrown _); cbn; destruct (showBadge options); reflexivity.
  - destruct (loop_live frameCount s ref rt cl R D Rt H F B) as (tail & E & _).
    rewrite E. right. right. left. reflexivity.
  - apply (CodeLoopFacts.loop_draws_when_live system options frameCount s cl R D F).
  - destruct (loop_live frameCount s ref rt cl R D Rt H F B) as (tail & _ & O).
    exact O.
  - intros name L N.
    change (scopeOf (decls cl) (timed (frameCount + 1) rt) (staticCache cl) name)
      with (match declared (decls cl) name with
            | Some _ => Found (VScriptFn name)
            | None =>
                if proxyHas (staticCache cl) name
                then Found (proxyGet (timed (frameCount + 1) rt) (staticCache cl) name)
                else HostGlobal
            end).
    rewrite N, (live_names_known _ _ L). unfold proxyGet. now rewrite L.
Qed.
End Tick.

Lemma code_draw_reads_current_frame_witness :
  let system := Samples.codeSystem Samples.conventional ModeLoop in
  let s0 := renderCodeModeSystem system Samples.blankCanvas Samples.page in
  let s := state (start system Samples.codeOptions s0) in
  completion (loop system Samples.codeOptions 0 s) = Returned 1%Z /\
  draws (events (loop system Samples.codeOptions 0 s)) = 1%nat.
Proof.
  intros system s0 s.
  assert (match drawFn s with Some cl => runtimeRef cl = 0%nat | None => False end) as B
    by (vm_compute; reflexivity).
  assert (registered (heap s !! 0%nat) = true) as H by (vm_compute; reflexivity).
  destruct (drawFn s) as [cl|] eqn:F; [|contradiction].
  destruct (heap s !! 0%nat) as [rt|] eqn:L; [|discriminate H].
  destruct (code_draw_reads_current_frame system Samples.codeOptions 0 s 0 rt cl)
    as (C & _ & N & _).
  - vm_compute. reflexivity.
  - vm_compute. reflexivity.
  - vm_compute. reflexivity.
  - exact L.
  - exact F.
  - exact B.
  - split; [exact C | exact N].
Defined.

End LiveBindingExtras.

(** ** preview-engine.ts: the loop under a budget, the overlay, the statistics *)

Module EngineExtras.
Import PreviewTypes CanvasScaler PreviewRuntime Script TopLevel Effects.
Import EffectFacts Traces PreviewEngine.
Local Open Scope effects_scope.
Local Arguments Z.leb : simpl never.
Local Arguments Z.ltb : simpl never.
Local Arguments Z.eqb : simpl never.
Local Arguments Z.rem : simpl never.
Local Arguments Z.add : simpl never.
Local Arguments Qle_bool : simpl never.
Local Arguments Qminus : simpl never.
Local Arguments updateTiming : simpl never.

Lemma cancel_only id : filter (fun i : nat => i ≠ id) [id] = [].
Proof. rewrite filter_cons_False by (intros N; now apply N). reflexivity. Qed.

Lemma cancel_last id (l : list nat) :
  ~ In id (filter (fun i : nat => i ≠ id) (l ++ [id])).
Proof.
  intros H. apply list_elem_of_In, list_elem_of_filter in H as [N _]. now apply N.
Qed.

Section Engine.
Variable config : PreviewEngineConfig.

(** The engine stops at the budget unless asked to degrade. *)
Definition stops : Prop := budgetBehavior config <> Some degrade.

(** In stop mode the tick that crosses the budget takes back the
    registration it has just made and halts the engine: nothing is
    drawn on that tick, no frame id is kept, the registered id is no
    longer pending, and the engine is no longer the active one. *)
Theorem budget_stop_cancels_registration (now : Q) (e : Engine) (r : BudgetExceedReason) :
  stops ->
  running e = true ->
  budgetExceededReason e = None ->
  crossing config (startTimeMs e) (internalFrameCount e) now = Some r ->
  let res := frame config now e in
  running (state res) = false /\
  animationFrameId (state res) = None /\
  active (state res) = false /\
  budgetExceededReason (state res) = Some r /\
  ~ In (nextFrameId (host e)) (pendingFrames (host (state res))) /\
  In (CancelFrame (nextFrameId (host e))) (events res) /\
  draws (events res) = 0%nat /\
  internalFrameCount (state res) = (internalFrameCount e + 1)%Z.
Proof.
  intros S H1 H2 H3. unfold stops, crossing in *. cbn zeta.
  pose proof (cancel_last (nextFrameId (host e)) (pendingFrames (host e))) as CL.
  destruct (configMaxFrames config <=? internalFrameCount e + 1)%Z eqn:C1;
    [|destruct (Qle_bool (configMaxTimeMs config) (now - startTimeMs e)) eqn:C2;
      [|discriminate]];
    injection H3 as <-;
    unfold draws; BudgetFacts.run; cbn; rewrite H1; cbn; rewrite C1, ?C2; cbn;
    rewrite H2; cbn;
    destruct (onBudgetExceeded config); cbn;
    destruct (budgetBehavior config) as [[|]|]; cbn; try congruence;
    repeat match goal with
      | |- context [overlayElement e] => destruct (overlayElement e); cbn
      | |- context [showOverlay config] => destruct (showOverlay config) as [[|]|]; cbn
      | |- context [parentElement e] => destruct (parentElement e); cbn
      end;
    repeat split; try exact CL; auto 10.
Qed.

Lemma frame_live_draws now e cl :
  running e = true ->
  budgetExceededReason e = None ->
  crossing config (startTimeMs e) (internalFrameCount e) now = None ->
  currentStride e = 1%Z ->
  drawFn e = Some cl ->
  draws (events (frame config now e)) = 1%nat.
Proof.
  intros H1 H2 H3 H4 H5. unfold crossing in H3.
  destruct (configMaxFrames config <=? internalFrameCount e + 1)%Z eqn:C1;
    [discriminate|].
  destruct (Qle_bool (configMaxTimeMs config) (now - startTimeMs e)) eqn:C2;
    [discriminate|].
  unfold draws. BudgetFacts.run. cbn. rewrite H1. cbn. rewrite C1, C2. cbn.
  rewrite H4. change (1 <? 1)%Z with false. cbn. unfold updateTiming. cbn.
  destruct (runtime e); cbn; rewrite H5; cbn; destruct (thrown _); reflexivity.
Qed.

Lemma frame_draws_at_most_once now e : (draws (events (frame config now e)) <= 1)%nat.
Proof.
  unfold draws. BudgetFacts.run. cbn. destruct (running e); cbn; [|lia].
  unfold updateTiming. BudgetFacts.branches config now e; lia.
Qed.

Lemma ticks_halted_draws nows : forall e,
  running e = false ->
  draws (snd (ticks config nows e)) = 0%nat /\
  running (fst (ticks config nows e)) = false /\
  internalFrameCount (fst (ticks config nows e)) = internalFrameCount e.
Proof.
  induction nows as [|now rest IH]; intros e H; [auto|].
  cbn [ticks]. destruct (BudgetFacts.frame_halted config now e H) as (R & _ & _ & D).
  assert (internalFrameCount (state (frame config now e)) = internalFrameCount e) as K.
  { BudgetFacts.run. cbn. rewrite H. reflexivity. }
  destruct (IH _ R) as (D' & R' & K').
  destruct (ticks config rest (state (frame config now e))) as [e' es].
  cbn [fst snd] in *. rewrite BudgetFacts.draws_app, D, D', K', K. auto.
Qed.

(** What every state of a stop-mode session within its budget satisfies. *)
Definition liveSession (t0 : Q) (e : Engine) : Prop :=
  running e = true /\ budgetExceededReason e = None /\ currentStride e = 1%Z /\
  startTimeMs e = t0 /\ (0 <= internalFrameCount e)%Z.

Lemma ticks_stop_draws_le t0 nows : forall e,
  stops -> liveSession t0 e ->
  (draws (snd (ticks config nows e)) <=
   Z.to_nat (configMaxFrames config - 1 - internalFrameCount e))%nat.
Proof.
  induction nows as [|now rest IH]; intros e S (R & B & St & T & K); [cbn; lia|].
  cbn [ticks].
  pose proof (frame_draws_at_most_once now e) as L.
  destruct (crossing config (startTimeMs e) (internalFrameCount e) now) as [r|] eqn:X.
  - destruct (BudgetFacts.frame_crossing config now e r R B X) as (_ & _ & _ & _ & G).
    destruct (G S) as [R' D].
    destruct (ticks_halted_draws rest _ R') as (D' & _).
    destruct (ticks config rest (state (frame config now e))) as [e' es].
    cbn [snd] in *. rewrite BudgetFacts.draws_app, D, D'. lia.
  - destruct (BudgetFacts.frame_within_budget config now e R B X)
      as (_ & R' & B' & St' & T' & K' & _).
    assert (liveSession t0 (state (frame config now e))) as I.
    { unfold liveSession. rewrite R', B', St', T', K'. repeat split; auto; lia. }
    specialize (IH _ S I). rewrite K' in IH.
    unfold crossing in X.
    destruct (configMaxFrames config <=? internalFrameCount e + 1)%Z eqn:C1;
      [discriminate|]. apply Z.leb_gt in C1.
    destruct (ticks config rest (state (frame config now e))) as [e' es].
    cbn [snd] in *. rewrite BudgetFacts.draws_app. lia.
Qed.

Lemma ticks_stop_draws t0 nows cl : forall e,
  stops -> liveSession t0 e -> drawFn e = Some cl ->
  (forall now, In now nows -> Qle_bool (configMaxTimeMs config) (now - t0) = false) ->
  draws (snd (ticks config nows e)) =
    Nat.min (length nows) (Z.to_nat (configMaxFrames config - 1 - internalFrameCount e)).
Proof.
  induction nows as [|now rest IH]; intros e S (R & B & St & T & K) F Tm; [reflexivity|].
  cbn [ticks length].
  assert (Qle_bool (configMaxTimeMs config) (now - startTimeMs e) = false) as C2
    by (rewrite T; apply Tm; now left).
  destruct (crossing config (startTimeMs e) (internalFrameCount e) now) as [r|] eqn:X.
  - destruct (BudgetFacts.frame_crossing config now e r R B X) as (_ & _ & _ & _ & G).
    destruct (G S) as [R' D].
    destruct (ticks_halted_draws rest _ R') as (D' & _).
    unfold crossing in X. rewrite C2 in X.
    destruct (configMaxFrames config <=? internalFrameCount e + 1)%Z eqn:C1;
      [|discriminate]. apply Z.leb_le in C1.
    destruct (ticks config rest (state (frame config now e))) as [e' es].
    cbn [snd] in *. rewrite BudgetFacts.draws_app, D, D'. lia.
  - pose proof (frame_live_draws now e cl R B X St F) as D.
    destruct (BudgetFacts.frame_within_budget config now e R B X)
      as (_ & R' & B' & St' & T' & K' & F').
    assert (liveSession t0 (state (frame config now e))) as I.
    { unfold liveSession. rewrite R', B', St', T', K'. repeat split; auto; lia. }
    rewrite <- F' in F.
    specialize (IH _ S I F (fun n Hn => Tm n (or_intror Hn))). rewrite K' in IH.
    unfold crossing in X.
    destruct (configMaxFrames config <=? internalFrameCount e + 1)%Z eqn:C1;
      [discriminate|]. apply Z.leb_gt in C1.
    destruct (ticks config rest (state (frame config now e))) as [e' es].
    cbn [snd] in *. rewrite BudgetFacts.draws_app, D, IH. lia.
Qed.


End Engine.

Lemma budget_stop_cancels_registration_witness :
  let config :=
    Samples.engineConfig (Samples.callsDraw (Samples.paints "frameCount"))
      None (Some 2%Z) in
  let e0 := create config Samples.blankCanvas true Samples.page in
  let e1 := fst (session config 0 [16] e0) in
  running (state (frame config 32 e1)) = false /\
  animationFrameId (state (frame config 32 e1)) = None.
Proof.
  intros config e0 e1.
  destruct (budget_stop_cancels_registration config 32 e1 frame_limit)
    as (R & A & _).
  - discriminate.
  - vm_compute. reflexivity.
  - vm_compute. reflexivity.
  - vm_compute. reflexivity.
  - split; [exact R | exact A].
Defined.


End EngineExtras.

(** ** preview-engine.ts: overlay, statistics, destroy, pending registrations *)

Module EngineLifecycleExtras.
Import PreviewTypes CanvasScaler PreviewRuntime Script TopLevel Effects.
Import EffectFacts Traces PreviewEngine.
Local Open Scope effects_scope.
Local Arguments Z.leb : simpl never.
Local Arguments Z.ltb : simpl never.
Local Arguments Z.eqb : simpl never.
Local Arguments Z.rem : simpl never.
Local Arguments Z.add : simpl never.
Local Arguments Qle_bool : simpl never.
Local Arguments Qminus : simpl never.
Local Arguments updateTiming : simpl never.

Ltac steps :=
  unfold frame, startLoop, destroy, renderStatic, removeOverlay, scheduleNextFrame,
    afterScheduling, checkBudget, handleBudgetExceeded, showBudgetOverlay, stopLoop,
    callIfSome, invoke, bind, requestFrame, gets, modify, emit, when, ret, tryCatch,
    events, state, completion in *.

Section Engine.
Variable config : PreviewEngineConfig.

(** When the budget is first exceeded the overlay is put up exactly
    when the engine stops, none is up yet, the canvas has a parent, and
    either [showOverlay] is true or it is unset and [budgetBehavior]
    was given as 'stop'.  With both left unset the engine stops and
    shows nothing. *)
Theorem overlay_follows_configured_behavior
    (now : Q) (r : BudgetExceedReason) (e : Engine) :
  budgetExceededReason e = None ->
  (In (OverlayShown r) (events (handleBudgetExceeded config now r e)) <->
   budgetBehavior config <> Some degrade /\
   overlayElement e = false /\ parentElement e = true /\
   (showOverlay config = Some true \/
    (showOverlay config = None /\ budgetBehavior config = Some stop))) /\
  (budgetBehavior config = None -> showOverlay config = None ->
   running (state (handleBudgetExceeded config now r e)) = false /\
   overlayElement (state (handleBudgetExceeded config now r e)) = overlayElement e).
Proof.
  intros B. steps. cbn. rewrite B. cbn.
  destruct (onBudgetExceeded config); cbn;
    destruct (budgetBehavior config) as [[|]|]; cbn;
    repeat match goal with
      | H : overlayElement e = _ |- context [overlayElement e] => rewrite H; cbn
      | H : parentElement e = _ |- context [parentElement e] => rewrite H; cbn
      | H : animationFrameId e = _ |- context [animationFrameId e] => rewrite H; cbn
      | |- context [overlayElement e] => destruct (overlayElement e) eqn:?; cbn
      | |- context [showOverlay config] => destruct (showOverlay config) as [[|]|]; cbn
      | |- context [parentElement e] => destruct (parentElement e) eqn:?; cbn
      | |- context [animationFrameId e] => destruct (animationFrameId e) eqn:?; cbn
      end;
    (split; [split; [intros H; repeat (destruct H as [H|H]; try discriminate H);
                     try contradiction; repeat split; auto; discriminate
                    |intros (N & O & P & [S|[S1 S2]]);
                     try discriminate; try congruence; auto 6]
            |intros; try discriminate; auto]).
Qed.

(** *** The figures of [getPreviewStats] *)

Definition bookkeeping (e : Engine) : Prop :=
  scaled e = Some (calculateScaledDimensions (Float64.Fin (width config))
                                             (Float64.Fin (height config))) /\
  (0 <= internalFrameCount e)%Z /\
  (currentStride e = 1%Z \/
   (currentStride e = DEGRADE_STRIDE /\ budgetExceededReason e <> None /\
    budgetBehavior config = Some degrade)).

Ltac stride C :=
  destruct C as [C|(C1 & C2 & C3)];
  first [ left; cbn; congruence
        | right; cbn; repeat split; congruence ].

Lemma frame_bookkeeping now e :
  bookkeeping e -> bookkeeping (state (frame config now e)).
Proof.
  intros (A & B & C). unfold bookkeeping. steps. cbn.
  destruct (running e); cbn; [|auto].
  unfold updateTiming. BudgetFacts.branches config now e;
    (split; [exact A|]); (split; [lia|]); stride C.
Qed.

Lemma startLoop_bookkeeping now e :
  bookkeeping e -> bookkeeping (state (startLoop now e)).
Proof.
  intros (A & B & C). unfold bookkeeping. steps. cbn.
  destruct (running e); cbn; [auto|].
  destruct (overlayElement e && parentElement e); cbn;
    destruct (setupFn e); cbn; try destruct (thrown _); cbn;
    (split; [exact A|]); (split; [lia|]); left; reflexivity.
Qed.

Lemma stopLoop_bookkeeping e : bookkeeping e -> bookkeeping (state (stopLoop e)).
Proof.
  intros H. unfold bookkeeping in *. steps. cbn.
  destruct (animationFrameId e); cbn; exact H.
Qed.

Lemma destroy_bookkeeping e : bookkeeping e -> bookkeeping (state (destroy e)).
Proof.
  intros H. unfold bookkeeping in *. steps. cbn.
  destruct (animationFrameId e); cbn;
    destruct (overlayElement e && parentElement e); cbn; exact H.
Qed.

Lemma renderStatic_bookkeeping t1 t2 e :
  bookkeeping e -> bookkeeping (state (renderStatic t1 t2 e)).
Proof.
  intros H. unfold bookkeeping in *. steps. cbn.
  destruct (setupFn e); cbn; try destruct (thrown _); cbn; exact H.
Qed.

Lemma calls_bookkeeping cs : forall e,
  bookkeeping e -> bookkeeping (fst (calls config cs e)).
Proof.
  induction cs as [|c cs IH]; intros e H; [exact H|].
  cbn [calls].
  assert (bookkeeping (fst (call config c e))) as H1.
  { destruct c; cbn [call fst].
    - now apply renderStatic_bookkeeping.
    - now apply startLoop_bookkeeping.
    - now apply stopLoop_bookkeeping.
    - now apply destroy_bookkeeping.
    - now apply frame_bookkeeping. }
  destruct (call config c e) as [e' es]. cbn [fst] in H1.
  specialize (IH e' H1). destruct (calls config cs e') as [e'' es']. exact IH.
Qed.

Lemma applyAll_scaled ds ps es d :
  keeps (fun e => scaled e = Some d /\ internalFrameCount e = 0%Z /\
                  currentStride e = 1%Z /\ startTimeMs e = 0)
    (applyAll ds ps es).
Proof.
  induction es as [|ef es IH]; cbn [applyAll]; [apply keeps_ret|].
  apply keeps_bind; [|intros; exact IH].
  destruct ef as [[| |] f|o]; cbn [applyTop];
    first [apply keeps_ret | apply keeps_emit | apply keeps_modify];
    intros e H; exact H.
Qed.

Lemma create_bookkeeping c parent h :
  bookkeeping (create config c parent h) /\ startTimeMs (create config c parent h) = 0.
Proof.
  set (d := calculateScaledDimensions (Float64.Fin (width config))
                                      (Float64.Fin (height config))).
  assert (keeps (fun e => scaled e = Some d /\ internalFrameCount e = 0%Z /\
                          currentStride e = 1%Z /\ startTimeMs e = 0)
            (tryCatch (compileSource config
                         (set (createPreviewRuntime (originalWidth d) (originalHeight d)
                                 (match seed config with Some n => n | None => 12345%Z end)
                                 (match vars config with Some l => l | None => [] end))
                              "totalFrames" (VNum (inject_Z (configTotalFrames config)))))
                      (fun msg => emit (Warn (CompileError msg))))) as K.
  { apply keeps_tryCatch; [|intros; apply keeps_emit].
    unfold compileSource. cbv zeta.
    destruct (source config) as [ds|]; [|apply keeps_throw].
    apply keeps_bind; [apply keeps_gets|]. intros globals.
    match goal with
    | |- context [wrapped ?g ?ds ?sc] => destruct (wrapped g ds sc) as [es [msg|]]
    end;
      (apply keeps_bind; [apply applyAll_scaled|]); intros _;
      [apply keeps_throw | apply keeps_ret]. }
  unfold create, initialize. cbv zeta. fold d.
  rewrite !run_bind_modify.
  match goal with
  | |- context [state (tryCatch ?m ?h ?e)] =>
      destruct (K e) as (A & B & C & D); [cbn; auto|]
  end.
  unfold bookkeeping. rewrite A, B, C. repeat split; auto. lia.
Qed.

(** Whatever was called on an engine and however many ticks ran,
    [getPreviewStats] reports the requested dimensions as the semantic
    ones, a buffer within the cap when the requested sides are finite,
    a frame count that is not negative, and a stride of 1, or of 2 in
    a degraded session whose budget was exceeded.  Before the first
    render the elapsed time is 0. *)
Theorem getPreviewStats_figures
    (cs : list Call) (now : Q) (c : Canvas) (parent : bool) (h : Host) :
  let e := fst (calls config cs (create config c parent h)) in
  let st := getPreviewStats config now e in
  semanticWidth st = Float64.Fin (width config) /\
  semanticHeight st = Float64.Fin (height config) /\
  (Float64.isFinite (Float64.Fin (width config)) = true ->
   Float64.isFinite (Float64.Fin (height config)) = true ->
   Float64.leb (bufferWidth st) (Float64.Fin MAX_DIMENSION) = true /\
   Float64.leb (bufferHeight st) (Float64.Fin MAX_DIMENSION) = true) /\
  (0 <= frames st)%Z /\
  (statsStride st = 1%Z \/
   (statsStride st = DEGRADE_STRIDE /\ budgetExceeded st <> None /\
    budgetBehavior config = Some degrade)) /\
  statsTotalTimeMs (getPreviewStats config now (create config c parent h)) = 0.
Proof.
  cbn zeta.
  destruct (calls_bookkeeping cs _ (proj1 (create_bookkeeping c parent h)))
    as (A & B & C).
  unfold getPreviewStats.
  cbn [semanticWidth semanticHeight bufferWidth bufferHeight frames statsStride
       budgetExceeded statsTotalTimeMs].
  rewrite A. rewrite (proj2 (create_bookkeeping c parent h)).
  destruct (ScalerFacts.original_dimensions
              (Float64.Fin (width config)) (Float64.Fin (height config))) as [W H].
  pose proof (ScalerExtras.buffer_fits_cap
                (Float64.Fin (width config)) (Float64.Fin (height config))) as BF.
  repeat split; auto; intros; now apply BF.
Qed.

(** *** After [destroy] *)

Definition unregistered (e : Engine) : Prop := setupFn e = None /\ drawFn e = None.

Definition notRan (ev : Event) : Prop :=
  match ev with Ran _ _ => False | _ => True end.

Lemma call_unregistered c e :
  unregistered e ->
  unregistered (fst (call config c e)) /\ Forall notRan (snd (call config c e)).
Proof.
  intros [S D]. unfold unregistered. destruct c; cbn [call fst snd]; steps; cbn.
  - rewrite S. cbn. repeat split; auto.
  - destruct (running e); cbn; [repeat split; auto|].
    destruct (overlayElement e && parentElement e); cbn; rewrite S; cbn;
      repeat split; auto; repeat constructor.
  - destruct (animationFrameId e); cbn; repeat split; auto; repeat constructor.
  - destruct (animationFrameId e); cbn;
      destruct (overlayElement e && parentElement e); cbn;
      repeat split; auto; repeat constructor.
  - destruct (running e); cbn; [|repeat split; auto; repeat constructor].
    unfold updateTiming. BudgetFacts.branches config now e;
      try congruence; repeat split; auto; repeat constructor.
Qed.

Lemma calls_unregistered cs : forall e,
  unregistered e -> Forall notRan (snd (calls config cs e)).
Proof.
  induction cs as [|c cs IH]; intros e H; [constructor|].
  cbn [calls]. destruct (call_unregistered c e H) as [H1 H2].
  destruct (call config c e) as [e' es]. cbn [fst snd] in *.
  specialize (IH e' H1). destruct (calls config cs e') as [e'' es'].
  cbn [snd] in *. apply Forall_app. split; assumption.
Qed.

(** [destroy] halts the engine and drops the runtime and both
    functions; whatever is called on the engine afterwards, a
    [startLoop] and the ticks it brings included, no script code runs
    again. *)
Theorem destroy_silences_scripts (e : Engine) (cs : list Call) :
  let e' := state (destroy e) in
  running e' = false /\ animationFrameId e' = None /\ runtime e' = None /\
  setupFn e' = None /\ drawFn e' = None /\
  Forall notRan (snd (calls config cs e')) /\
  draws (snd (calls config cs e')) = 0%nat /\
  setups (snd (calls config cs e')) = 0%nat.
Proof.
  cbn zeta.
  assert (running (state (destroy e)) = false /\
          animationFrameId (state (destroy e)) = None /\
          runtime (state (destroy e)) = None /\
          unregistered (state (destroy e))) as (R & A & Rt & U).
  { unfold unregistered. steps. cbn.
    destruct (animationFrameId e) eqn:E; cbn;
      destruct (overlayElement e && parentElement e); cbn;
      repeat split; exact E. }
  pose proof (calls_unregistered cs _ U) as Q.
  destruct U as [S D].
  repeat split; auto; unfold draws, setups; apply count_none;
    (eapply Forall_impl; [exact Q|]); intros [] N; try reflexivity;
    contradiction.
Qed.

(** *** The host fires the registered callbacks

    A callback registered with [requestAnimationFrame] runs once: the
    host takes the oldest pending id off its list and calls the
    engine's frame callback. *)

Definition fire (now : Q) (e : Engine) : Engine * list Event :=
  match pendingFrames (host e) with
  | [] => (e, [])
  | _ :: rest =>
      let h := {| nextFrameId := nextFrameId (host e); pendingFrames := rest;
                  globalFunctions := globalFunctions (host e) |} in
      let r := frame config now (setHost h e) in
      (state r, events r)
  end.

(** What happens to an engine: a call of its public interface, or the
    host firing a pending callback. *)
Inductive Action :=
| ActRenderStatic (start finish : Q)
| ActStartLoop (now : Q)
| ActStopLoop
| ActDestroy
| ActFire (now : Q).

Definition act (a : Action) (e : Engine) : Engine * list Event :=
  match a with
  | ActRenderStatic t1 t2 => call config (CallRenderStatic t1 t2) e
  | ActStartLoop now => call config (CallStartLoop now) e
  | ActStopLoop => call config CallStopLoop e
  | ActDestroy => call config CallDestroy e
  | ActFire now => fire now e
  end.

Fixpoint acts (l : list Action) (e : Engine) : Engine * list Event :=
  match l with
  | [] => (e, [])
  | a :: rest =>
      let '(e', es) := act a e in
      let '(e'', es') := acts rest e' in
      (e'', es ++ es')
  end.

(** A running engine has exactly one callback pending, the one whose
    id it holds; a halted engine has none. *)
Definition tidy (e : Engine) : Prop :=
  (running e = true /\
   exists id, animationFrameId e = Some id /\ pendingFrames (host e) = [id]) \/
  (running e = false /\ animationFrameId e = None /\ pendingFrames (host e) = []).

Lemma stopLoop_tidy : keeps tidy stopLoop.
Proof.
  intros e T. right.
  destruct T as [(R & id & A & P)|(R & A & P)];
    steps; cbn; rewrite A; cbn; unfold cancelAnimationFrame; cbn; rewrite P;
    rewrite ?EngineExtras.cancel_only; repeat split; (reflexivity || assumption).
Qed.

Lemma callIfSome_tidy ph f : keeps tidy (callIfSome ph f).
Proof.
  destruct f as [cl|]; [|apply keeps_ret].
  intros e H. unfold state, callIfSome, invoke. destruct (thrown _); exact H.
Qed.

Lemma updateTiming_tidy e : tidy e -> tidy (updateTiming config e).
Proof. unfold updateTiming. destruct (runtime e); intros H; exact H. Qed.

Lemma showBudgetOverlay_tidy r : keeps tidy (showBudgetOverlay config r).
Proof. unfold showBudgetOverlay. keeps_using fail; intros e H; exact H. Qed.

Lemma handleBudgetExceeded_tidy now r : keeps tidy (handleBudgetExceeded config now r).
Proof.
  unfold handleBudgetExceeded.
  keeps_using ltac:(first [apply showBudgetOverlay_tidy | apply stopLoop_tidy]);
    intros e H; exact H.
Qed.

Lemma checkBudget_tidy now : keeps tidy (checkBudget config now).
Proof. unfold checkBudget. keeps_using ltac:(apply handleBudgetExceeded_tidy). Qed.

Lemma afterScheduling_tidy now : keeps tidy (afterScheduling config now).
Proof.
  unfold afterScheduling.
  keeps_using ltac:(first [apply checkBudget_tidy | apply callIfSome_tidy]);
    first [apply updateTiming_tidy | (intros e H; exact H)].
Qed.

Lemma frame_tidy now e :
  running e = true -> pendingFrames (host e) = [] ->
  tidy (state (frame config now e)).
Proof.
  intros R P. unfold frame, scheduleNextFrame.
  erewrite bind_run by reflexivity. cbn [state fst snd].
  apply afterScheduling_tidy. left. split; [exact R|].
  eexists. split; [reflexivity|]. cbn. now rewrite P.
Qed.

Lemma act_tidy a e : tidy e -> tidy (fst (act a e)).
Proof.
  intros T. destruct a; cbn [act call fst].
  - unfold tidy in *. steps. cbn.
    destruct (setupFn e); cbn; try destruct (thrown _); cbn; exact T.
  - destruct T as [(R & id & A & P)|(R & A & P)].
    + left. steps. cbn. rewrite R. cbn. eauto.
    + left. steps. cbn. rewrite R. cbn.
      destruct (overlayElement e && parentElement e); cbn;
        destruct (setupFn e); cbn; try destruct (thrown _); cbn;
        rewrite P; cbn; (split; [reflexivity|]); eexists; split; reflexivity.
  - right. destruct T as [(R & id & A & P)|(R & A & P)];
      steps; cbn; rewrite A; cbn; unfold cancelAnimationFrame; cbn; rewrite P;
      rewrite ?EngineExtras.cancel_only; repeat split; (reflexivity || assumption).
  - right. destruct T as [(R & id & A & P)|(R & A & P)];
      steps; cbn; rewrite A; cbn;
      destruct (overlayElement e && parentElement e); cbn;
      unfold cancelAnimationFrame; cbn; rewrite P;
      rewrite ?EngineExtras.cancel_only; repeat split; (reflexivity || assumption).
  - unfold fire. destruct T as [(R & id & A & P)|(R & A & P)]; rewrite P;
      [|right; auto].
    cbn [fst]. apply frame_tidy; [exact R | reflexivity].
Qed.

Lemma acts_tidy l : forall e, tidy e -> tidy (fst (acts l e)).
Proof.
  induction l as [|a l IH]; intros e T; [exact T|].
  cbn [acts]. pose proof (act_tidy a e T) as T1.
  destruct (act a e) as [e' es]. cbn [fst] in T1.
  specialize (IH e' T1). destruct (acts l e') as [e'' es']. exact IH.
Qed.

Lemma applyAll_host ds ps es (I : Engine -> Prop) :
  (forall e f, I e -> I (setSetupFn f e)) ->
  (forall e f, I e -> I (setDrawFn f e)) ->
  keeps I (applyAll ds ps es).
Proof.
  intros HS HD. induction es as [|ef es IH]; cbn [applyAll]; [apply keeps_ret|].
  apply keeps_bind; [|intros; exact IH].
  destruct ef as [[| |] f|o]; cbn [applyTop];
    first [apply keeps_ret | apply keeps_emit | apply keeps_modify]; auto.
Qed.

Lemma create_tidy c parent h :
  pendingFrames h = [] -> tidy (create config c parent h).
Proof.
  intros P.
  assert (forall rt, keeps tidy
            (tryCatch (compileSource config rt)
                      (fun msg => emit (Warn (CompileError msg))))) as K.
  { intros rt. apply keeps_tryCatch; [|intros; apply keeps_emit].
    unfold compileSource. cbv zeta.
    destruct (source config) as [ds|]; [|apply keeps_throw].
    apply keeps_bind; [apply keeps_gets|]. intros globals.
    match goal with
    | |- context [wrapped ?g ?ds ?sc] => destruct (wrapped g ds sc) as [es [msg|]]
    end;
      (apply keeps_bind; [apply applyAll_host; intros e f H; exact H|]); intros _;
      [apply keeps_throw | apply keeps_ret]. }
  unfold create, initialize. cbv zeta.
  rewrite !run_bind_modify.
  apply K. right. cbn. auto.
Qed.

(** From a page with no callback pending, whatever is called on the
    engine and whenever the host fires: a running engine has exactly
    one callback pending, the one whose id it holds, and a halted
    engine has none.  So [stopLoop] and [destroy] leave nothing behind,
    and [startLoop] never starts a second chain of callbacks. *)
Theorem one_callback_pending
    (l : list Action) (c : Canvas) (parent : bool) (h : Host) :
  pendingFrames h = [] ->
  let e := fst (acts l (create config c parent h)) in
  (running e = true ->
   exists id, animationFrameId e = Some id /\ pendingFrames (host e) = [id]) /\
  (running e = false ->
   animationFrameId e = None /\ pendingFrames (host e) = []).
Proof.
  intros P. cbn zeta.
  destruct (acts_tidy l _ (create_tidy c parent h P)) as [(R & X)|(R & A & Q)];
    split; intros H; try congruence; auto.
Qed.

End Engine.

Lemma getPreviewStats_figures_witness :
  let config := Samples.engineConfig (Samples.callsDraw (Samples.paints "frameCount"))
                  None None in
  let e := fst (calls config [CallStartLoop 0; CallFrame 16]
                  (create config Samples.blankCanvas true Samples.page)) in
  let st := getPreviewStats config 20 e in
  Float64.leb (bufferWidth st) (Float64.Fin MAX_DIMENSION) = true /\
  Float64.leb (bufferHeight st) (Float64.Fin MAX_DIMENSION) = true.
Proof.
  intros config e st.
  destruct (getPreviewStats_figures config [CallStartLoop 0; CallFrame 16] 20
              Samples.blankCanvas true Samples.page) as (_ & _ & B & _).
  apply B; vm_compute; reflexivity.
Defined.

Lemma one_callback_pending_witness :
  let config :=
    Samples.engineConfig (Samples.callsDraw (Samples.paints "frameCount"))
      (Some stop) (Some 3%Z) in
  let l := [ActStartLoop 0; ActFire 16; ActStartLoop 20; ActFire 32; ActFire 48;
            ActFire 64] in
  let e := fst (acts config l (create config Samples.blankCanvas true Samples.page)) in
  animationFrameId e = None /\ pendingFrames (host e) = [].
Proof.
  intros config l e.
  pose proof (one_callback_pending config l Samples.blankCanvas true Samples.page
                eq_refl) as [_ H].
  apply H. vm_compute. reflexivity.
Defined.

Lemma overlay_follows_configured_behavior_witness :
  let config :=
    Samples.engineConfig (Samples.callsDraw (Samples.paints "frameCount")) None None in
  let e := state (startLoop 0 (create config Samples.blankCanvas true Samples.page)) in
  ~ In (OverlayShown frame_limit)
       (events (handleBudgetExceeded config 16 frame_limit e)).
Proof.
  intros config e H.
  assert (budgetExceededReason e = None) as B by (vm_compute; reflexivity).
  destruct (overlay_follows_configured_behavior config 16 frame_limit e B) as [[F _] _].
  destruct (F H) as (_ & _ & _ & [S|[_ S]]); discriminate S.
Defined.

End EngineLifecycleExtras.
